(** * pyX2Cscope motor sequencer: a shallow embedding of [motor_gui.py]

    The development follows the source file top-down:

    - [PyFloat]: Python's [float] (IEEE-754 binary64) on top of the
      Standard Library's executable [spec_float], with the few operations
      the program uses: true division, [int * float], [round], ordering
      against [0] and the [.0f] format; the error of these operations is
      bounded over the reals at the end of the file;
    - [World]: what the program can observe of its environment: the
      clock, the moment the stop flag is raised, how long each sleep and
      each write to the target takes, whether the write raises, and the log
      of everything the program did;
    - [MotorGUI]: the fields of the [MotorGUI] object, with its methods
      [_connect], [_disconnect], [_start_seq], [_stop_seq], [_run_sequence]
      and [_poll_speeds] as functions over these two records. *)

From Stdlib Require Import ZArith List String Ascii Bool Lia.
From Stdlib Require Import SpecFloat DecimalString.
From Stdlib Require Import Reals Lra.
Import ListNotations.

Open Scope string_scope.
Open Scope list_scope.
Open Scope Z_scope.

(* ===================================================================== *)
(** ** Python exceptions and results *)

Inductive exn : Type :=
| ValueError
| OverflowError
| ZeroDivisionError
| TypeError
| AttributeError (msg : string)
| RuntimeError (msg : string)
| LinkError (msg : string).    (* whatever pyx2cscope raises *)

(** [str(e)] *)
Definition str_exn (e : exn) : string :=
  match e with
  | AttributeError msg | RuntimeError msg | LinkError msg => msg
  | _ => ""
  end.

Inductive res (A : Type) : Type :=
| Ok (a : A)
| Raise (e : exn).
Arguments Ok {A} a.
Arguments Raise {A} e.

Definition bind {A B : Type} (r : res A) (k : A -> res B) : res B :=
  match r with
  | Ok a => k a
  | Raise e => Raise e
  end.

Notation "x <- r ;; k" := (bind r (fun x => k))
  (at level 61, r at next level, right associativity).

(* ===================================================================== *)
(** ** Python floats *)

Module PyFloat.

Definition prec : Z := 53.
Definition emax : Z := 1024.

Definition float : Type := spec_float.

Definition pzero : float := S754_zero false.

(** [float(n)] for an int [n]: correctly rounded, [OverflowError] when
    the int is beyond the largest double. *)
Definition of_int (n : Z) : res float :=
  match binary_normalize prec emax n 0 false with
  | S754_infinity _ => Raise OverflowError
  | x => Ok x
  end.

(** [x / y] on floats. *)
Definition truediv (x y : float) : res float :=
  match y with
  | S754_zero _ => Raise ZeroDivisionError
  | _ => Ok (SFdiv prec emax x y)
  end.

(** [n * y] for an int [n] and a float [y]. *)
Definition int_mul (n : Z) (y : float) : res float :=
  x <- of_int n ;; Ok (SFmul prec emax x y).

(** The integer nearest to [m * 2^e], ties to the even one. *)
Definition half_even (m : positive) (e : Z) : Z :=
  if 0 <=? e then Z.pos m * 2 ^ e
  else
    let d := 2 ^ (- e) in
    let q := Z.pos m / d in
    let r := Z.pos m mod d in
    match 2 * r ?= d with
    | Lt => q
    | Gt => q + 1
    | Eq => if Z.even q then q else q + 1
    end.

(** [round(x)] with one argument, which returns an int. *)
Definition round (x : float) : res Z :=
  match x with
  | S754_nan => Raise ValueError
  | S754_infinity _ => Raise OverflowError
  | S754_zero _ => Ok 0
  | S754_finite s m e => Ok (cond_Zopp s (half_even m e))
  end.

(** [x <= 0] and [x < 0]. *)
Definition le0 (x : float) : bool := SFleb x pzero.
Definition lt0 (x : float) : bool := SFltb x pzero.

Definition is_finite (x : float) : bool :=
  match x with
  | S754_zero _ | S754_finite _ _ _ => true
  | _ => false
  end.

Definition digits (n : Z) : string :=
  NilZero.string_of_uint (N.to_uint (Z.to_N n)).

Definition sign_str (plus s : bool) : string :=
  if s then "-" else if plus then "+" else "".

(** [format(x, ".0f")], or [format(x, "+.0f")] when [plus] is set. *)
Definition format_f0 (plus : bool) (x : float) : string :=
  match x with
  | S754_nan => (sign_str plus false ++ "nan")%string
  | S754_infinity s => (sign_str plus s ++ "inf")%string
  | S754_zero s => (sign_str plus s ++ "0")%string
  | S754_finite s m e => (sign_str plus s ++ digits (half_even m e))%string
  end.

(** [x - y] and [x < y] on floats. *)
Definition sub (x y : float) : float := SFsub prec emax x y.
Definition lt (x y : float) : bool := SFltb x y.

End PyFloat.

Import PyFloat.

(** [str(n)] for an int. *)
Definition str_of_int (n : Z) : string :=
  NilZero.string_of_int (Z.to_int n).

(* ===================================================================== *)
(** ** MCAF variable paths *)

Definition HWUI_VAR      : string := "app.hardwareUiEnabled".
Definition VELOCITY_CMD  : string := "motor.apiData.velocityReference".
Definition VELOCITY_MEAS : string := "motor.apiData.velocityMeasured".
Definition RUN_REQ_VAR   : string := "motor.apiData.runMotorRequest".
Definition STOP_REQ_VAR  : string := "motor.apiData.stopMotorRequest".

(** A variable object, as [get_variable] returns it: the path it was
    looked up under and its truth value, [bool(var)].  Python takes the
    truth value from the object's [__bool__] or [__len__]; what these
    answer is the library's business, so it comes with the object. *)
Record handle : Type := mkHandle {
  h_path : string;
  h_truthy : bool
}.

(** An attribute of the GUI object that holds a variable: never assigned,
    assigned [None] (what [get_variable] returns for a name it does not
    find), or assigned a variable object. *)
Inductive pyvar : Type :=
| Unset
| PyNone
| Var (h : handle).

(* ===================================================================== *)
(** ** The environment *)

Inductive callback : Type :=
| cb_reset_buttons      (* the lambda at the end of [_run_sequence] *)
| cb_poll_speeds.

Inductive boxkind : Type := showwarning | showerror.

(** Everything the program does that can be seen from outside, stamped
    with the clock; a write is stamped with the moment the call returns
    or raises. *)
Inductive event : Type :=
| Write (t : Z) (var : handle) (v : Z)         (* [var.set_value(v)] went through *)
| WriteFailed (t : Z) (var : handle) (v : Z)   (* [var.set_value(v)] raised *)
| Status (t : Z) (s : string)                  (* [self.status.set(s)] *)
| MsgBox (t : Z) (k : boxkind) (title text : string)
| After (t : Z) (delay : Z) (cb : callback)    (* [self.root.after(delay, cb)] *)
| ThreadStart (t : Z) (tid : nat).

(** - [now]: the clock, in units of [2^-22] s (about a quarter of a
      microsecond).  This is the spacing of the binary64 numbers between
      [2^30] and [2^31], where the readings of [time.time()] lie from 2004
      to 2038: a reading is a whole number of units, and the difference of
      two readings is computed without rounding ([elapsed_lt_is_binary64]
      below);
    - [cancel_at]: the [threading.Event] [_stop_flag]: [None] while it is
      clear, [Some tc] once [set()] is called at time [tc] (for a worker
      that is analysed on its own, the time at which the GUI thread will
      call it);
    - [faults]: the course of the coming writes to the target, one entry
      per [set_value] call: how long the call takes, in clock units, and
      whether it raises ([Some e]: the call raises [e]); past the end of
      the list a write takes no time and goes through;
    - [overruns]: by how much each of the coming [time.sleep] calls
      overruns the time asked for, in clock units; past the end of the
      list a sleep is exact;
    - [alive]: the worker threads that have not returned yet;
    - [spawned]: how many threads were ever started;
    - [log]: the events so far, oldest first. *)
Record World : Type := mkWorld {
  now : Z;
  cancel_at : option Z;
  faults : list (nat * option exn);
  overruns : list nat;
  alive : list nat;
  spawned : nat;
  log : list event
}.

Definition emit (ev : event) (w : World) : World :=
  mkWorld (now w) (cancel_at w) (faults w) (overruns w) (alive w) (spawned w) (log w ++ [ev]).

(** [k] units of time pass. *)
Definition advance (k : Z) (w : World) : World :=
  mkWorld (now w + k) (cancel_at w) (faults w) (overruns w) (alive w) (spawned w) (log w).

(** The clock units in a second. *)
Definition SECOND : Z := 2 ^ 22.

(** The binary64 number of seconds that [time.time()] returns when the
    clock stands at [n] units, and [time.time()] itself. *)
Definition reading (n : Z) : float :=
  binary_normalize prec emax n (- 22) false.

Definition time_time (w : World) : float := reading (now w).

(** The least whole number of clock units that is not below 0.05 s
    (which is 209715.2 units). *)
Definition TICK : Z := 209716.

(** [time.sleep(0.05)]: the call returns once 0.05 s have passed, and it
    may overrun. *)
Definition sleep (w : World) : World :=
  match overruns w with
  | o :: os =>
      mkWorld (now w + TICK + Z.of_nat o) (cancel_at w) (faults w) os
              (alive w) (spawned w) (log w)
  | [] => advance TICK w
  end.

(** [self._stop_flag.is_set()] *)
Definition is_set (w : World) : bool :=
  match cancel_at w with
  | Some tc => tc <=? now w
  | None => false
  end.

(** [self._stop_flag.set()] *)
Definition flag_set (w : World) : World :=
  if is_set w then w
  else mkWorld (now w) (Some (now w)) (faults w) (overruns w) (alive w) (spawned w) (log w).

(** [self._stop_flag.clear()] *)
Definition flag_clear (w : World) : World :=
  mkWorld (now w) None (faults w) (overruns w) (alive w) (spawned w) (log w).

(** [var.set_value(v)]: the call takes its time on the link, then returns
    or raises. *)
Definition set_value (var : handle) (v : Z) (w : World) : res unit * World :=
  match faults w with
  | (d, Some e) :: fs =>
      let t := now w + Z.of_nat d in
      (Raise e,
       mkWorld t (cancel_at w) fs (overruns w) (alive w) (spawned w)
               (log w ++ [WriteFailed t var v]))
  | (d, None) :: fs =>
      let t := now w + Z.of_nat d in
      (Ok tt,
       mkWorld t (cancel_at w) fs (overruns w) (alive w) (spawned w)
               (log w ++ [Write t var v]))
  | [] => (Ok tt, emit (Write (now w) var v) w)
  end.

(** [threading.Thread(...).start()] *)
Definition thread_start (w : World) : nat * World :=
  let tid := spawned w in
  (tid,
   mkWorld (now w) (cancel_at w) (faults w) (overruns w) (tid :: alive w) (S tid)
           (log w ++ [ThreadStart (now w) tid])).

(** The worker [tid] returns (or dies of an exception). *)
Definition thread_exit (tid : nat) (w : World) : World :=
  mkWorld (now w) (cancel_at w) (faults w) (overruns w)
          (filter (fun t => negb (Nat.eqb t tid)) (alive w)) (spawned w) (log w).

(* ===================================================================== *)
(** ** The [MotorGUI] object *)

Inductive wstate : Type := disabled | normal.

Definition params_t : Type := (float * float * float * float * Z)%type.

Record MotorGUI : Type := mkGUI {
  (* attributes *)
  scope : option string;          (* [_ScopeWrapper._scope]: the open port *)
  connected : bool;
  _thread : option nat;
  params : option params_t;
  hwui_var : pyvar;
  cmd_var : pyvar;
  meas_var : pyvar;
  run_var : pyvar;
  stop_var : pyvar;
  (* what the user typed *)
  elf_path : string;
  port_var : string;
  speed_entry : string;
  scale_entry : string;
  run_entry : string;
  stop_entry : string;
  cycle_entry : string;
  (* widgets and Tk variables *)
  conn_btn : string;
  start_btn : wstate;
  stop_btn : wstate;
  status : string;
  meas_str : string;
  cmd_str : string
}.

Definition set_scope (v : option string) (g : MotorGUI) : MotorGUI :=
  mkGUI v (connected g) (_thread g) (params g)
        (hwui_var g) (cmd_var g) (meas_var g) (run_var g) (stop_var g)
        (elf_path g) (port_var g) (speed_entry g) (scale_entry g)
        (run_entry g) (stop_entry g) (cycle_entry g)
        (conn_btn g) (start_btn g) (stop_btn g) (status g) (meas_str g) (cmd_str g).

Definition set_connected (v : bool) (g : MotorGUI) : MotorGUI :=
  mkGUI (scope g) v (_thread g) (params g)
        (hwui_var g) (cmd_var g) (meas_var g) (run_var g) (stop_var g)
        (elf_path g) (port_var g) (speed_entry g) (scale_entry g)
        (run_entry g) (stop_entry g) (cycle_entry g)
        (conn_btn g) (start_btn g) (stop_btn g) (status g) (meas_str g) (cmd_str g).

Definition set__thread (v : option nat) (g : MotorGUI) : MotorGUI :=
  mkGUI (scope g) (connected g) v (params g)
        (hwui_var g) (cmd_var g) (meas_var g) (run_var g) (stop_var g)
        (elf_path g) (port_var g) (speed_entry g) (scale_entry g)
        (run_entry g) (stop_entry g) (cycle_entry g)
        (conn_btn g) (start_btn g) (stop_btn g) (status g) (meas_str g) (cmd_str g).

Definition set_params (v : option params_t) (g : MotorGUI) : MotorGUI :=
  mkGUI (scope g) (connected g) (_thread g) v
        (hwui_var g) (cmd_var g) (meas_var g) (run_var g) (stop_var g)
        (elf_path g) (port_var g) (speed_entry g) (scale_entry g)
        (run_entry g) (stop_entry g) (cycle_entry g)
        (conn_btn g) (start_btn g) (stop_btn g) (status g) (meas_str g) (cmd_str g).

Definition set_hwui_var (v : pyvar) (g : MotorGUI) : MotorGUI :=
  mkGUI (scope g) (connected g) (_thread g) (params g)
        v (cmd_var g) (meas_var g) (run_var g) (stop_var g)
        (elf_path g) (port_var g) (speed_entry g) (scale_entry g)
        (run_entry g) (stop_entry g) (cycle_entry g)
        (conn_btn g) (start_btn g) (stop_btn g) (status g) (meas_str g) (cmd_str g).

Definition set_cmd_var (v : pyvar) (g : MotorGUI) : MotorGUI :=
  mkGUI (scope g) (connected g) (_thread g) (params g)
        (hwui_var g) v (meas_var g) (run_var g) (stop_var g)
        (elf_path g) (port_var g) (speed_entry g) (scale_entry g)
        (run_entry g) (stop_entry g) (cycle_entry g)
        (conn_btn g) (start_btn g) (stop_btn g) (status g) (meas_str g) (cmd_str g).

Definition set_meas_var (v : pyvar) (g : MotorGUI) : MotorGUI :=
  mkGUI (scope g) (connected g) (_thread g) (params g)
        (hwui_var g) (cmd_var g) v (run_var g) (stop_var g)
        (elf_path g) (port_var g) (speed_entry g) (scale_entry g)
        (run_entry g) (stop_entry g) (cycle_entry g)
        (conn_btn g) (start_btn g) (stop_btn g) (status g) (meas_str g) (cmd_str g).

Definition set_run_var (v : pyvar) (g : MotorGUI) : MotorGUI :=
  mkGUI (scope g) (connected g) (_thread g) (params g)
        (hwui_var g) (cmd_var g) (meas_var g) v (stop_var g)
        (elf_path g) (port_var g) (speed_entry g) (scale_entry g)
        (run_entry g) (stop_entry g) (cycle_entry g)
        (conn_btn g) (start_btn g) (stop_btn g) (status g) (meas_str g) (cmd_str g).

Definition set_stop_var (v : pyvar) (g : MotorGUI) : MotorGUI :=
  mkGUI (scope g) (connected g) (_thread g) (params g)
        (hwui_var g) (cmd_var g) (meas_var g) (run_var g) v
        (elf_path g) (port_var g) (speed_entry g) (scale_entry g)
        (run_entry g) (stop_entry g) (cycle_entry g)
        (conn_btn g) (start_btn g) (stop_btn g) (status g) (meas_str g) (cmd_str g).

Definition set_conn_btn (v : string) (g : MotorGUI) : MotorGUI :=
  mkGUI (scope g) (connected g) (_thread g) (params g)
        (hwui_var g) (cmd_var g) (meas_var g) (run_var g) (stop_var g)
        (elf_path g) (port_var g) (speed_entry g) (scale_entry g)
        (run_entry g) (stop_entry g) (cycle_entry g)
        v (start_btn g) (stop_btn g) (status g) (meas_str g) (cmd_str g).

Definition set_start_btn (v : wstate) (g : MotorGUI) : MotorGUI :=
  mkGUI (scope g) (connected g) (_thread g) (params g)
        (hwui_var g) (cmd_var g) (meas_var g) (run_var g) (stop_var g)
        (elf_path g) (port_var g) (speed_entry g) (scale_entry g)
        (run_entry g) (stop_entry g) (cycle_entry g)
        (conn_btn g) v (stop_btn g) (status g) (meas_str g) (cmd_str g).

Definition set_stop_btn (v : wstate) (g : MotorGUI) : MotorGUI :=
  mkGUI (scope g) (connected g) (_thread g) (params g)
        (hwui_var g) (cmd_var g) (meas_var g) (run_var g) (stop_var g)
        (elf_path g) (port_var g) (speed_entry g) (scale_entry g)
        (run_entry g) (stop_entry g) (cycle_entry g)
        (conn_btn g) (start_btn g) v (status g) (meas_str g) (cmd_str g).

Definition set_meas_str (v : string) (g : MotorGUI) : MotorGUI :=
  mkGUI (scope g) (connected g) (_thread g) (params g)
        (hwui_var g) (cmd_var g) (meas_var g) (run_var g) (stop_var g)
        (elf_path g) (port_var g) (speed_entry g) (scale_entry g)
        (run_entry g) (stop_entry g) (cycle_entry g)
        (conn_btn g) (start_btn g) (stop_btn g) (status g) v (cmd_str g).

Definition set_cmd_str (v : string) (g : MotorGUI) : MotorGUI :=
  mkGUI (scope g) (connected g) (_thread g) (params g)
        (hwui_var g) (cmd_var g) (meas_var g) (run_var g) (stop_var g)
        (elf_path g) (port_var g) (speed_entry g) (scale_entry g)
        (run_entry g) (stop_entry g) (cycle_entry g)
        (conn_btn g) (start_btn g) (stop_btn g) (status g) (meas_str g) v.

Definition with_status (v : string) (g : MotorGUI) : MotorGUI :=
  mkGUI (scope g) (connected g) (_thread g) (params g)
        (hwui_var g) (cmd_var g) (meas_var g) (run_var g) (stop_var g)
        (elf_path g) (port_var g) (speed_entry g) (scale_entry g)
        (run_entry g) (stop_entry g) (cycle_entry g)
        (conn_btn g) (start_btn g) (stop_btn g) v (meas_str g) (cmd_str g).

(** [self.status.set(s)]: the Tk variable changes and the label shows it. *)
Definition set_status (s : string) (gw : MotorGUI * World) : MotorGUI * World :=
  (with_status s (fst gw), emit (Status (now (snd gw)) s) (snd gw)).

(** [self.<name>]: an attribute that was never assigned raises. *)
Definition no_attribute (name : string) : exn :=
  AttributeError ("'MotorGUI' object has no attribute '" ++ name ++ "'").

Definition getattr {A : Type} (name : string) (a : option A) : res A :=
  match a with
  | Some x => Ok x
  | None => Raise (no_attribute name)
  end.

(** [self.<name>.<meth>]: looking the method up raises when the attribute
    was never assigned, and when it holds [None]. *)
Definition none_has_no (meth : string) : exn :=
  AttributeError ("'NoneType' object has no attribute '" ++ meth ++ "'").

Definition method (name meth : string) (var : pyvar) : res handle :=
  match var with
  | Unset => Raise (no_attribute name)
  | PyNone => Raise (none_has_no meth)
  | Var h => Ok h
  end.

(** [getattr(self, name, None)] where a truth value is asked for: false
    for an attribute that was never assigned and for [None], else the
    truth value of the object. *)
Definition truthy (var : pyvar) : bool :=
  match var with
  | Var h => h_truthy h
  | _ => false
  end.

(* ===================================================================== *)
(** ** Unit conversion *)

(** [int(round(rpm / scale))], RPM to counts ([_run_sequence]). *)
Definition toCounts (rpm scale : float) : res Z :=
  q <- truediv rpm scale ;; round q.

(** [counts * scale], counts to RPM ([_poll_speeds]). *)
Definition toRPM (counts : Z) (scale : float) : res float :=
  int_mul counts scale.

(* ===================================================================== *)
(** ** The worker: [_run_sequence] *)

(** [range(a, b)] *)
Definition range (a b : Z) : list Z :=
  map (fun i => a + Z.of_nat i) (seq 0 (Z.to_nat (b - a))).

(** [time.time() - t0 < d] for two readings of the clock that are [k]
    units apart and a float [d]: the two readings and their difference are
    binary64 numbers, [k * 2^-22] seconds exactly, so this is the
    comparison of that number with [d] ([elapsed_lt_is_binary64] below
    proves it of [lt (sub (reading n) (reading t0)) d]). *)
Definition elapsed_lt (k : Z) (d : float) : bool :=
  match d with
  | S754_nan => false
  | S754_infinity s => negb s
  | S754_zero _ => k <? 0
  | S754_finite s m e =>
      let v := cond_Zopp s (Z.pos m) in
      if 0 <=? e + 22 then k <? v * 2 ^ (e + 22)
      else k * 2 ^ (- (e + 22)) <? v
  end.

(** [[
      t0 = time.time()
      while time.time() - t0 < d:
          if self._stop_flag.is_set():
              break
          time.sleep(0.05)
    ]]
    with [t0] the clock when the first reading was taken.  [fuel] bounds
    the number of turns; [None] when it runs out. *)
Fixpoint wait (fuel : nat) (d : float) (t0 : Z) (w : World) : option World :=
  match fuel with
  | O => None
  | S k =>
      if elapsed_lt (now w - t0) d then
        if is_set w then Some w
        else wait k d t0 (sleep w)
      else Some w
  end.

Definition run_msg (n cycles : Z) (rpm : float) : string :=
  ("Cycle " ++ str_of_int n ++ "/" ++ str_of_int cycles
   ++ ": RUN @ " ++ format_f0 false rpm ++ " RPM")%string.

Definition stop_msg (n cycles : Z) : string :=
  ("Cycle " ++ str_of_int n ++ "/" ++ str_of_int cycles ++ ": STOP")%string.

Definition STOPPED_BY_USER : string := "Stopped by user".
Definition DONE : string := "Done – motor idle".

(** How one turn of the [for] loop ends. *)
Inductive flow : Type :=
| Continue
| Break
| Raised (e : exn).

(** [self.<name>.set_value(v)] *)
Definition write (name : string) (var : pyvar) (v : Z) (w : World)
    : res unit * World :=
  match method name "set_value" var with
  | Raise e => (Raise e, w)
  | Ok h => set_value h v w
  end.

(** One turn of [for n in range(1, cycles + 1)]. *)
Definition cycle (fuel : nat) (p : params_t) (cnt_cmd n : Z)
    (gw : MotorGUI * World) : option (flow * (MotorGUI * World)) :=
  let '(rpm, scale, run_t, stop_t, cycles) := p in
  if is_set (snd gw) then Some (Break, gw)
  else
    (* RUN phase *)
    let (g, w) := set_status (run_msg n cycles rpm) gw in
    match write "cmd_var" (cmd_var g) cnt_cmd w with
    | (Raise e, w) => Some (Raised e, (g, w))
    | (Ok _, w) =>
    match write "run_var" (run_var g) 1 w with
    | (Raise e, w) => Some (Raised e, (g, w))
    | (Ok _, w) =>
    match wait fuel run_t (now w) w with
    | None => None
    | Some w =>
    if is_set w then Some (Break, (g, w))
    else
      (* STOP phase *)
      let (g, w) := set_status (stop_msg n cycles) (g, w) in
      match write "stop_var" (stop_var g) 1 w with
      | (Raise e, w) => Some (Raised e, (g, w))
      | (Ok _, w) =>
      match wait fuel stop_t (now w) w with
      | None => None
      | Some w => Some (Continue, (g, w))
      end end
    end end end.

(** The [for] loop; [Some e] when a turn raised [e]. *)
Fixpoint for_cycles (fuel : nat) (p : params_t) (cnt_cmd : Z) (ns : list Z)
    (gw : MotorGUI * World) : option (option exn * (MotorGUI * World)) :=
  match ns with
  | [] => Some (None, gw)
  | n :: ns' =>
      match cycle fuel p cnt_cmd n gw with
      | None => None
      | Some (Continue, gw') => for_cycles fuel p cnt_cmd ns' gw'
      | Some (Break, gw') => Some (None, gw')
      | Some (Raised e, gw') => Some (Some e, gw')
      end
  end.

(** [[
      if getattr(self, "stop_var", None):
          self.stop_var.set_value(1)
    ]]
    The write is made when the object is true, not whenever one is
    there. *)
Definition ensure_stopped (g : MotorGUI) (w : World) : res unit * World :=
  if truthy (stop_var g) then write "stop_var" (stop_var g) 1 w
  else (Ok tt, w).

(** [_run_sequence]: [None] when [fuel] runs out, [Raise e] when the
    thread dies of [e], [Ok tt] when the method returns. *)
Definition _run_sequence (fuel : nat) (gw : MotorGUI * World)
    : option (res unit * (MotorGUI * World)) :=
  match getattr "params" (params (fst gw)) with
  | Raise e => Some (Raise e, gw)
  | Ok p =>
  let '(rpm, scale, run_t, stop_t, cycles) := p in
  match toCounts rpm scale with
  | Raise e => Some (Raise e, gw)
  | Ok cnt_cmd =>
  match for_cycles fuel p cnt_cmd (range 1 (cycles + 1)) gw with
  | None => None
  | Some (Some e, gw') => Some (Raise e, gw')
  | Some (None, (g, w)) =>
      (* ensure motor is stopped *)
      match ensure_stopped g w with
      | (Raise e, w) => Some (Raise e, (g, w))
      | (Ok _, w) =>
          let (g, w) :=
            set_status (if is_set w then STOPPED_BY_USER else DONE) (g, w) in
          Some (Ok tt, (g, emit (After (now w) 0 cb_reset_buttons) w))
      end
  end end end.

(** The lambda [_run_sequence] hands to [root.after]. *)
Definition reset_buttons (g : MotorGUI) : MotorGUI :=
  set_stop_btn disabled (set_start_btn normal g).

(* ===================================================================== *)
(** ** The GUI thread: connection, start, stop, polling *)

Definition USE_SCOPE : bool := true.

(** [MotorGUI.POLL_MS] *)
Definition POLL_MS : Z := 500.

Definition DASH : string := "—".

(** What pyx2cscope and the file system answer when the GUI thread asks.
    A look-up raises, returns [None], or returns a variable object, given
    here by its truth value; a read raises, returns [None], or returns an
    int. *)
Record Target : Type := mkTarget {
  is_file : string -> bool;                  (* [pathlib.Path(elf).is_file()] *)
  x2c_open : string -> res unit;             (* [X2CScope(port=port)] *)
  x2c_import : string -> res unit;           (* [import_variables(elf)] *)
  x2c_lookup : string -> res (option bool);  (* [X2CScope.get_variable(path)] *)
  x2c_read : handle -> res (option Z);       (* [var.get_value()] *)
  x2c_close : res unit                       (* [X2CScope.disconnect()] *)
}.

Definition msgbox (k : boxkind) (title text : string) (w : World) : World :=
  emit (MsgBox (now w) k title text) w.

(** [_ScopeWrapper.connect] *)
Definition scope_connect (tgt : Target) (port elf : string) (g : MotorGUI)
    : res unit * MotorGUI :=
  if negb USE_SCOPE then (Ok tt, g)
  else
    match x2c_open tgt port with
    | Raise e => (Raise e, g)
    | Ok _ =>
        let g := set_scope (Some port) g in
        match x2c_import tgt elf with
        | Raise e => (Raise e, g)
        | Ok _ => (Ok tt, g)
        end
    end.

(** What the look-up of [path] hands back, as the value of an
    attribute: [None], or the variable object. *)
Definition found (path : string) (v : option bool) : pyvar :=
  match v with
  | None => PyNone
  | Some b => Var (mkHandle path b)
  end.

(** [_ScopeWrapper.get_variable]: what comes back is what the attribute
    will hold.  A [_DummyVar] is a plain object, which is true. *)
Definition scope_get_variable (tgt : Target) (path : string) (g : MotorGUI)
    : res pyvar :=
  if negb USE_SCOPE then Ok (Var (mkHandle path true))
  else
    match scope g with
    | None => Raise (RuntimeError "Scope not connected")
    | Some _ => v <- x2c_lookup tgt path ;; Ok (found path v)
    end.

(** [_ScopeWrapper.disconnect] *)
Definition scope_disconnect (tgt : Target) (g : MotorGUI) : res unit * MotorGUI :=
  match USE_SCOPE, scope g with
  | true, Some _ =>
      match x2c_close tgt with
      | Raise e => (Raise e, g)
      | Ok _ => (Ok tt, set_scope None g)
      end
  | _, _ => (Ok tt, g)
  end.

(** The [try] block of [_connect]. *)
Definition connect_try (tgt : Target) (port elf : string)
    (gw : MotorGUI * World) : res unit * (MotorGUI * World) :=
  let (g, w) := gw in
  match scope_connect tgt port elf g with
  | (Raise e, g) => (Raise e, (g, w))
  | (Ok _, g) =>
  match scope_get_variable tgt HWUI_VAR g with
  | Raise e => (Raise e, (g, w))
  | Ok v =>
  let g := set_hwui_var v g in
  match scope_get_variable tgt VELOCITY_CMD g with
  | Raise e => (Raise e, (g, w))
  | Ok v =>
  let g := set_cmd_var v g in
  match scope_get_variable tgt VELOCITY_MEAS g with
  | Raise e => (Raise e, (g, w))
  | Ok v =>
  let g := set_meas_var v g in
  match scope_get_variable tgt RUN_REQ_VAR g with
  | Raise e => (Raise e, (g, w))
  | Ok v =>
  let g := set_run_var v g in
  match scope_get_variable tgt STOP_REQ_VAR g with
  | Raise e => (Raise e, (g, w))
  | Ok v =>
  let g := set_stop_var v g in
  (* disable HW UI on target *)
  match write "hwui_var" (hwui_var g) 0 w with
  | (Raise e, w) => (Raise e, (g, w))
  | (Ok _, w) => (Ok tt, (g, w))
  end end end end end end end.

Definition str_empty (s : string) : bool :=
  match s with
  | EmptyString => true
  | _ => false
  end.

(** [_connect] *)
Definition _connect (tgt : Target) (gw : MotorGUI * World) : MotorGUI * World :=
  let (g, w) := gw in
  let port := port_var g in
  let elf := elf_path g in
  if (String.eqb port "" || String.eqb port "-" || str_empty elf)%bool then
    (g, msgbox showwarning "Missing info" "Choose COM port and ELF file." w)
  else if negb (is_file tgt elf) then
    (g, msgbox showerror "File not found" "ELF file does not exist." w)
  else
    match connect_try tgt port elf (g, w) with
    | (Raise e, (g, w)) =>
        (g, msgbox showerror "Connection failed" (str_exn e) w)
    | (Ok _, (g, w)) =>
        let g := set_connected true g in
        let g := set_conn_btn "Disconnect" g in
        let g := set_start_btn normal g in
        set_status ("Connected (" ++ port ++ ")")%string (g, w)
    end.

(** [_disconnect] *)
Definition _disconnect (tgt : Target) (gw : MotorGUI * World)
    : res unit * (MotorGUI * World) :=
  let (g, w) := gw in
  match ensure_stopped g w with
  | (Raise e, w) => (Raise e, (g, w))
  | (Ok _, w) =>
  match scope_disconnect tgt g with
  | (Raise e, g) => (Raise e, (g, w))
  | (Ok _, g) =>
      let g := set_connected false g in
      let g := set_start_btn disabled g in
      let g := set_stop_btn disabled g in
      let g := set_conn_btn "Connect" g in
      (Ok tt, set_status "Disconnected" (g, w))
  end end.

(** [_toggle_conn] *)
Definition _toggle_conn (tgt : Target) (gw : MotorGUI * World)
    : res unit * (MotorGUI * World) :=
  if connected (fst gw) then _disconnect tgt gw
  else (Ok tt, _connect tgt gw).

(** [self._thread and self._thread.is_alive()] *)
Definition thread_alive (gw : MotorGUI * World) : bool :=
  match _thread (fst gw) with
  | Some tid => existsb (Nat.eqb tid) (alive (snd gw))
  | None => false
  end.

(** [_stop_seq] *)
Definition _stop_seq (gw : MotorGUI * World) : res unit * (MotorGUI * World) :=
  if thread_alive gw then
    let (g, w) := gw in
    let w := flag_set w in
    match write "stop_var" (stop_var g) 1 w with
    | (Raise e, w) => (Raise e, (g, w))
    | (Ok _, w) => (Ok tt, set_status "Stopping…" (g, w))
    end
  else (Ok tt, gw).

Section Parsing.

(** Python's [float(s)] and [int(s)] on the text of an entry; [None]
    stands for the [ValueError] they raise on text they do not accept. *)
Variable parse_float : string -> option float.
Variable parse_int : string -> option Z.

Definition float_of (s : string) : res float :=
  match parse_float s with
  | Some x => Ok x
  | None => Raise ValueError
  end.

Definition int_of (s : string) : res Z :=
  match parse_int s with
  | Some n => Ok n
  | None => Raise ValueError
  end.

(** The [try] block of [_start_seq]. *)
Definition read_params (g : MotorGUI) : res params_t :=
  rpm <- float_of (speed_entry g) ;;
  scale <- float_of (scale_entry g) ;;      (* RPM per count *)
  run_t <- float_of (run_entry g) ;;
  stop_t <- float_of (stop_entry g) ;;
  cycles <- int_of (cycle_entry g) ;;
  if (le0 scale || le0 run_t || lt0 stop_t || (cycles <=? 0))%bool
  then Raise ValueError
  else Ok (rpm, scale, run_t, stop_t, cycles).

(** [_start_seq] *)
Definition _start_seq (gw : MotorGUI * World) : MotorGUI * World :=
  if thread_alive gw then gw
  else
    let (g, w) := gw in
    match read_params g with
    | Raise _ =>
        (g, msgbox showerror "Input error" "Enter valid numeric values." w)
    | Ok p =>
        if (USE_SCOPE && negb (connected g))%bool then
          (g, msgbox showwarning "Not connected" "Connect to a target first." w)
        else
          let w := flag_clear w in
          let g := set_params (Some p) g in
          let (tid, w) := thread_start w in
          let g := set__thread (Some tid) g in
          let g := set_start_btn disabled g in
          let g := set_stop_btn normal g in
          (g, w)
    end.

(** [self.<name>.get_value()] *)
Definition get_value (tgt : Target) (name : string) (var : pyvar)
    : res (option Z) :=
  h <- method name "get_value" var ;; x2c_read tgt h.

(** The left operand of [cnt * scale]: [None * scale] raises. *)
Definition operand (cnt : option Z) : res Z :=
  match cnt with
  | Some n => Ok n
  | None => Raise TypeError
  end.

(** The first [try] block of [_poll_speeds]: what the two reads return,
    or zeros when one of them raises. *)
Definition read_counts (tgt : Target) (g : MotorGUI) : option Z * option Z :=
  match get_value tgt "meas_var" (meas_var g) with
  | Raise _ => (Some 0, Some 0)
  | Ok cnt_meas =>
      match get_value tgt "cmd_var" (cmd_var g) with
      | Raise _ => (Some 0, Some 0)
      | Ok cnt_cmd => (cnt_meas, cnt_cmd)
      end
  end.

Definition speed_text (rpm : float) (cnt : Z) : string :=
  (format_f0 true rpm ++ " RPM (" ++ str_of_int cnt ++ ")")%string.

(** The second [try] block of [_poll_speeds], before its [except]. *)
Definition show_speeds (cnt_meas cnt_cmd : option Z) (g : MotorGUI)
    : res MotorGUI :=
  scale <- float_of (scale_entry g) ;;
  cm <- operand cnt_meas ;;
  rpm_meas <- toRPM cm scale ;;
  cc <- operand cnt_cmd ;;
  rpm_cmd <- toRPM cc scale ;;
  Ok (set_cmd_str (speed_text rpm_cmd cc)
        (set_meas_str (speed_text rpm_meas cm) g)).

Definition show_dashes (g : MotorGUI) : MotorGUI :=
  set_cmd_str DASH (set_meas_str DASH g).

(** [_poll_speeds]: one tick of the poller. *)
Definition _poll_speeds (tgt : Target) (gw : MotorGUI * World)
    : res unit * (MotorGUI * World) :=
  let (g, w) := gw in
  let shown :=
    if connected g then
      let (cnt_meas, cnt_cmd) := read_counts tgt g in
      match show_speeds cnt_meas cnt_cmd g with
      | Ok g' => Ok g'
      | Raise ValueError => Ok (show_dashes g)
      | Raise e => Raise e
      end
    else Ok (show_dashes g) in
  match shown with
  | Raise e => (Raise e, (g, w))
  | Ok g' => (Ok tt, (g', emit (After (now w) POLL_MS cb_poll_speeds) w))
  end.

End Parsing.


(* ===================================================================== *)
(** ** The program as a transition system *)

(** What [__init__] builds, before its first [_poll_speeds]. *)
Definition init_gui : MotorGUI :=
  mkGUI None false None None Unset Unset Unset Unset Unset
        "" "-" "1500" "0.19913" "10" "50" "3"
        "Connect" disabled disabled "Idle – not connected" DASH DASH.

Definition init_world (fs : list (nat * option exn)) (os : list nat) : World :=
  mkWorld 0 None fs os [] 0 [].

(** The user edits the text fields. *)
Definition typed (elf port speed scale run stop cycle : string) (g : MotorGUI)
    : MotorGUI :=
  mkGUI (scope g) (connected g) (_thread g) (params g)
        (hwui_var g) (cmd_var g) (meas_var g) (run_var g) (stop_var g)
        elf port speed scale run stop cycle
        (conn_btn g) (start_btn g) (stop_btn g) (status g) (meas_str g) (cmd_str g).

Section Behaviour.

Variable parse_float : string -> option float.
Variable parse_int : string -> option Z.

(** One step of the whole program: a callback of the GUI thread runs, time
    passes, or a worker returns.  The worker's run is collapsed into the
    moment it returns. *)
Inductive step : MotorGUI * World -> MotorGUI * World -> Prop :=
| step_typed elf port speed scale run stop cycle g w :
    step (g, w) (typed elf port speed scale run stop cycle g, w)
| step_toggle_conn tgt gw :
    step gw (snd (_toggle_conn tgt gw))
| step_start gw :
    step gw (_start_seq parse_float parse_int gw)
| step_stop gw :
    step gw (snd (_stop_seq gw))
| step_poll tgt gw :
    step gw (snd (_poll_speeds parse_float tgt gw))
| step_time k g w :
    0 <= k ->
    step (g, w) (g, advance k w)
| step_worker fuel tid gw r g' w' :
    In tid (alive (snd gw)) ->
    _run_sequence fuel gw = Some (r, (g', w')) ->
    step gw (g', thread_exit tid w')
| step_reset t g w :
    In (After t 0 cb_reset_buttons) (log w) ->
    step (g, w) (reset_buttons g, w).

Inductive reachable : MotorGUI * World -> Prop :=
| reach_init fs os : reachable (init_gui, init_world fs os)
| reach_step gw gw' : reachable gw -> step gw gw' -> reachable gw'.

End Behaviour.


(* ===================================================================== *)
(** ** The rest of the GUI thread: the port menu, the file dialog, closing *)

Definition set_port_var (v : string) (g : MotorGUI) : MotorGUI :=
  typed (elf_path g) v (speed_entry g) (scale_entry g)
        (run_entry g) (stop_entry g) (cycle_entry g) g.

Definition set_elf_path (v : string) (g : MotorGUI) : MotorGUI :=
  typed v (port_var g) (speed_entry g) (scale_entry g)
        (run_entry g) (stop_entry g) (cycle_entry g) g.

(** [_ports]: [[
      return [p.device for p in serial.tools.list_ports.comports()] or ["-"]
    ]]
    with [comports] the devices that [comports()] lists. *)
Definition _ports (comports : list string) : list string :=
  match comports with
  | [] => ["-"]
  | _ :: _ => comports
  end.

(** An entry of the port menu: its label, and the value its command
    [lambda v=p: self.port_var.set(v)] stores. *)
Definition menu_entry : Type := (string * string)%type.

(** Choosing an entry of the menu runs its command. *)
Definition invoke (e : menu_entry) (g : MotorGUI) : MotorGUI :=
  set_port_var (snd e) g.

(** [_refresh_ports]: the menu is emptied and filled again, one entry per
    port, and the selection goes back to the placeholder.  Returns the new
    menu with the GUI object. *)
Definition _refresh_ports (comports : list string) (g : MotorGUI)
    : list menu_entry * MotorGUI :=
  (map (fun p => (p, p)) (_ports comports), set_port_var "-" g).

(** [_browse_elf], with [fn] what [askopenfilename] returned (empty when
    the dialog was cancelled). *)
Definition _browse_elf (fn : string) (g : MotorGUI) : MotorGUI :=
  if str_empty fn then g else set_elf_path fn g.

(** [_on_close]: [[
      try:
          if getattr(self, "stop_var", None):
              self.stop_var.set_value(1)
          self.scope.disconnect()
      finally:
          self.root.destroy()
    ]]
    The third component tells that [root.destroy()] ran; the first is the
    exception that leaves the method, if any. *)
Definition _on_close (tgt : Target) (gw : MotorGUI * World)
    : res unit * (MotorGUI * World) * bool :=
  let (g, w) := gw in
  let body :=
    match ensure_stopped g w with
    | (Raise e, w) => (Raise e, (g, w))
    | (Ok _, w) =>
        match scope_disconnect tgt g with
        | (Raise e, g) => (Raise e, (g, w))
        | (Ok _, g) => (Ok tt, (g, w))
        end
    end in
  (* finally *)
  (body, true).

(* ===================================================================== *)
(** ** Vocabulary of the statements *)

(** The float a decimal literal [n / 10^k] denotes: the quotient of two
    exactly representable integers, rounded once (for [n] and [10^k]
    below [2^53]). *)
Definition decimal (n : Z) (k : nat) : float :=
  SFdiv prec emax (binary_normalize prec emax n 0 false)
                  (binary_normalize prec emax (10 ^ Z.of_nat k) 0 false).

(** When the event happened. *)
Definition stamp (ev : event) : Z :=
  match ev with
  | Write t _ _ | WriteFailed t _ _ | Status t _ | MsgBox t _ _ _
  | After t _ _ | ThreadStart t _ => t
  end.

(** An event without its time. *)
Inductive action : Type :=
| Wrote (var : handle) (v : Z)
| Failed (var : handle) (v : Z)
| Shown (s : string)
| Boxed (k : boxkind) (title text : string)
| Scheduled (delay : Z) (cb : callback)
| Started (tid : nat).

Definition action_of (ev : event) : action :=
  match ev with
  | Write _ h v => Wrote h v
  | WriteFailed _ h v => Failed h v
  | Status _ s => Shown s
  | MsgBox _ k title text => Boxed k title text
  | After _ delay cb => Scheduled delay cb
  | ThreadStart _ tid => Started tid
  end.

Definition actions (evs : list event) : list action := map action_of evs.


(** The writes that went through, in order. *)
Fixpoint writes (evs : list event) : list (handle * Z) :=
  match evs with
  | [] => []
  | Write _ h v :: rest => (h, v) :: writes rest
  | _ :: rest => writes rest
  end.

(** Every write that was tried, gone through or not, in order. *)
Fixpoint attempts (evs : list event) : list (handle * Z) :=
  match evs with
  | [] => []
  | Write _ h v :: rest | WriteFailed _ h v :: rest => (h, v) :: attempts rest
  | _ :: rest => attempts rest
  end.


(** The least number of clock units that is not less than [d] seconds
    (0 for a [d] that is not a positive number). *)
Definition units (d : float) : Z :=
  match d with
  | S754_finite false m e =>
      if 0 <=? e + 22 then Z.pos m * 2 ^ (e + 22)
      else (Z.pos m + 2 ^ (- (e + 22)) - 1) / 2 ^ (- (e + 22))
  | _ => 0
  end.

(** A wait of [d] seconds ends by itself: [d] is not [inf]. *)
Definition ends (d : float) : bool :=
  match d with
  | S754_infinity false => false
  | _ => true
  end.

(** The turns of the loop that are enough for a wait of [d] seconds: one
    per sleep, and the one that ends it. *)
Definition turns (d : float) : nat :=
  S (Z.to_nat ((units d + TICK - 1) / TICK)).

(** How long the next write takes. *)
Definition lag (w : World) : Z :=
  match faults w with
  | (d, _) :: _ => Z.of_nat d
  | [] => 0
  end.

(** No write of the list raises. *)
Definition quiet (fs : list (nat * option exn)) : Prop :=
  Forall (fun f => snd f = None) fs.

(** No sleep lasts longer than [L] units: neither an exact one nor one
    with an overrun of the list. *)
Definition sleeps_within (L : Z) (os : list nat) : Prop :=
  TICK <= L /\ Forall (fun o => TICK + Z.of_nat o <= L) os.

(** The longest sleep that is to come. *)
Definition longest (w : World) : Z :=
  TICK + Z.of_nat (list_max (overruns w)).

(** [t] is before the stop flag goes up. *)
Definition before (c : option Z) (t : Z) : Prop :=
  match c with
  | Some tc => t < tc
  | None => True
  end.

(** Once the flag is up, either it went up less than [L] units ago or one
    of the events [evs] is stamped after it went up. *)
Definition prompt (L : Z) (w : World) (evs : list event) : Prop :=
  forall tc, cancel_at w = Some tc -> tc <= now w ->
    now w < tc + L \/ Exists (fun ev => tc <= stamp ev) evs.

(** What a phase of the sequence leaves in the log: a write, or a status
    line that is not one of the two final ones, set while the flag was
    down. *)
Inductive phase_ev (c : option Z) : event -> Prop :=
| phase_write t h v :
    phase_ev c (Write t h v)
| phase_status t s :
    before c t -> s <> STOPPED_BY_USER -> s <> DONE -> phase_ev c (Status t s).

(** A wait of [d] seconds that began at [a] and was not cancelled ends at
    [b]: not before [d] has passed, and less than one sleep after. *)
Definition waited (L : Z) (d : float) (a b : Z) : Prop :=
  a + units d <= b < a + units d + L.

(** What full cycles [ns] leave in the log from time [t] to time [t']
    when nobody cancels and every write goes through: per cycle the status
    line of the RUN phase, the command count, the run request, after the
    RUN wait the status line of the STOP phase and the stop request, then
    the STOP wait. *)
Inductive cycles_log (L : Z) (rpm run_t stop_t : float) (cycles cnt_cmd : Z)
    (hc hr hs : handle) : Z -> list Z -> list event -> Z -> Prop :=
| cycles_nil t :
    cycles_log L rpm run_t stop_t cycles cnt_cmd hc hr hs t [] [] t
| cycles_cons t n ns t1 t2 t3 t4 t5 evs t6 :
    t <= t1 -> t1 <= t2 ->
    waited L run_t t2 t3 ->
    t3 <= t4 ->
    waited L stop_t t4 t5 ->
    cycles_log L rpm run_t stop_t cycles cnt_cmd hc hr hs t5 ns evs t6 ->
    cycles_log L rpm run_t stop_t cycles cnt_cmd hc hr hs t (n :: ns)
      (Status t (run_msg n cycles rpm)
       :: Write t1 hc cnt_cmd
       :: Write t2 hr 1
       :: Status t3 (stop_msg n cycles)
       :: Write t4 hs 1
       :: evs) t6.

(** The same without the times. *)
Definition cycle_actions (rpm : float) (cycles cnt_cmd : Z)
    (hc hr hs : handle) (n : Z) : list action :=
  [Shown (run_msg n cycles rpm); Wrote hc cnt_cmd; Wrote hr 1;
   Shown (stop_msg n cycles); Wrote hs 1].

(** [w'] is [w] some time later, with [evs] added to the log and some of
    the coming writes and sleeps used up. *)
Definition grows (w w' : World) (evs : list event) : Prop :=
  log w' = log w ++ evs /\
  cancel_at w' = cancel_at w /\
  alive w' = alive w /\
  spawned w' = spawned w /\
  now w <= now w' /\
  (exists fs, faults w = fs ++ faults w') /\
  (exists os, overruns w = os ++ overruns w').

(** [grows], and the flag is seen promptly at the end if it was at the
    beginning. *)
Definition run_to (L : Z) (w w' : World) (evs : list event) : Prop :=
  grows w w' evs /\
  forall evs0, prompt L w evs0 -> prompt L w' (evs0 ++ evs).

(** The write that [ensure_stopped] makes, when it makes one. *)
Definition stop_event (g : MotorGUI) (t : Z) : list event :=
  match stop_var g with
  | Var h => if h_truthy h then [Write t h 1] else []
  | _ => []
  end.

(** What [_run_sequence] appends to the log once the loop is left:
    the stop request if the variable object is true, the final status line
    and the button reset. *)
Definition final_events (g : MotorGUI) (w' : World) : list event :=
  stop_event g (now w')
  ++ [Status (now w') (if is_set w' then STOPPED_BY_USER else DONE);
      After (now w') 0 cb_reset_buttons].

(** The run dies of [e] in its first two lines: [self.params] was never
    assigned, or the conversion of the speed raises. *)
Definition conversion_fails (g : MotorGUI) (e : exn) : Prop :=
  match params g with
  | None => e = no_attribute "params"
  | Some (rpm, scale, _, _, _) => toCounts rpm scale = Raise e
  end.

(** The three attributes the worker writes through. *)
Definition written (g : MotorGUI) : list (string * pyvar) :=
  [("cmd_var", cmd_var g); ("run_var", run_var g); ("stop_var", stop_var g)].

(** One of them holds no variable, and [e] is what the look-up of
    [set_value] raises then. *)
Definition no_variable (g : MotorGUI) (e : exn) : Prop :=
  exists name var,
    In (name, var) (written g) /\ method name "set_value" var = Raise e.

(** How the log of a run that died of [e] in a phase ends: after the
    phase events [pre], either nothing (the attribute held no variable) or
    the write that raised. *)
Definition aborted (e : exn) (g : MotorGUI) (w w' : World)
    (pre evs : list event) : Prop :=
  (evs = pre /\ no_variable g e) \/
  (exists h v d, evs = pre ++ [WriteFailed (now w') h v] /\
                 In (d, Some e) (faults w)).

(** The status line after the events [evs], starting from [s]. *)
Fixpoint last_status (s : string) (evs : list event) : string :=
  match evs with
  | [] => s
  | Status _ s' :: rest => last_status s' rest
  | _ :: rest => last_status s rest
  end.

(** The user's edit of the text fields, as a function on the state. *)
Definition retyped (elf port speed scale run stop cycle : string)
    (gw : MotorGUI * World) : MotorGUI * World :=
  (typed elf port speed scale run stop cycle (fst gw), snd gw).

(* ===================================================================== *)
(** ** Inputs of the worked examples *)

(** The parameters the entries hold when the program starts, with
    [cycles] iterations. *)
Definition default_params (cycles : Z) : params_t :=
  (decimal 1500 0, decimal 19913 5, decimal 10 0, decimal 50 0, cycles).

(** The variable object for [path], with truth value [b]. *)
Definition var_at (b : bool) (path : string) : pyvar := Var (mkHandle path b).

(** The GUI once [_connect] went through on COM3, with variable objects
    of truth value [b], and [_start_seq] started worker 0 on [p]. *)
Definition running_gui (b : bool) (p : params_t) : MotorGUI :=
  mkGUI (Some "COM3") true (Some 0%nat) (Some p)
        (var_at b HWUI_VAR) (var_at b VELOCITY_CMD) (var_at b VELOCITY_MEAS)
        (var_at b RUN_REQ_VAR) (var_at b STOP_REQ_VAR)
        "motor.elf" "COM3" "1500" "0.19913" "10" "50" "3"
        "Disconnect" disabled normal "Connected (COM3)" DASH DASH.

(** The world as that worker finds it, at time 0. *)
Definition running_world (c : option Z) (fs : list (nat * option exn))
    (os : list nat) : World :=
  mkWorld 0 c fs os [0%nat] 1 [].

(** The run tried to assert the stop request: a write of 1 to it is in
    the log, gone through or failed. *)
Definition stop_attempted (evs : list event) : Prop :=
  exists t h, h_path h = STOP_REQ_VAR /\
              (In (Write t h 1) evs \/ In (WriteFailed t h 1) evs).

(** The GUI object and the world a run of the worker leaves behind (the
    ones it started from when the fuel runs out). *)
Definition gui_after (fuel : nat) (gw : MotorGUI * World) : MotorGUI :=
  match _run_sequence fuel gw with
  | Some (_, (g', _)) => g'
  | None => fst gw
  end.

Definition world_after (fuel : nat) (gw : MotorGUI * World) : World :=
  match _run_sequence fuel gw with
  | Some (_, (_, w')) => w'
  | None => snd gw
  end.

(* ===================================================================== *)
(** ** Plain decimal literals

    [float(s)] and [int(s)] are parameters of the model.  The worked
    examples need them on a few texts; on an optional sign followed by
    digits, with at most one point for a float, Python's answer is the one
    below (for at most 22 digits after the point and a digit string
    below [2^53], where one correctly rounded division gives the nearest
    double).  Any other text is left out ([None]). *)

Definition digit_of (c : ascii) : option Z :=
  let n := Z.of_nat (nat_of_ascii c) in
  if ((48 <=? n) && (n <=? 57))%bool then Some (n - 48) else None.

Fixpoint digits_of (s : string) (acc : Z) : option Z :=
  match s with
  | EmptyString => Some acc
  | String c rest =>
      match digit_of c with
      | Some d => digits_of rest (10 * acc + d)
      | None => None
      end
  end.

Fixpoint split_dot (s : string) : string * string :=
  match s with
  | EmptyString => (EmptyString, EmptyString)
  | String c rest =>
      if Ascii.eqb c "." then (EmptyString, rest)
      else let (a, b) := split_dot rest in (String c a, b)
  end.

Definition strip_sign (s : string) : bool * string :=
  match s with
  | String "-" rest => (true, rest)
  | String "+" rest => (false, rest)
  | _ => (false, s)
  end.

Definition lit_int (s : string) : option Z :=
  let (neg, body) := strip_sign s in
  if str_empty body then None
  else option_map (cond_Zopp neg) (digits_of body 0).

Definition lit_float (s : string) : option float :=
  let (neg, body) := strip_sign s in
  let (ip, fp) := split_dot body in
  if (str_empty ip && str_empty fp)%bool then None
  else
    match digits_of (ip ++ fp)%string 0 with
    | Some n =>
        if ((n <? 2 ^ 53) && (Nat.leb (String.length fp) 22))%bool then
          let x := decimal n (String.length fp) in
          Some (if neg then SFopp x else x)
        else None
    | None => None
    end.

(** [float(s)] on the plain literals and on the two texts "nan" and
    "inf", which Python's [float] accepts as well. *)
Definition lit_float_ext (s : string) : option float :=
  if String.eqb s "nan" then Some S754_nan
  else if String.eqb s "inf" then Some (S754_infinity false)
  else lit_float s.

(** A target that answers every request, with variable objects of truth
    value [b] and the motor at 7530 counts for a command of 7533. *)
Definition target_up (b : bool) : Target :=
  mkTarget (fun _ => true) (fun _ => Ok tt) (fun _ => Ok tt)
           (fun _ => Ok (Some b))
           (fun h => Ok (Some (if String.eqb (h_path h) VELOCITY_MEAS
                               then 7530 else 7533)))
           (Ok tt).

(** The same target with the link down, for a library whose reads
    raise. *)
Definition target_down (b : bool) : Target :=
  mkTarget (fun _ => true) (fun _ => Ok tt) (fun _ => Ok tt)
           (fun _ => Ok (Some b))
           (fun _ => Raise (LinkError "link down"))
           (Ok tt).

(** The same target with the link down, for a library whose reads return
    [None] then. *)
Definition target_silent (b : bool) : Target :=
  mkTarget (fun _ => true) (fun _ => Ok tt) (fun _ => Ok tt)
           (fun _ => Ok (Some b))
           (fun _ => Ok None)
           (Ok tt).

(** A target whose ELF file has no variable [missing]: the look-up of
    that name returns [None]. *)
Definition target_without (b : bool) (missing : string) : Target :=
  mkTarget (fun _ => true) (fun _ => Ok tt) (fun _ => Ok tt)
           (fun path => Ok (if String.eqb path missing then None else Some b))
           (fun h => Ok (Some (if String.eqb (h_path h) VELOCITY_MEAS
                               then 7530 else 7533)))
           (Ok tt).

(* ===================================================================== *)
(** ** Vocabulary of the statements about the GUI thread *)

(** What [_connect] asks of the two text fields before it tries. *)
Definition inputs_ok (tgt : Target) (g : MotorGUI) : Prop :=
  port_var g <> "" /\ port_var g <> "-" /\ elf_path g <> "" /\
  is_file tgt (elf_path g) = true.

(** No call of the [try] block of [_connect] raises: opening the port,
    importing the ELF file, the five look-ups, and the write that disables
    the hardware UI, which raises also when the look-up of [HWUI_VAR]
    returned [None]. *)
Definition link_ok (tgt : Target) (g : MotorGUI) (w : World) : Prop :=
  x2c_open tgt (port_var g) = Ok tt /\
  x2c_import tgt (elf_path g) = Ok tt /\
  (exists b, x2c_lookup tgt HWUI_VAR = Ok (Some b)) /\
  (exists v, x2c_lookup tgt VELOCITY_CMD = Ok v) /\
  (exists v, x2c_lookup tgt VELOCITY_MEAS = Ok v) /\
  (exists v, x2c_lookup tgt RUN_REQ_VAR = Ok v) /\
  (exists v, x2c_lookup tgt STOP_REQ_VAR = Ok v) /\
  (forall d e fs, faults w <> (d, Some e) :: fs).

Section Checks.

Variable parse_float : string -> option float.
Variable parse_int : string -> option Z.

(** The entries do not pass the [try] block of [_start_seq]: one of them
    does not parse, or [scale <= 0], [run_t <= 0], [stop_t < 0] or
    [cycles <= 0] holds. *)
Definition refused (g : MotorGUI) : Prop :=
  match parse_float (speed_entry g), parse_float (scale_entry g),
        parse_float (run_entry g), parse_float (stop_entry g),
        parse_int (cycle_entry g) with
  | Some _, Some scale, Some run_t, Some stop_t, Some cycles =>
      le0 scale = true \/ le0 run_t = true \/ lt0 stop_t = true \/ cycles <= 0
  | _, _, _, _, _ => True
  end.

(** What a poll tick shows for the counts [m] and [c]: the two speeds, or
    the dash when the scale does not parse. *)
Definition sample (m c : Z) (g : MotorGUI) : MotorGUI :=
  match parse_float (scale_entry g) with
  | Some scale =>
      set_cmd_str (speed_text (SFmul prec emax (binary_normalize prec emax c 0 false) scale) c)
        (set_meas_str (speed_text (SFmul prec emax (binary_normalize prec emax m 0 false) scale) m) g)
  | None => show_dashes g
  end.

End Checks.

(** One of the two reads of a poll tick raises. *)
Definition read_raises (tgt : Target) (g : MotorGUI) : Prop :=
  (exists e, get_value tgt "meas_var" (meas_var g) = Raise e) \/
  (exists e, get_value tgt "cmd_var" (cmd_var g) = Raise e).

(** A connected GUI with no worker: what [_connect] leaves on a target
    that answers with variable objects of truth value [b], with [speed]
    typed as the speed. *)
Definition idle_gui (b : bool) (speed : string) : MotorGUI :=
  mkGUI (Some "COM3") true None None
        (var_at b HWUI_VAR) (var_at b VELOCITY_CMD) (var_at b VELOCITY_MEAS)
        (var_at b RUN_REQ_VAR) (var_at b STOP_REQ_VAR)
        "motor.elf" "COM3" speed "0.19913" "10" "50" "3"
        "Disconnect" normal disabled "Connected (COM3)" DASH DASH.

(** What a poll tick shows for zero counts at the given scale. *)
Definition zero_sample (scale : float) (g : MotorGUI) : MotorGUI :=
  let text := speed_text (SFmul prec emax pzero scale) 0 in
  set_cmd_str text (set_meas_str text g).

(** What holds of every state the program reaches: a live worker is the
    one [_thread] names, there is no second one, and once the GUI was
    connected or a worker started, the three attributes the worker writes
    through were assigned. *)
Definition inv (gw : MotorGUI * World) : Prop :=
  (forall tid, In tid (alive (snd gw)) -> _thread (fst gw) = Some tid) /\
  NoDup (alive (snd gw)) /\
  (connected (fst gw) = true \/ _thread (fst gw) <> None ->
   cmd_var (fst gw) <> Unset /\ run_var (fst gw) <> Unset /\
   stop_var (fst gw) <> Unset).


(** A callback leaves the worker bookkeeping alone. *)
Definition keeps_worker (gw gw' : MotorGUI * World) : Prop :=
  _thread (fst gw') = _thread (fst gw) /\
  alive (snd gw') = alive (snd gw).

(** A callback never takes an attribute away. *)
Definition keeps_handles (g g' : MotorGUI) : Prop :=
  (cmd_var g <> Unset -> cmd_var g' <> Unset) /\
  (run_var g <> Unset -> run_var g' <> Unset) /\
  (stop_var g <> Unset -> stop_var g' <> Unset).

(** What the [try] block of [_start_seq] lets through. *)
Definition params_ok (p : params_t) : Prop :=
  let '(rpm, scale, run_t, stop_t, cycles) := p in
  le0 scale = false /\ le0 run_t = false /\ lt0 stop_t = false /\ 0 < cycles.

(** A GUI that says it is connected has the open port, the variable that
    disables the hardware UI, and the other four attributes assigned (a
    variable or [None]). *)
Definition inv_conn (gw : MotorGUI * World) : Prop :=
  connected (fst gw) = true ->
  scope (fst gw) <> None /\
  (exists h, hwui_var (fst gw) = Var h /\ h_path h = HWUI_VAR) /\
  cmd_var (fst gw) <> Unset /\
  meas_var (fst gw) <> Unset /\ run_var (fst gw) <> Unset /\
  stop_var (fst gw) <> Unset.

(** The stored parameters passed the check, and they are there once a
    worker was started. *)
Definition inv_params (gw : MotorGUI * World) : Prop :=
  (forall p, params (fst gw) = Some p -> params_ok p) /\
  (_thread (fst gw) <> None -> params (fst gw) <> None).

(** The first write that was tried, if any, is the one that disables the
    hardware UI: a 0 to the variable looked up under [HWUI_VAR]. *)
Definition hwui_first (evs : list event) : Prop :=
  match attempts evs with
  | [] => True
  | (h, v) :: _ => v = 0 /\ h_path h = HWUI_VAR
  end.

(** Once the GUI was connected or a worker started, that write was
    tried. *)
Definition inv_first (gw : MotorGUI * World) : Prop :=
  (connected (fst gw) = true \/ _thread (fst gw) <> None ->
   attempts (log (snd gw)) <> []) /\
  hwui_first (log (snd gw)).

(* ===================================================================== *)
(** ** Vocabulary of the statements about binary64 *)

(** [2^e] as a real number. *)
Definition bpow (e : Z) : R := powerRZ 2 e.

(** The record [mrs] of a right shift stands for the real [v]: [shr_m] is
    its integer part, the round and sticky bits place it against the half. *)
Definition rep (mrs : shr_record) (v : R) : Prop :=
  (0 <= shr_m mrs)%Z /\
  match shr_r mrs, shr_s mrs with
  | false, false => v = IZR (shr_m mrs)
  | false, true => (IZR (shr_m mrs) < v < IZR (shr_m mrs) + / 2)%R
  | true, false => (v = IZR (shr_m mrs) + / 2)%R
  | true, true => (IZR (shr_m mrs) + / 2 < v < IZR (shr_m mrs) + 1)%R
  end.

(** The real number a float stands for (0 for the ones that are not
    finite). *)
Definition to_real (x : float) : R :=
  match x with
  | S754_finite s m e => (IZR (cond_Zopp s (Z.pos m)) * bpow e)%R
  | _ => 0%R
  end.

(* ===================================================================== *)
(** ** The clock and the wait loop *)

Lemma units_nonneg (d : float) : 0 <= units d.
Proof.
  destruct d as [s | s | | s m e]; unfold units; try lia.
  destruct s; try lia.
  destruct (0 <=? e + 22) eqn:He.
  - apply Z.leb_le in He.
    assert (0 < 2 ^ (e + 22)) by (apply Z.pow_pos_nonneg; lia).
    apply Z.mul_nonneg_nonneg; lia.
  - apply Z.leb_gt in He.
    assert (0 < 2 ^ (- (e + 22))) by (apply Z.pow_pos_nonneg; lia).
    apply Z.div_pos; lia.
Qed.

(** The loop test in closed form: [k] units after its first reading, a
    wait of [d] seconds goes on exactly when [k < units d]. *)
Lemma elapsed_lt_units (d : float) (k : Z) :
  ends d = true -> 0 <= k ->
  elapsed_lt k d = (k <? units d).
Proof.
  intros Hfin Hk.
  destruct d as [s | s | | s m e]; unfold elapsed_lt, units, cond_Zopp.
  - reflexivity.
  - destruct s; [| discriminate]. cbn. symmetry. apply Z.ltb_ge. exact Hk.
  - symmetry. apply Z.ltb_ge. exact Hk.
  - destruct s; rewrite ?Pos2Z.opp_pos.
    + (* a negative duration never holds the loop *)
      destruct (0 <=? e + 22) eqn:He.
      * apply Z.leb_le in He.
        assert (0 < 2 ^ (e + 22)) by (apply Z.pow_pos_nonneg; lia).
        destruct (Z.ltb_spec k (Z.neg m * 2 ^ (e + 22))),
                 (Z.ltb_spec k 0); try lia; nia.
      * apply Z.leb_gt in He.
        assert (0 < 2 ^ (- (e + 22))) by (apply Z.pow_pos_nonneg; lia).
        destruct (Z.ltb_spec (k * 2 ^ (- (e + 22))) (Z.neg m)),
                 (Z.ltb_spec k 0); try lia; nia.
    + destruct (0 <=? e + 22) eqn:He; [reflexivity |].
      apply Z.leb_gt in He.
      set (D := 2 ^ (- (e + 22))).
      assert (HD : 0 < D) by (apply Z.pow_pos_nonneg; lia).
      set (a := Z.pos m).
      assert (Hq : k < (a + D - 1) / D <-> k * D < a).
      { split; intros Hlt.
        - assert (Hle : k + 1 <= (a + D - 1) / D) by lia.
          assert (D * (k + 1) <= a + D - 1).
          { etransitivity; [apply Z.mul_le_mono_nonneg_l; [lia | exact Hle] |].
            apply Z.mul_div_le; lia. }
          nia.
        - assert (k + 1 <= (a + D - 1) / D); [| lia].
          apply Z.div_le_lower_bound; nia. }
      destruct (Z.ltb_spec (k * D) a),
               (Z.ltb_spec k ((a + D - 1) / D)); try lia.
Qed.

Lemma elapsed_lt_forever (k : Z) : elapsed_lt k (S754_infinity false) = true.
Proof. reflexivity. Qed.

Lemma TICK_pos : 0 < TICK.
Proof. reflexivity. Qed.

Lemma advance_0 (w : World) : advance 0 w = w.
Proof.
  destruct w; unfold advance; simpl. now rewrite Z.add_0_r.
Qed.

(* ===================================================================== *)
(** ** How the world changes *)

Lemma grows_refl (w : World) : grows w w [].
Proof.
  unfold grows. rewrite app_nil_r.
  repeat split; auto; try lia; now exists [].
Qed.

Lemma grows_trans (w1 w2 w3 : World) (e1 e2 : list event) :
  grows w1 w2 e1 -> grows w2 w3 e2 -> grows w1 w3 (e1 ++ e2).
Proof.
  unfold grows.
  intros (L1 & C1 & A1 & S1 & N1 & [f1 F1] & [o1 O1])
         (L2 & C2 & A2 & S2 & N2 & [f2 F2] & [o2 O2]).
  rewrite L2, L1, C2, C1, A2, A1, S2, S1, app_assoc.
  repeat split; auto; try lia.
  - exists (f1 ++ f2). now rewrite F1, F2, app_assoc.
  - exists (o1 ++ o2). now rewrite O1, O2, app_assoc.
Qed.

Lemma grows_advance (w : World) (k : Z) : 0 <= k -> grows w (advance k w) [].
Proof.
  intros Hk. unfold grows, advance. cbn. rewrite app_nil_r.
  repeat split; auto; try lia; now exists [].
Qed.

Lemma grows_sleep (w : World) : grows w (sleep w) [].
Proof.
  unfold sleep. destruct (overruns w) as [| o os] eqn:E.
  - apply grows_advance. pose proof TICK_pos. lia.
  - unfold grows. cbn. rewrite app_nil_r, E. pose proof TICK_pos.
    repeat split; auto; try lia; [now exists [] | now exists [o]].
Qed.

Lemma grows_emit (w : World) (ev : event) : grows w (emit ev w) [ev].
Proof.
  unfold grows, emit. cbn. repeat split; auto; try lia; now exists [].
Qed.

Lemma grows_cancel (w w' : World) (evs : list event) :
  grows w w' evs -> cancel_at w' = cancel_at w.
Proof. now intros (_ & C & _). Qed.

Lemma grows_now (w w' : World) (evs : list event) :
  grows w w' evs -> now w <= now w'.
Proof. now intros (_ & _ & _ & _ & N & _). Qed.

Lemma grows_log (w w' : World) (evs : list event) :
  grows w w' evs -> log w' = log w ++ evs.
Proof. now intros (L & _). Qed.

Lemma grows_quiet (w w' : World) (evs : list event) :
  grows w w' evs -> quiet (faults w) -> quiet (faults w').
Proof.
  intros (_ & _ & _ & _ & _ & [fs F] & _) Q. unfold quiet in *.
  rewrite F in Q. now apply Forall_app in Q.
Qed.

Lemma grows_sleeps_within (L : Z) (w w' : World) (evs : list event) :
  grows w w' evs -> sleeps_within L (overruns w) -> sleeps_within L (overruns w').
Proof.
  intros (_ & _ & _ & _ & _ & _ & [os O]) [T Q]. split; [exact T |].
  rewrite O in Q. now apply Forall_app in Q.
Qed.

Lemma grows_faults_in (w w' : World) (evs : list event) (f : nat * option exn) :
  grows w w' evs -> In f (faults w') -> In f (faults w).
Proof.
  intros (_ & _ & _ & _ & _ & [fs F] & _) I. rewrite F. apply in_or_app. now right.
Qed.

Lemma sleeps_within_longest (w : World) : sleeps_within (longest w) (overruns w).
Proof.
  unfold sleeps_within, longest. split; [lia |].
  apply Forall_forall. intros o Ho.
  pose proof (proj1 (list_max_le (overruns w) (list_max (overruns w)))
                (Nat.le_refl _)) as M.
  rewrite Forall_forall in M. specialize (M o Ho). lia.
Qed.

Lemma not_set_before (w : World) :
  is_set w = false -> before (cancel_at w) (now w).
Proof.
  unfold is_set, before. destruct (cancel_at w); [| trivial].
  intros H. now apply Z.leb_gt in H.
Qed.

Lemma set_not_before (w : World) :
  is_set w = true -> exists tc, cancel_at w = Some tc /\ tc <= now w.
Proof.
  unfold is_set. destruct (cancel_at w) as [tc |]; [| discriminate].
  intros H. apply Z.leb_le in H. eauto.
Qed.

(* ===================================================================== *)
(** ** Steps that keep the flag promptly seen *)

Lemma run_to_refl (L : Z) (w : World) : run_to L w w [].
Proof.
  split; [apply grows_refl |]. intros evs0. now rewrite app_nil_r.
Qed.

Lemma run_to_trans (L : Z) (w1 w2 w3 : World) (e1 e2 : list event) :
  run_to L w1 w2 e1 -> run_to L w2 w3 e2 -> run_to L w1 w3 (e1 ++ e2).
Proof.
  intros [G1 P1] [G2 P2]. split; [exact (grows_trans _ _ _ _ _ G1 G2) |].
  intros evs0 P. rewrite app_assoc. auto.
Qed.

Lemma run_to_grows (L : Z) (w w' : World) (evs : list event) :
  run_to L w w' evs -> grows w w' evs.
Proof. now intros [G _]. Qed.

Lemma run_to_emit (L : Z) (w : World) (ev : event) :
  run_to L w (emit ev w) [ev].
Proof.
  split; [apply grows_emit |].
  intros evs0 P tc C T. cbn in C, T.
  destruct (P tc C T) as [H | H]; [now left | right].
  apply Exists_app. now left.
Qed.

(** A step whose last event is stamped with the time it ends at. *)
Lemma run_to_stamped (L : Z) (w w' : World) (ev : event) :
  grows w w' [ev] -> stamp ev = now w' -> run_to L w w' [ev].
Proof.
  intros G S. split; [exact G |].
  intros evs0 _ tc C T. right. apply Exists_app. right.
  constructor. now rewrite S.
Qed.

Lemma run_to_sleep (L : Z) (w : World) :
  sleeps_within L (overruns w) -> is_set w = false -> run_to L w (sleep w) [].
Proof.
  intros [HT Q] Hs. split; [apply grows_sleep |].
  intros evs0 _ tc C T. left.
  rewrite (grows_cancel _ _ _ (grows_sleep w)) in C.
  unfold is_set in Hs. rewrite C in Hs. apply Z.leb_gt in Hs.
  unfold sleep in *. destruct (overruns w) as [| o os]; cbn [now advance] in *.
  - lia.
  - apply Forall_inv in Q. lia.
Qed.

(** One [set_value]: the call takes the time the link gives it, and the
    log gets the write or its failure, stamped with the end of the call. *)
Lemma set_value_spec (L : Z) (h : handle) (v : Z) (w w' : World) (r : res unit) :
  set_value h v w = (r, w') ->
  match r with
  | Ok _ =>
      run_to L w w' [Write (now w') h v] /\
      (forall d e fs, faults w <> (d, Some e) :: fs)
  | Raise e =>
      run_to L w w' [WriteFailed (now w') h v] /\
      exists d fs, faults w = (d, Some e) :: fs
  end.
Proof.
  unfold set_value.
  destruct (faults w) as [| [d [e |]] fs] eqn:Hf; intros H; injection H as <- <-.
  - split; [| discriminate]. apply run_to_emit.
  - split; [| eauto]. apply run_to_stamped; [| reflexivity].
    unfold grows; cbn. rewrite Hf.
    repeat split; auto; try lia; [now exists [(d, Some e)] | now exists []].
  - split; [| intros ? ? ? X; discriminate]. apply run_to_stamped; [| reflexivity].
    unfold grows; cbn. rewrite Hf.
    repeat split; auto; try lia; [now exists [(d, None)] | now exists []].
Qed.

(** One [set_value] through an attribute: nothing happens when the
    attribute holds no variable. *)
Lemma write_spec (L : Z) (name : string) (var : pyvar) (v : Z)
    (w w' : World) (r : res unit) :
  write name var v w = (r, w') ->
  match r with
  | Ok _ =>
      exists h, var = Var h /\ run_to L w w' [Write (now w') h v] /\
                (forall d e fs, faults w <> (d, Some e) :: fs)
  | Raise e =>
      (method name "set_value" var = Raise e /\ w' = w) \/
      (exists h, var = Var h /\ run_to L w w' [WriteFailed (now w') h v] /\
                 exists d fs, faults w = (d, Some e) :: fs)
  end.
Proof.
  unfold write, method.
  destruct var as [| | h].
  - intros H; injection H as <- <-. now left.
  - intros H; injection H as <- <-. now left.
  - intros H. apply (set_value_spec L) in H.
    destruct r as [[] | e].
    + exists h. tauto.
    + right. exists h. tauto.
Qed.

Lemma write_quiet (L : Z) (name : string) (h : handle) (v : Z) (w : World) :
  quiet (faults w) ->
  exists w', write name (Var h) v w = (Ok tt, w') /\
             run_to L w w' [Write (now w') h v].
Proof.
  intros Q. destruct (write name (Var h) v w) as [r w'] eqn:W.
  pose proof (write_spec L _ _ _ _ _ _ W) as X.
  destruct r as [[] | e].
  - destruct X as (h' & E & G & _). injection E as <-. eauto.
  - destruct X as [[E _] | (h' & _ & _ & d & fs & F)]; [discriminate |].
    unfold quiet in Q. rewrite F in Q. apply Forall_inv in Q. discriminate.
Qed.

(* ===================================================================== *)
(** ** The wait loop *)

(** Whatever the duration, a wait only lets time pass. *)
Lemma wait_spec (L : Z) (d : float) (t0 : Z) (fuel : nat) :
  forall w w' : World,
    sleeps_within L (overruns w) ->
    wait fuel d t0 w = Some w' ->
    run_to L w w' [] /\ faults w' = faults w.
Proof.
  induction fuel as [| fuel IH]; intros w w' Q H; [discriminate |].
  cbn [wait] in H.
  destruct (elapsed_lt (now w - t0) d).
  - destruct (is_set w) eqn:Hset.
    + injection H as <-. split; [apply run_to_refl | reflexivity].
    + pose proof (run_to_sleep L w Q Hset) as R.
      apply IH in H as [R' F'].
      * split; [exact (run_to_trans _ _ _ _ _ _ R R') |].
        rewrite F'. unfold sleep. now destruct (overruns w).
      * exact (grows_sleeps_within _ _ _ _ (run_to_grows _ _ _ _ R) Q).
  - injection H as <-. split; [apply run_to_refl | reflexivity].
Qed.

Lemma sleep_now (w : World) : now w + TICK <= now (sleep w).
Proof.
  unfold sleep. destruct (overruns w); cbn; lia.
Qed.


(** A wait that nobody cancels, for a duration that is not infinite,
    ends: not before the duration has passed, and less than one sleep
    after. *)
Lemma wait_steps (L : Z) (d : float) (t0 : Z) :
  ends d = true ->
  forall (fuel : nat) (w : World),
    cancel_at w = None ->
    sleeps_within L (overruns w) ->
    t0 <= now w ->
    now w = t0 \/ now w < t0 + units d + L ->
    (Z.to_nat ((units d - (now w - t0) + TICK - 1) / TICK) < fuel)%nat ->
    exists w', wait fuel d t0 w = Some w' /\
               waited L d t0 (now w').
Proof.
  intros Hfin fuel. induction fuel as [| fuel IH]; intros w Hc Q Ht Hi Hf; [lia |].
  cbn [wait]. rewrite elapsed_lt_units by (assumption || lia).
  pose proof (units_nonneg d) as U. pose proof TICK_pos as T.
  assert (TL : TICK <= L) by apply Q.
  destruct (Z.ltb_spec (now w - t0) (units d)) as [Hlt | Hge].
  - unfold is_set. rewrite Hc.
    apply IH.
    + now rewrite (grows_cancel _ _ _ (grows_sleep w)).
    + exact (grows_sleeps_within _ _ _ _ (grows_sleep w) Q).
    + pose proof (sleep_now w). lia.
    + right. destruct Q as [_ Q]. unfold sleep.
      destruct (overruns w) as [| o os]; cbn [now advance]; [lia |].
      apply Forall_inv in Q. lia.
    + pose proof (sleep_now w) as Sl.
      set (r := units d - (now w - t0)) in *.
      assert (Hr : 1 <= (r + TICK - 1) / TICK)
        by (apply Z.div_le_lower_bound; lia).
      assert (Hd : (units d - (now (sleep w) - t0) + TICK - 1) / TICK
                   <= (r + TICK - 1) / TICK - 1).
      { replace ((r + TICK - 1) / TICK - 1) with ((r - 1) / TICK).
        - apply Z.div_le_mono; lia.
        - replace (r + TICK - 1) with (r - 1 + 1 * TICK) by lia.
          rewrite Z.div_add by lia. lia. }
      lia.
  - exists w. split; [reflexivity |]. unfold waited. lia.
Qed.

Lemma wait_uncancelled (L : Z) (d : float) (w : World) (fuel : nat) :
  ends d = true ->
  cancel_at w = None ->
  sleeps_within L (overruns w) ->
  (turns d <= fuel)%nat ->
  exists w', wait fuel d (now w) w = Some w' /\
             run_to L w w' [] /\ faults w' = faults w /\
             waited L d (now w) (now w').
Proof.
  intros Hfin Hc Q Hf. unfold turns in Hf.
  destruct (wait_steps L d (now w) Hfin fuel w) as (w' & W & X);
    try assumption; try lia.
  { replace (units d - (now w - now w) + TICK - 1) with (units d + TICK - 1) by lia.
    lia. }
  exists w'. split; [exact W |].
  destruct (wait_spec L d (now w) fuel w w' Q W) as [R F]. tauto.
Qed.

(** A wait of an infinite duration that nobody cancels does not end. *)
Lemma wait_forever (t0 : Z) (fuel : nat) :
  forall w : World,
    cancel_at w = None -> wait fuel (S754_infinity false) t0 w = None.
Proof.
  induction fuel as [| fuel IH]; intros w Hc; [reflexivity |].
  cbn [wait]. rewrite elapsed_lt_forever. unfold is_set. rewrite Hc.
  apply IH. now rewrite (grows_cancel _ _ _ (grows_sleep w)).
Qed.

Lemma run_msg_not_final (n cycles : Z) (rpm : float) :
  run_msg n cycles rpm <> STOPPED_BY_USER /\ run_msg n cycles rpm <> DONE.
Proof. split; discriminate. Qed.

Lemma stop_msg_not_final (n cycles : Z) :
  stop_msg n cycles <> STOPPED_BY_USER /\ stop_msg n cycles <> DONE.
Proof. split; discriminate. Qed.

Lemma with_status_id (g : MotorGUI) : with_status (status g) g = g.
Proof. now destruct g. Qed.

Lemma with_status_twice (a b : string) (g : MotorGUI) :
  with_status b (with_status a g) = with_status b g.
Proof. reflexivity. Qed.

Lemma last_status_app (s : string) (e1 e2 : list event) :
  last_status s (e1 ++ e2) = last_status (last_status s e1) e2.
Proof.
  revert s. induction e1 as [| ev e1 IH]; intros s; [reflexivity |].
  destruct ev; cbn; apply IH.
Qed.

(* ===================================================================== *)
(** ** What every run of the worker does *)

Lemma write_step (L : Z) (g : MotorGUI) (name : string) (var : pyvar) (v : Z)
    (w w' : World) (r : res unit) :
  In (name, var) (written g) ->
  write name var v w = (r, w') ->
  match r with
  | Ok _ => exists h, var = Var h /\ run_to L w w' [Write (now w') h v]
  | Raise e => exists evs, run_to L w w' evs /\ aborted e g w w' [] evs
  end.
Proof.
  intros I H. apply (write_spec L) in H.
  destruct r as [[] | e].
  - destruct H as (h & E & R & _). eauto.
  - destruct H as [(A & ->) | (h & E & R & d & fs & F)].
    + exists []. split; [apply run_to_refl | left].
      split; [reflexivity |]. now exists name, var.
    + eexists. split; [exact R |]. right. exists h, v, d.
      split; [reflexivity |]. rewrite F. now left.
Qed.

Lemma aborted_after (L : Z) (e : exn) (g : MotorGUI) (w w1 w' : World)
    (evs1 pre evs : list event) :
  run_to L w w1 evs1 ->
  aborted e g w1 w' pre evs ->
  aborted e g w w' (evs1 ++ pre) (evs1 ++ evs).
Proof.
  intros [G _] [[-> B] | (h & v & d & -> & I)].
  - left. now split.
  - right. exists h, v, d. split; [now rewrite app_assoc |].
    exact (grows_faults_in _ _ _ _ G I).
Qed.

Ltac phases :=
  repeat first [assumption | apply Forall_nil | apply Forall_cons | apply phase_write].

Ltac within G Q :=
  exact (grows_sleeps_within _ _ _ _ (run_to_grows _ _ _ _ G) Q).

(** One turn of the loop: its events are phase events; a turn that breaks
    has seen the flag; a turn that raises ends the log with the write
    that failed, if one did. *)
Lemma cycle_spec (L : Z) (fuel : nat) (p : params_t) (cnt n : Z)
    (g g' : MotorGUI) (w w' : World) (fl : flow) :
  sleeps_within L (overruns w) ->
  cycle fuel p cnt n (g, w) = Some (fl, (g', w')) ->
  exists evs,
    run_to L w w' evs /\
    g' = with_status (last_status (status g) evs) g /\
    match fl with
    | Continue => Forall (phase_ev (cancel_at w)) evs
    | Break => Forall (phase_ev (cancel_at w)) evs /\ is_set w' = true
    | Raised e =>
        exists pre, Forall (phase_ev (cancel_at w)) pre /\ aborted e g w w' pre evs
    end.
Proof.
  intros Q.
  destruct p as [[[[rpm scale] run_t] stop_t] cycles].
  unfold cycle. cbn [snd]. intros H.
  destruct (is_set w) eqn:S0.
  { injection H as <- <- <-. exists []. split; [apply run_to_refl |].
    split; [cbn; now rewrite with_status_id |]. now split. }
  pose proof (not_set_before w S0) as B0.
  unfold set_status in H. cbn [fst snd] in H.
  set (m1 := run_msg n cycles rpm) in *.
  set (g1 := with_status m1 g) in *.
  pose proof (run_to_emit L w (Status (now w) m1)) as G1.
  set (w1 := emit (Status (now w) m1) w) in *.
  assert (P1 : phase_ev (cancel_at w) (Status (now w) m1)).
  { constructor; [exact B0 | apply run_msg_not_final ..]. }
  destruct (write "cmd_var" (cmd_var g1) cnt w1) as [r2 w2] eqn:W2.
  apply (write_step L g) in W2; [| now left].
  destruct r2 as [[] | e].
  2: { (* the command write raised *)
    injection H as <- <- <-. destruct W2 as (evs & R & A).
    exists ([Status (now w) m1] ++ evs).
    split; [exact (run_to_trans _ _ _ _ _ _ G1 R) |].
    split.
    { destruct A as [[-> _] | (h & v & d & -> & _)]; reflexivity. }
    exists ([Status (now w) m1] ++ []). split; [phases |].
    exact (aborted_after _ _ _ _ _ _ _ _ _ G1 A). }
  destruct W2 as (hc & Hc & G2).
  pose proof (run_to_trans _ _ _ _ _ _ G1 G2) as G12. cbn [app] in G12.
  destruct (write "run_var" (run_var g1) 1 w2) as [r3 w3] eqn:W3.
  apply (write_step L g) in W3; [| right; now left].
  destruct r3 as [[] | e].
  2: { (* the run request raised *)
    injection H as <- <- <-. destruct W3 as (evs & R & A).
    exists ([Status (now w) m1; Write (now w2) hc cnt] ++ evs).
    split; [exact (run_to_trans _ _ _ _ _ _ G12 R) |].
    split.
    { destruct A as [[-> _] | (h & v & d & -> & _)]; reflexivity. }
    exists ([Status (now w) m1; Write (now w2) hc cnt] ++ []). split; [phases |].
    exact (aborted_after _ _ _ _ _ _ _ _ _ G12 A). }
  destruct W3 as (hr & Hr & G3).
  pose proof (run_to_trans _ _ _ _ _ _ G12 G3) as G123. cbn [app] in G123.
  destruct (wait fuel run_t (now w3) w3) as [w4 |] eqn:W4; [| discriminate].
  apply (wait_spec L) in W4 as [R4 _]; [| within G123 Q].
  pose proof (run_to_trans _ _ _ _ _ _ G123 R4) as G4.
  cbn [app] in G4.
  destruct (is_set w4) eqn:S4.
  { injection H as <- <- <-. eexists. split; [exact G4 |].
    split; [reflexivity |]. split; [phases | exact S4]. }
  pose proof (not_set_before _ S4) as B4.
  rewrite (grows_cancel _ _ _ (run_to_grows _ _ _ _ G4)) in B4.
  cbn [fst snd] in H.
  set (m2 := stop_msg n cycles) in *.
  pose proof (run_to_trans _ _ _ _ _ _ G4 (run_to_emit L w4 (Status (now w4) m2))) as G5.
  cbn [app] in G5.
  set (w5 := emit (Status (now w4) m2) w4) in *.
  assert (P5 : phase_ev (cancel_at w) (Status (now w4) m2)).
  { constructor; [exact B4 | apply stop_msg_not_final ..]. }
  destruct (write "stop_var" (stop_var (with_status m2 g1)) 1 w5) as [r6 w6] eqn:W6.
  apply (write_step L g) in W6; [| right; right; now left].
  destruct r6 as [[] | e].
  2: { (* the stop request raised *)
    injection H as <- <- <-. destruct W6 as (evs & R & A).
    exists ([Status (now w) m1; Write (now w2) hc cnt; Write (now w3) hr 1;
             Status (now w4) m2] ++ evs).
    split; [exact (run_to_trans _ _ _ _ _ _ G5 R) |].
    split.
    { destruct A as [[-> _] | (h & v & d & -> & _)]; reflexivity. }
    exists ([Status (now w) m1; Write (now w2) hc cnt; Write (now w3) hr 1;
             Status (now w4) m2] ++ []).
    split; [phases |].
    exact (aborted_after _ _ _ _ _ _ _ _ _ G5 A). }
  destruct W6 as (hs & Hs & G6).
  pose proof (run_to_trans _ _ _ _ _ _ G5 G6) as G56. cbn [app] in G56.
  destruct (wait fuel stop_t (now w6) w6) as [w7 |] eqn:W7; [| discriminate].
  apply (wait_spec L) in W7 as [R7 _]; [| within G56 Q].
  injection H as <- <- <-.
  pose proof (run_to_trans _ _ _ _ _ _ G56 R7) as G7.
  cbn [app] in G7.
  eexists. split; [exact G7 |].
  split; [reflexivity |].
  phases.
Qed.

Lemma for_cycles_spec (L : Z) (fuel : nat) (p : params_t) (cnt : Z) (ns : list Z) :
  forall (g g' : MotorGUI) (w w' : World) (oe : option exn),
    sleeps_within L (overruns w) ->
    for_cycles fuel p cnt ns (g, w) = Some (oe, (g', w')) ->
    exists evs,
      run_to L w w' evs /\
      g' = with_status (last_status (status g) evs) g /\
      match oe with
      | None => Forall (phase_ev (cancel_at w)) evs
      | Some e =>
          exists pre, Forall (phase_ev (cancel_at w)) pre /\ aborted e g w w' pre evs
      end.
Proof.
  induction ns as [| n ns IH]; intros g g' w w' oe Q H; cbn [for_cycles] in H.
  - injection H as <- <- <-. exists []. split; [apply run_to_refl |].
    split; [cbn; now rewrite with_status_id |]. constructor.
  - destruct (cycle fuel p cnt n (g, w)) as [[fl [g1 w1]] |] eqn:C; [| discriminate].
    apply (cycle_spec L) in C as (evs1 & G1 & S1 & X1); [| exact Q].
    destruct fl as [| | e].
    + apply IH in H as (evs2 & G2 & S2 & X2); [| within G1 Q].
      exists (evs1 ++ evs2). split; [exact (run_to_trans _ _ _ _ _ _ G1 G2) |].
      split; [rewrite S2, S1; cbn [status with_status];
              now rewrite last_status_app |].
      rewrite (grows_cancel _ _ _ (run_to_grows _ _ _ _ G1)) in X2.
      destruct oe as [e |].
      * destruct X2 as (pre & P & A). exists (evs1 ++ pre).
        rewrite S1 in A. change (aborted e g w1 w' pre evs2) in A.
        split; [apply Forall_app; now split
               | exact (aborted_after _ _ _ _ _ _ _ _ _ G1 A)].
      * apply Forall_app; now split.
    + injection H as <- <- <-. exists evs1. tauto.
    + injection H as <- <- <-. exists evs1. tauto.
Qed.

(** The stop request after the loop: written when the variable object is
    true, and only then. *)
Lemma ensure_stopped_spec (L : Z) (g : MotorGUI) (w w' : World) (r : res unit) :
  ensure_stopped g w = (r, w') ->
  match r with
  | Ok _ => run_to L w w' (stop_event g (now w'))
  | Raise e =>
      exists h d, stop_var g = Var h /\ h_truthy h = true /\
                  run_to L w w' [WriteFailed (now w') h 1] /\
                  In (d, Some e) (faults w)
  end.
Proof.
  unfold ensure_stopped, stop_event, truthy. intros H.
  destruct (stop_var g) as [| | h].
  - injection H as <- <-. apply run_to_refl.
  - injection H as <- <-. apply run_to_refl.
  - destruct (h_truthy h) eqn:T.
    + apply (write_spec L) in H.
      destruct r as [[] | e].
      * destruct H as (h' & E & R & _). now injection E as <-.
      * destruct H as [[E _] | (h' & E & R & d & fs & F)]; [discriminate |].
        injection E as <-. exists h, d.
        split; [reflexivity |]. split; [exact T |]. split; [exact R |].
        rewrite F. now left.
    + injection H as <- <-. apply run_to_refl.
Qed.

Lemma round_raises (q : float) (e : exn) :
  round q = Raise e -> e = ValueError \/ e = OverflowError.
Proof.
  destruct q; cbn; intros H; try discriminate; injection H as <-; auto.
Qed.

Lemma toCounts_raises (rpm scale : float) (e : exn) :
  toCounts rpm scale = Raise e ->
  e = ValueError \/ e = OverflowError \/ e = ZeroDivisionError.
Proof.
  unfold toCounts, truediv, bind.
  destruct scale; intros H;
    try (apply round_raises in H; tauto).
  injection H as <-. auto.
Qed.

(** Every run that returns or raises, whatever the parameters, the clock,
    the sleeps and the writes. *)
Lemma run_spec (L : Z) (fuel : nat) (g g' : MotorGUI) (w w' : World) (r : res unit) :
  sleeps_within L (overruns w) ->
  _run_sequence fuel (g, w) = Some (r, (g', w')) ->
  exists evs,
    grows w w' evs /\
    match r with
    | Ok _ =>
        exists pre w1,
          Forall (phase_ev (cancel_at w)) pre /\
          evs = pre ++ final_events g w' /\
          g' = with_status (if is_set w' then STOPPED_BY_USER else DONE) g /\
          run_to L w w1 pre /\ now w1 <= now w' /\
          (truthy (stop_var g) = false -> now w1 = now w')
    | Raise e =>
        g' = with_status (last_status (status g) evs) g /\
        ((evs = [] /\ conversion_fails g e) \/
         exists pre, Forall (phase_ev (cancel_at w)) pre /\ aborted e g w w' pre evs)
    end.
Proof.
  intros Q. unfold _run_sequence. cbn [fst]. intros H.
  destruct (params g) as [[[[[rpm scale] run_t] stop_t] cycles] |] eqn:Hp;
    cbn [getattr] in H.
  2: { injection H as <- <- <-. exists []. split; [apply grows_refl |].
       split; [cbn; now rewrite with_status_id |]. left.
       split; [reflexivity |]. unfold conversion_fails. now rewrite Hp. }
  destruct (toCounts rpm scale) as [cnt | e] eqn:TC.
  2: { injection H as <- <- <-. exists []. split; [apply grows_refl |].
       split; [cbn; now rewrite with_status_id |]. left.
       split; [reflexivity |]. unfold conversion_fails. now rewrite Hp. }
  destruct (for_cycles fuel (rpm, scale, run_t, stop_t, cycles) cnt
              (range 1 (cycles + 1)) (g, w)) as [[oe [g1 w1]] |] eqn:Lp;
    [| discriminate].
  apply (for_cycles_spec L) in Lp as (evs1 & G1 & S1 & X1); [| exact Q].
  destruct oe as [e |].
  { injection H as <- <- <-. exists evs1.
    split; [exact (run_to_grows _ _ _ _ G1) |].
    split; [exact S1 | right; exact X1]. }
  assert (Hsv : stop_var g1 = stop_var g) by (rewrite S1; reflexivity).
  destruct (ensure_stopped g1 w1) as [r2 w2] eqn:E.
  pose proof E as E'.
  apply (ensure_stopped_spec L) in E.
  destruct r2 as [[] | e].
  - unfold set_status in H. cbn [fst snd] in H. injection H as <- <- <-.
    unfold stop_event in E. rewrite Hsv in E. fold (stop_event g (now w2)) in E.
    pose proof (run_to_trans _ _ _ _ _ _ G1 E) as G12.
    pose proof (run_to_trans _ _ _ _ _ _ G12
                  (run_to_emit L w2 (Status (now w2)
                     (if is_set w2 then STOPPED_BY_USER else DONE)))) as G3.
    pose proof (run_to_trans _ _ _ _ _ _ G3
                  (run_to_emit L _ (After (now w2) 0 cb_reset_buttons))) as G4.
    eexists. split; [exact (run_to_grows _ _ _ _ G4) |].
    exists evs1, w1. split; [exact X1 |].
    split; [unfold final_events; cbn [now emit]; now rewrite <- !app_assoc |].
    split; [rewrite S1; reflexivity |].
    split; [exact G1 |].
    split; [exact (grows_now _ _ _ (run_to_grows _ _ _ _ E)) |].
    intros T. unfold ensure_stopped in E'. rewrite Hsv, T in E'.
    injection E' as <-. reflexivity.
  - injection H as <- <- <-. destruct E as (h & d & Hv & T & G2 & I).
    exists (evs1 ++ [WriteFailed (now w2) h 1]).
    split; [exact (run_to_grows _ _ _ _ (run_to_trans _ _ _ _ _ _ G1 G2)) |].
    split; [rewrite last_status_app; exact S1 |].
    right. exists evs1. split; [exact X1 |].
    right. exists h, 1, d. split; [reflexivity |].
    exact (grows_faults_in _ _ _ _ (run_to_grows _ _ _ _ G1) I).
Qed.

(* ===================================================================== *)
(** ** A cancelled run returns *)

Section Cancelled.

Variable tc : Z.
Variable fuel : nat.


Lemma write_grows (name : string) (var : pyvar) (v : Z) (w w' : World) (r : res unit) :
  write name var v w = (r, w') -> exists evs, grows w w' evs.
Proof.
  intros H. apply (write_spec 0) in H.
  destruct r as [[] | e].
  - destruct H as (h & _ & G & _). exists [Write (now w') h v]. apply G.
  - destruct H as [[_ ->] | (h & _ & G & _)].
    + exists []. apply grows_refl.
    + exists [WriteFailed (now w') h v]. apply G.
Qed.





End Cancelled.

(* ===================================================================== *)
(** ** A run that nobody cancels and in which no write raises *)

Section Uncancelled.

Variable L : Z.
Variables rpm scale run_t stop_t : float.
Variables cycles cnt : Z.
Variables hc hr hs : handle.
Variable fuel : nat.

Hypothesis run_ends : ends run_t = true.
Hypothesis stop_ends : ends stop_t = true.
Hypothesis fuel_run : (turns run_t <= fuel)%nat.
Hypothesis fuel_stop : (turns stop_t <= fuel)%nat.

Let p : params_t := (rpm, scale, run_t, stop_t, cycles).

Lemma is_set_uncancelled (w : World) : cancel_at w = None -> is_set w = false.
Proof. unfold is_set. now intros ->. Qed.

Lemma cycle_uncancelled (n : Z) (g : MotorGUI) (w : World) :
  cmd_var g = Var hc -> run_var g = Var hr -> stop_var g = Var hs ->
  cancel_at w = None -> quiet (faults w) -> sleeps_within L (overruns w) ->
  exists w' t1 t2 t3 t4,
    cycle fuel p cnt n (g, w)
    = Some (Continue, (with_status (stop_msg n cycles) g, w')) /\
    grows w w' [Status (now w) (run_msg n cycles rpm); Write t1 hc cnt;
                Write t2 hr 1; Status t3 (stop_msg n cycles); Write t4 hs 1] /\
    now w <= t1 /\ t1 <= t2 /\ waited L run_t t2 t3 /\ t3 <= t4 /\
    waited L stop_t t4 (now w').
Proof.
  intros Hc Hr Hs C Qf Qo.
  unfold cycle, p. cbn [snd]. rewrite (is_set_uncancelled w C).
  unfold set_status. cbn [fst snd cmd_var run_var stop_var with_status].
  rewrite Hc, Hr, Hs.
  set (m1 := run_msg n cycles rpm).
  pose proof (grows_emit w (Status (now w) m1)) as G1.
  set (w1 := emit (Status (now w) m1) w) in *.
  destruct (write_quiet L "cmd_var" hc cnt w1) as (w2 & -> & [G2 _]);
    [exact (grows_quiet _ _ _ G1 Qf) |].
  pose proof (grows_trans _ _ _ _ _ G1 G2) as G12. cbn [app] in G12.
  destruct (write_quiet L "run_var" hr 1 w2) as (w3 & -> & [G3 _]);
    [exact (grows_quiet _ _ _ G12 Qf) |].
  pose proof (grows_trans _ _ _ _ _ G12 G3) as G123. cbn [app] in G123.
  destruct (wait_uncancelled L run_t w3 fuel) as (w4 & -> & [G4 _] & F4 & X4);
    try assumption.
  { now rewrite (grows_cancel _ _ _ G123). }
  { exact (grows_sleeps_within _ _ _ _ G123 Qo). }
  pose proof (grows_trans _ _ _ _ _ G123 G4) as G1234. cbn [app] in G1234.
  rewrite (is_set_uncancelled w4)
    by (now rewrite (grows_cancel _ _ _ G1234)).
  set (m2 := stop_msg n cycles).
  pose proof (grows_trans _ _ _ _ _ G1234 (grows_emit w4 (Status (now w4) m2))) as G5.
  cbn [app] in G5.
  set (w5 := emit (Status (now w4) m2) w4) in *.
  destruct (write_quiet L "stop_var" hs 1 w5) as (w6 & -> & [G6 _]);
    [exact (grows_quiet _ _ _ G5 Qf) |].
  pose proof (grows_trans _ _ _ _ _ G5 G6) as G56. cbn [app] in G56.
  destruct (wait_uncancelled L stop_t w6 fuel) as (w7 & -> & [G7 _] & F7 & X7);
    try assumption.
  { now rewrite (grows_cancel _ _ _ G56). }
  { exact (grows_sleeps_within _ _ _ _ G56 Qo). }
  pose proof (grows_trans _ _ _ _ _ G56 G7) as G. cbn [app] in G.
  exists w7, (now w2), (now w3), (now w4), (now w6).
  split; [reflexivity |]. split; [exact G |].
  split; [exact (grows_now _ _ _ G2) |].
  split; [exact (grows_now _ _ _ G3) |].
  split; [exact X4 |].
  split; [exact (grows_now _ _ _ G6) |].
  exact X7.
Qed.

Lemma for_cycles_uncancelled (ns : list Z) :
  forall (g : MotorGUI) (w : World),
    cmd_var g = Var hc -> run_var g = Var hr -> stop_var g = Var hs ->
    cancel_at w = None -> quiet (faults w) -> sleeps_within L (overruns w) ->
    exists s w' evs,
      for_cycles fuel p cnt ns (g, w) = Some (None, (with_status s g, w')) /\
      grows w w' evs /\
      cycles_log L rpm run_t stop_t cycles cnt hc hr hs (now w) ns evs (now w').
Proof.
  induction ns as [| n ns IH]; intros g w Hc Hr Hs C Qf Qo; cbn [for_cycles].
  - exists (status g), w, []. rewrite with_status_id.
    split; [reflexivity |]. split; [apply grows_refl | constructor].
  - destruct (cycle_uncancelled n g w Hc Hr Hs C Qf Qo)
      as (w1 & t1 & t2 & t3 & t4 & -> & G1 & A & B & X & D & Y).
    destruct (IH (with_status (stop_msg n cycles) g) w1) as (s & w' & evs & -> & G2 & CL);
      try assumption.
    { now rewrite (grows_cancel _ _ _ G1). }
    { exact (grows_quiet _ _ _ G1 Qf). }
    { exact (grows_sleeps_within _ _ _ _ G1 Qo). }
    exists s, w', ([Status (now w) (run_msg n cycles rpm); Write t1 hc cnt;
                    Write t2 hr 1; Status t3 (stop_msg n cycles); Write t4 hs 1]
                   ++ evs).
    split; [reflexivity |].
    split; [exact (grows_trans _ _ _ _ _ G1 G2) |].
    cbn [app]. econstructor; eassumption.
Qed.

(** The whole run: the cycles, then the stop request if the variable
    object is true, the status line "Done" and the button reset. *)
Lemma run_uncancelled (g : MotorGUI) (w : World) :
  params g = Some p ->
  toCounts rpm scale = Ok cnt ->
  cmd_var g = Var hc -> run_var g = Var hr -> stop_var g = Var hs ->
  cancel_at w = None -> quiet (faults w) -> sleeps_within L (overruns w) ->
  exists w' evs t,
    _run_sequence fuel (g, w) = Some (Ok tt, (with_status DONE g, w')) /\
    cycles_log L rpm run_t stop_t cycles cnt hc hr hs (now w)
               (range 1 (cycles + 1)) evs t /\
    t <= now w' /\ (h_truthy hs = false -> t = now w') /\
    log w' = log w ++ evs
             ++ (if h_truthy hs then [Write (now w') hs 1] else [])
             ++ [Status (now w') DONE; After (now w') 0 cb_reset_buttons].
Proof.
  intros Hp Hcnt Hc Hr Hs C Qf Qo.
  unfold _run_sequence. cbn [fst]. rewrite Hp. cbn [getattr]. unfold p.
  rewrite Hcnt.
  destruct (for_cycles_uncancelled (range 1 (cycles + 1)) g w Hc Hr Hs C Qf Qo)
    as (s & w1 & evs & Lp & G1 & CL).
  unfold p in Lp. rewrite Lp.
  unfold ensure_stopped, truthy. cbn [stop_var with_status]. rewrite Hs.
  destruct (h_truthy hs) eqn:T.
  - destruct (write_quiet L "stop_var" hs 1 w1) as (w2 & -> & [G2 _]);
      [exact (grows_quiet _ _ _ G1 Qf) |].
    pose proof (grows_trans _ _ _ _ _ G1 G2) as G.
    unfold set_status. cbn [fst snd with_status].
    rewrite (is_set_uncancelled w2) by (now rewrite (grows_cancel _ _ _ G)).
    eexists _, evs, (now w1). split; [reflexivity |].
    split; [exact CL |].
    cbn [now emit log].
    split; [exact (grows_now _ _ _ G2) |].
    split; [discriminate |].
    rewrite (grows_log _ _ _ G), <- !app_assoc. reflexivity.
  - unfold set_status. cbn [fst snd with_status].
    rewrite (is_set_uncancelled w1) by (now rewrite (grows_cancel _ _ _ G1)).
    eexists _, evs, (now w1). split; [reflexivity |].
    split; [exact CL |].
    cbn [now emit log app].
    split; [lia |]. split; [reflexivity |].
    rewrite (grows_log _ _ _ G1), <- !app_assoc. reflexivity.
Qed.

End Uncancelled.

Lemma cycles_log_actions (L : Z) (rpm run_t stop_t : float) (cycles cnt : Z)
    (hc hr hs : handle) (t t' : Z) (ns : list Z) (evs : list event) :
  cycles_log L rpm run_t stop_t cycles cnt hc hr hs t ns evs t' ->
  actions evs = List.concat (map (cycle_actions rpm cycles cnt hc hr hs) ns).
Proof.
  induction 1 as [| t n ns t1 t2 t3 t4 t5 evs t6 _ _ _ _ _ _ IH]; [reflexivity |].
  unfold actions in *. cbn [map action_of List.concat cycle_actions app].
  now rewrite IH.
Qed.



(* ===================================================================== *)
(** ** The claims about the worker *)







Lemma range_cons (a b : Z) : a < b -> range a b = a :: range (a + 1) b.
Proof.
  intros H. unfold range.
  replace (Z.to_nat (b - a)) with (S (Z.to_nat (b - (a + 1)))) by lia.
  cbn [seq map]. f_equal; [lia |].
  rewrite <- seq_shift, map_map. apply map_ext. intros i. lia.
Qed.

(** With a run time of [inf], the first RUN phase of a run that nobody
    cancels has no end. *)
Lemma run_forever (fuel : nat) (g : MotorGUI) (w : World)
    (rpm scale stop_t : float) (cycles cnt : Z) (hc hr : handle) :
  params g = Some (rpm, scale, S754_infinity false, stop_t, cycles) ->
  0 < cycles ->
  toCounts rpm scale = Ok cnt ->
  cmd_var g = Var hc -> run_var g = Var hr ->
  cancel_at w = None -> quiet (faults w) ->
  _run_sequence fuel (g, w) = None.
Proof.
  intros Hp Hcy Hc H1 H2 Hn Hf.
  unfold _run_sequence. cbn [fst]. rewrite Hp. cbn [getattr]. rewrite Hc.
  rewrite range_cons by lia. cbn [for_cycles].
  unfold cycle, is_set. cbn [snd]. rewrite Hn. unfold set_status.
  cbn [fst snd with_status cmd_var run_var]. rewrite H1, H2.
  pose proof (grows_emit w (Status (now w)
                (run_msg 1 cycles rpm))) as G1.
  destruct (write_quiet 0 "cmd_var" hc cnt _ (grows_quiet _ _ _ G1 Hf))
    as (w2 & -> & [G2 _]).
  pose proof (grows_trans _ _ _ _ _ G1 G2) as G12.
  destruct (write_quiet 0 "run_var" hr 1 _ (grows_quiet _ _ _ G12 Hf))
    as (w3 & -> & [G3 _]).
  pose proof (grows_trans _ _ _ _ _ G12 G3) as G123.
  rewrite wait_forever; [reflexivity |].
  now rewrite (grows_cancel _ _ _ G123).
Qed.

(** C3, as the code has it.  Three iterations, run and stop times that
    are not infinite, a speed that converts to a count, the three
    attributes holding variables, nobody cancels, no write raises: the
    run returns in the state "Done", and what it did is, in this order,
    three times (status RUN n/3, command count, run request, status STOP
    n/3, stop request) for n = 1, 2, 3, then the stop request once more
    if the variable object is true, the final status and the button
    reset. *)
Theorem three_cycles_complete
    (fuel : nat) (g : MotorGUI) (w : World)
    (rpm scale run_t stop_t : float) (cnt : Z) (hc hr hs : handle) :
  params g = Some (rpm, scale, run_t, stop_t, 3) ->
  toCounts rpm scale = Ok cnt ->
  cmd_var g = Var hc -> run_var g = Var hr -> stop_var g = Var hs ->
  ends run_t = true -> ends stop_t = true ->
  cancel_at w = None -> quiet (faults w) ->
  (turns run_t <= fuel)%nat ->
  (turns stop_t <= fuel)%nat ->
  exists w' evs,
    _run_sequence fuel (g, w) = Some (Ok tt, (with_status DONE g, w')) /\
    log w' = log w ++ evs /\
    actions evs =
    [Shown (run_msg 1 3 rpm); Wrote hc cnt; Wrote hr 1;
     Shown (stop_msg 1 3); Wrote hs 1;
     Shown (run_msg 2 3 rpm); Wrote hc cnt; Wrote hr 1;
     Shown (stop_msg 2 3); Wrote hs 1;
     Shown (run_msg 3 3 rpm); Wrote hc cnt; Wrote hr 1;
     Shown (stop_msg 3 3); Wrote hs 1]
    ++ (if h_truthy hs then [Wrote hs 1] else [])
    ++ [Shown DONE; Scheduled 0 cb_reset_buttons].
Proof.
  intros Hp Hcnt Hc Hr Hs Er Es Hcan Q Hfr Hfs.
  destruct (run_uncancelled (longest w) rpm scale run_t stop_t 3 cnt hc hr hs fuel
              Er Es Hfr Hfs g w Hp Hcnt Hc Hr Hs Hcan Q (sleeps_within_longest w))
    as (w' & evs & t & H & CL & _ & _ & Lg).
  eexists w', _. split; [exact H |]. split; [exact Lg |].
  unfold actions in *. rewrite !map_app.
  fold (actions evs). rewrite (cycles_log_actions _ _ _ _ _ _ _ _ _ _ _ _ _ CL).
  change (range 1 (3 + 1)) with [1; 2; 3].
  now destruct (h_truthy hs).
Qed.

(** C3, as stated, fails.  A sequence started with three iterations and
    a run time of [inf], which [_start_seq] accepts, never gets out of its
    first RUN phase; one started with the speed [nan] dies of the
    conversion before it wrote anything; one whose first write raises
    dies there; and one whose stop request variable was not found in the
    ELF file (the attribute holds [None]) dies of the [AttributeError] in
    its first STOP phase, the motor running. *)
Lemma three_iterations_need_not_complete :
  (read_params lit_float_ext lit_int
     (typed "motor.elf" "COM3" "1500" "0.19913" "inf" "50" "3" (idle_gui false "1500"))
   = Ok (decimal 1500 0, decimal 19913 5, S754_infinity false, decimal 50 0, 3) /\
   ~ exists fuel x,
       _run_sequence fuel
         (running_gui false (decimal 1500 0, decimal 19913 5, S754_infinity false,
                             decimal 50 0, 3),
          running_world None [] []) = Some x) /\
  (read_params lit_float_ext lit_int
     (typed "motor.elf" "COM3" "nan" "0.19913" "10" "50" "3" (idle_gui false "1500"))
   = Ok (S754_nan, decimal 19913 5, decimal 10 0, decimal 50 0, 3) /\
   let gw := (running_gui false (S754_nan, decimal 19913 5, decimal 10 0,
                                 decimal 50 0, 3),
              running_world None [] []) in
   _run_sequence 1001 gw = Some (Raise ValueError, gw)) /\
  (exists g' w',
     _run_sequence 1001
       (running_gui false (default_params 3),
        running_world None [(0%nat, Some (LinkError "link down"))] [])
     = Some (Raise (LinkError "link down"), (g', w')) /\
     writes (log w') = []) /\
  (exists g' w',
     _run_sequence 1001
       (set_stop_var PyNone (running_gui false (default_params 3)),
        running_world None [] [])
     = Some (Raise (none_has_no "set_value"), (g', w')) /\
     writes (log w') = [(mkHandle VELOCITY_CMD false, 7533);
                        (mkHandle RUN_REQ_VAR false, 1)]).
Proof.
  split; [| split; [| split]].
  - split; [vm_compute; reflexivity |].
    intros (fuel & x & H).
    rewrite (run_forever fuel _ _ (decimal 1500 0) (decimal 19913 5) (decimal 50 0)
               3 7533 (mkHandle VELOCITY_CMD false) (mkHandle RUN_REQ_VAR false))
      in H; try reflexivity; try discriminate.
    apply Forall_nil.
  - split; vm_compute; reflexivity.
  - eexists _, _. split; vm_compute; reflexivity.
  - eexists _, _. split; vm_compute; reflexivity.
Qed.

(** On the default parameters: 1500 RPM at 0.19913 RPM per count, 10 s
    on, 50 s off, three times, with variable objects that are false. *)
Lemma three_cycles_complete_witness :
  let g := running_gui false (default_params 3) in
  let w := running_world None [] [] in
  let rpm := decimal 1500 0 in
  let hc := mkHandle VELOCITY_CMD false in
  let hr := mkHandle RUN_REQ_VAR false in
  let hs := mkHandle STOP_REQ_VAR false in
  exists w' evs,
    _run_sequence 1001 (g, w) = Some (Ok tt, (with_status DONE g, w')) /\
    log w' = log w ++ evs /\
    actions evs =
    [Shown (run_msg 1 3 rpm); Wrote hc 7533; Wrote hr 1;
     Shown (stop_msg 1 3); Wrote hs 1;
     Shown (run_msg 2 3 rpm); Wrote hc 7533; Wrote hr 1;
     Shown (stop_msg 2 3); Wrote hs 1;
     Shown (run_msg 3 3 rpm); Wrote hc 7533; Wrote hr 1;
     Shown (stop_msg 3 3); Wrote hs 1]
    ++ []
    ++ [Shown DONE; Scheduled 0 cb_reset_buttons].
Proof.
  apply (three_cycles_complete 1001
           (running_gui false (default_params 3)) (running_world None [] [])
           (decimal 1500 0) (decimal 19913 5) (decimal 10 0) (decimal 50 0)
           7533 (mkHandle VELOCITY_CMD false) (mkHandle RUN_REQ_VAR false)
           (mkHandle STOP_REQ_VAR false));
    try reflexivity; try (vm_compute; reflexivity);
    try (apply Forall_nil);
    change (turns (decimal 10 0)) with 201%nat;
    change (turns (decimal 50 0)) with 1001%nat; lia.
Defined.

Lemma phase_ev_not_failed (c : option Z) (pre : list event) (t : Z) (h : handle) (v : Z) :
  Forall (phase_ev c) pre -> ~ In (WriteFailed t h v) pre.
Proof.
  intros P Hin. rewrite Forall_forall in P. apply P in Hin. inversion Hin.
Qed.

(** C5, as the code has it.  When a [set_value] raises during a run, the
    run dies of that exception and the failed write is the last thing it
    did: before it come phase events only, so there is no second try, no
    stop request after the failure, no final status line and no button
    reset; the status line stays what the last phase made it. *)
Theorem failed_write_is_last
    (fuel : nat) (g g' : MotorGUI) (w w' : World) (r : res unit)
    (evs : list event) (t : Z) (h : handle) (v : Z) :
  _run_sequence fuel (g, w) = Some (r, (g', w')) ->
  log w' = log w ++ evs ->
  In (WriteFailed t h v) evs ->
  (exists e, r = Raise e) /\
  exists pre,
    evs = pre ++ [WriteFailed t h v] /\
    Forall (phase_ev (cancel_at w)) pre /\
    status g' = last_status (status g) pre.
Proof.
  intros H Lg Hin.
  apply (run_spec (longest w)) in H as (evs' & G & X);
    [| apply sleeps_within_longest].
  destruct G as (L' & _). rewrite L' in Lg. apply app_inv_head in Lg. subst evs'.
  destruct r as [[] | e].
  - exfalso. destruct X as (pre & w1 & P & -> & _).
    apply in_app_or in Hin as [Hin | Hin].
    + exact (phase_ev_not_failed _ _ _ _ _ P Hin).
    + unfold final_events, stop_event in Hin.
      destruct (stop_var g) as [| | hs]; [| | destruct (h_truthy hs)]; cbn in Hin;
        repeat (destruct Hin as [Hin | Hin]; [discriminate |]); exact Hin.
  - split; [eauto |].
    destruct X as (-> & [[-> _] | (pre & P & [[-> _] | (h' & v' & d & -> & _)])]).
    + destruct Hin.
    + exfalso. exact (phase_ev_not_failed _ _ _ _ _ P Hin).
    + apply in_app_or in Hin as [Hin | Hin].
      * exfalso. exact (phase_ev_not_failed _ _ _ _ _ P Hin).
      * destruct Hin as [Hin | []]. injection Hin as <- <- <-.
        exists pre. split; [reflexivity |]. split; [exact P |].
        rewrite last_status_app. reflexivity.
Qed.

(** C5, as stated, fails: the first write of a run raises; the run dies
    of the exception, the status line is not "Stopped by user" and no
    write to the stop request was tried. *)
Lemma failed_write_leaves_no_stop_request :
  exists e g' w',
    _run_sequence 1001
      (running_gui true (default_params 1),
       running_world None [(0%nat, Some (LinkError "link down"))] [])
    = Some (Raise e, (g', w')) /\
    status g' <> STOPPED_BY_USER /\
    ~ stop_attempted (log w').
Proof.
  eexists _, _, _. split; [vm_compute; reflexivity |].
  split; [discriminate |].
  intros (t & h & P & [H | H]); cbn in H;
    repeat (destruct H as [H | H];
            [try discriminate; injection H as <- <-; discriminate P |]);
    exact H.
Qed.

(** On the default parameters with one iteration, the link going down at
    the first write. *)
Lemma failed_write_is_last_witness :
  let hc := mkHandle VELOCITY_CMD true in
  (exists e, @Raise unit (LinkError "link down") = Raise e) /\
  exists pre,
    [Status 0 "Cycle 1/1: RUN @ 1500 RPM";
     WriteFailed 0 hc 7533]
    = pre ++ [WriteFailed 0 hc 7533] /\
    Forall (phase_ev None) pre /\
    "Cycle 1/1: RUN @ 1500 RPM"
    = last_status "Connected (COM3)" pre.
Proof.
  apply (failed_write_is_last 1001
           (running_gui true (default_params 1))
           (with_status "Cycle 1/1: RUN @ 1500 RPM"
              (running_gui true (default_params 1)))
           (running_world None [(0%nat, Some (LinkError "link down"))] [])
           (mkWorld 0 None [] [] [0%nat] 1
              [Status 0 "Cycle 1/1: RUN @ 1500 RPM";
               WriteFailed 0 (mkHandle VELOCITY_CMD true) 7533])).
  - vm_compute. reflexivity.
  - reflexivity.
  - right. left. reflexivity.
Defined.

(** C6, as stated, fails: 1500 RPM at 0.19913 RPM per count is not 7536
    counts. *)
Lemma count_is_not_7536 :
  toCounts (decimal 1500 0) (decimal 19913 5) <> Ok 7536.
Proof. vm_compute. discriminate. Qed.

(** C6, as the code has it: the count is 7533; and with run 10 s, stop
    50 s and one iteration, in a run that nobody cancels and whose writes
    go through, the worker writes 7533 to the command speed and 1 to the
    run request, waits 10 s (and less than one sleep more), writes 1 to
    the stop request, waits 50 s (and less than one sleep more), and ends
    in the state "Done", having written the stop request once more if the
    variable object is true. *)
Theorem scenario_1500_rpm
    (fuel : nat) (g : MotorGUI) (w : World) (hc hr hs : handle) :
  params g = Some (default_params 1) ->
  cmd_var g = Var hc -> run_var g = Var hr -> stop_var g = Var hs ->
  cancel_at w = None -> quiet (faults w) ->
  (1000 < fuel)%nat ->
  toCounts (decimal 1500 0) (decimal 19913 5) = Ok 7533 /\
  exists w' t1 t2 t3 t4 t5,
    _run_sequence fuel (g, w) = Some (Ok tt, (with_status DONE g, w')) /\
    log w' =
    log w
    ++ [Status (now w) "Cycle 1/1: RUN @ 1500 RPM";
        Write t1 hc 7533;
        Write t2 hr 1;
        Status t3 "Cycle 1/1: STOP";
        Write t4 hs 1]
    ++ (if h_truthy hs then [Write (now w') hs 1] else [])
    ++ [Status (now w') DONE;
        After (now w') 0 cb_reset_buttons] /\
    now w <= t1 /\ t1 <= t2 /\
    t2 + 10 * SECOND <= t3 < t2 + 10 * SECOND + longest w /\
    t3 <= t4 /\
    t4 + 50 * SECOND <= t5 < t4 + 50 * SECOND + longest w /\
    t5 <= now w' /\ (h_truthy hs = false -> t5 = now w').
Proof.
  intros Hp Hc Hr Hs Hcan Q Hfuel.
  assert (Hcnt : toCounts (decimal 1500 0) (decimal 19913 5) = Ok 7533)
    by (vm_compute; reflexivity).
  assert (Ur : units (decimal 10 0) = 10 * SECOND) by (vm_compute; reflexivity).
  assert (Us : units (decimal 50 0) = 50 * SECOND) by (vm_compute; reflexivity).
  assert (Tr : turns (decimal 10 0) = 201%nat) by (vm_compute; reflexivity).
  assert (Ts : turns (decimal 50 0) = 1001%nat) by (vm_compute; reflexivity).
  split; [exact Hcnt |].
  destruct (run_uncancelled (longest w) (decimal 1500 0) (decimal 19913 5)
              (decimal 10 0) (decimal 50 0) 1 7533 hc hr hs fuel
              eq_refl eq_refl ltac:(rewrite Tr; lia) ltac:(rewrite Ts; lia)
              g w Hp Hcnt Hc Hr Hs Hcan Q (sleeps_within_longest w))
    as (w' & evs & t & H & CL & Tn & Tf & Lg).
  change (range 1 (1 + 1)) with [1] in CL.
  inversion CL as [| ? ? ? t1 t2 t3 t4 t5 evs' t6 A B X C Y CL']; subst.
  inversion CL'; subst.
  unfold waited in X, Y. rewrite Ur in X. rewrite Us in Y.
  exists w', t1, t2, t3, t4, t.
  split; [exact H |].
  split; [rewrite Lg; reflexivity |].
  repeat split; try assumption; try lia.
Qed.

(** From the state [_start_seq] leaves at time 0, with variable objects
    that are false. *)
Lemma scenario_1500_rpm_witness :
  let g := running_gui false (default_params 1) in
  let w := running_world None [] [] in
  let hc := mkHandle VELOCITY_CMD false in
  let hr := mkHandle RUN_REQ_VAR false in
  let hs := mkHandle STOP_REQ_VAR false in
  toCounts (decimal 1500 0) (decimal 19913 5) = Ok 7533 /\
  exists w' t1 t2 t3 t4 t5,
    _run_sequence 1001 (g, w) = Some (Ok tt, (with_status DONE g, w')) /\
    log w' =
    log w
    ++ [Status (now w) "Cycle 1/1: RUN @ 1500 RPM";
        Write t1 hc 7533;
        Write t2 hr 1;
        Status t3 "Cycle 1/1: STOP";
        Write t4 hs 1]
    ++ []
    ++ [Status (now w') DONE;
        After (now w') 0 cb_reset_buttons] /\
    now w <= t1 /\ t1 <= t2 /\
    t2 + 10 * SECOND <= t3 < t2 + 10 * SECOND + longest w /\
    t3 <= t4 /\
    t4 + 50 * SECOND <= t5 < t4 + 50 * SECOND + longest w /\
    t5 <= now w' /\ (false = false -> t5 = now w').
Proof.
  apply (scenario_1500_rpm 1001
           (running_gui false (default_params 1)) (running_world None [] [])
           (mkHandle VELOCITY_CMD false) (mkHandle RUN_REQ_VAR false)
           (mkHandle STOP_REQ_VAR false));
    try reflexivity; try (apply Forall_nil). lia.
Defined.

(* ===================================================================== *)
(** ** Binary64 arithmetic: the value of a float and the error of one
       rounding *)

Section Bpow.

Local Open Scope R_scope.

Lemma bpow_gt_0 (e : Z) : 0 < bpow e.
Proof. apply powerRZ_lt. lra. Qed.

Lemma bpow_add (a b : Z) : bpow (a + b) = bpow a * bpow b.
Proof. apply powerRZ_add. lra. Qed.

Lemma bpow_0 : bpow 0 = 1.
Proof. reflexivity. Qed.

Lemma bpow_1 : bpow 1 = 2.
Proof. unfold bpow, powerRZ. simpl. lra. Qed.

Lemma bpow_opp (e : Z) : bpow (- e) = / bpow e.
Proof.
  assert (H : bpow (- e) * bpow e = 1).
  { rewrite <- bpow_add. replace (- e + e)%Z with 0%Z by lia. apply bpow_0. }
  pose proof (bpow_gt_0 e). apply Rmult_eq_reg_r with (bpow e); [| lra].
  rewrite H. field. lra.
Qed.

Lemma bpow_m1 : bpow (-1) = / 2.
Proof. change (-1)%Z with (- (1))%Z. rewrite bpow_opp, bpow_1. reflexivity. Qed.

Lemma bpow_IZR (n : Z) : (0 <= n)%Z -> bpow n = IZR (2 ^ n).
Proof.
  intros H. unfold bpow. destruct n as [| p | p]; [reflexivity | | lia].
  cbn [powerRZ]. rewrite <- (positive_nat_Z p), <- pow_IZR. reflexivity.
Qed.

Lemma bpow_ge_1 (n : Z) : (0 <= n)%Z -> 1 <= bpow n.
Proof.
  intros H. rewrite bpow_IZR by exact H. apply IZR_le.
  assert (0 < 2 ^ n)%Z by (apply Z.pow_pos_nonneg; lia). lia.
Qed.

Lemma bpow_le (a b : Z) : (a <= b)%Z -> bpow a <= bpow b.
Proof.
  intros H. replace b with (a + (b - a))%Z by lia. rewrite bpow_add.
  pose proof (bpow_ge_1 (b - a) ltac:(lia)). pose proof (bpow_gt_0 a). nra.
Qed.

Lemma bpow_lt (a b : Z) : (a < b)%Z -> bpow a < bpow b.
Proof.
  intros H. replace b with (a + 1 + (b - a - 1))%Z by lia.
  rewrite !bpow_add, bpow_1.
  pose proof (bpow_ge_1 (b - a - 1) ltac:(lia)). pose proof (bpow_gt_0 a). nra.
Qed.

End Bpow.

Lemma digits2_pos_bounds (p : positive) :
  2 ^ (Z.pos (digits2_pos p) - 1) <= Z.pos p < 2 ^ Z.pos (digits2_pos p).
Proof.
  induction p as [p IH | p IH |]; cbn [digits2_pos].
  - rewrite Pos2Z.inj_succ.
    replace (Z.succ (Z.pos (digits2_pos p)) - 1) with (Z.pos (digits2_pos p) - 1 + 1) by lia.
    rewrite Z.pow_succ_r, Z.pow_add_r by lia. change (2 ^ 1) with 2. lia.
  - rewrite Pos2Z.inj_succ.
    replace (Z.succ (Z.pos (digits2_pos p)) - 1) with (Z.pos (digits2_pos p) - 1 + 1) by lia.
    rewrite Z.pow_succ_r, Z.pow_add_r by lia. change (2 ^ 1) with 2. lia.
  - cbn. lia.
Qed.

Section Shift.

Local Open Scope R_scope.

Lemma IZR_xO (p : positive) : IZR (Z.pos p~0) = 2 * IZR (Z.pos p).
Proof. rewrite Pos2Z.inj_xO, mult_IZR. reflexivity. Qed.

Lemma IZR_xI (p : positive) : IZR (Z.pos p~1) = 2 * IZR (Z.pos p) + 1.
Proof. rewrite Pos2Z.inj_xI, plus_IZR, mult_IZR. reflexivity. Qed.

(** One step to the right halves the real. *)
Lemma shr_1_rep (mrs : shr_record) (v : R) :
  rep mrs v -> rep (shr_1 mrs) (v / 2).
Proof.
  destruct mrs as [m r s]. unfold rep. cbn [shr_m shr_r shr_s].
  intros [Hm H].
  destruct m as [| p | p]; [| | lia].
  - cbn [shr_1 shr_m shr_r shr_s]. split; [lia |].
    destruct r, s; cbn [orb]; lra.
  - destruct p as [p | p |]; cbn [shr_1 shr_m shr_r shr_s];
      (split; [lia |]);
      [rewrite (IZR_xI p) in H | rewrite (IZR_xO p) in H |];
      destruct r, s; cbn [orb]; lra.
Qed.

Lemma iter_pos_shr_1_rep (p : positive) :
  forall (mrs : shr_record) (v : R),
    rep mrs v -> rep (SpecFloat.iter_pos shr_1 p mrs) (v * bpow (- Z.pos p)).
Proof.
  induction p as [p IH | p IH |]; intros mrs v H; cbn [SpecFloat.iter_pos].
  - apply shr_1_rep in H. apply IH in H. apply IH in H.
    replace (v * bpow (- Z.pos p~1))
      with (v / 2 * bpow (- Z.pos p) * bpow (- Z.pos p)); [exact H |].
    rewrite Pos2Z.inj_xI.
    replace (- (2 * Z.pos p + 1))%Z with (-1 + (- Z.pos p + - Z.pos p))%Z by lia.
    rewrite !bpow_add, bpow_m1. field.
  - apply IH in H. apply IH in H.
    replace (v * bpow (- Z.pos p~0))
      with (v * bpow (- Z.pos p) * bpow (- Z.pos p)); [exact H |].
    rewrite Pos2Z.inj_xO.
    replace (- (2 * Z.pos p))%Z with (- Z.pos p + - Z.pos p)%Z by lia.
    rewrite !bpow_add. ring.
  - apply shr_1_rep in H. change (- Z.pos 1)%Z with (-1)%Z.
    rewrite bpow_m1. exact H.
Qed.

(** A shift by [n] (none when [n <= 0]) divides the real by [2^n] and adds
    [n] to the exponent. *)
Lemma shr_rep (mrs : shr_record) (e n : Z) (v : R) :
  rep mrs v ->
  rep (fst (shr mrs e n)) (v * bpow (- Z.max 0 n)) /\
  snd (shr mrs e n) = (e + Z.max 0 n)%Z.
Proof.
  intros H. destruct n as [| p | p]; cbn [shr fst snd].
  - rewrite Z.max_id, Z.add_0_r. cbn [Z.opp]. rewrite bpow_0, Rmult_1_r. tauto.
  - rewrite Z.max_r by lia. split; [now apply iter_pos_shr_1_rep | reflexivity].
  - rewrite Z.max_l by lia. rewrite Z.add_0_r. cbn [Z.opp].
    rewrite bpow_0, Rmult_1_r. tauto.
Qed.

Lemma rep_of_loc_exact (m : Z) :
  (0 <= m)%Z -> rep (shr_record_of_loc m loc_Exact) (IZR m).
Proof. intros H. split; [exact H | reflexivity]. Qed.

(** Rounding to nearest: at most a half away, and exact on an integer. *)
Lemma round_nearest_even_rep (mrs : shr_record) (v : R) :
  rep mrs v ->
  forall z : Z,
    z = round_nearest_even (shr_m mrs) (loc_of_shr_record mrs) ->
    (shr_m mrs <= z <= shr_m mrs + 1)%Z /\
    Rabs (IZR z - v) <= / 2 /\
    (forall k : Z, v = IZR k -> z = k).
Proof.
  destruct mrs as [m r s]. unfold rep. cbn [shr_m shr_r shr_s loc_of_shr_record].
  intros [Hm H] z Hz.
  assert (Hint : forall k : Z, IZR m < IZR k < IZR m + 1 -> False).
  { intros k [H1 H2]. apply lt_IZR in H1.
    rewrite <- (plus_IZR m 1) in H2. apply lt_IZR in H2. lia. }
  destruct r, s; cbn [round_nearest_even] in Hz; subst z.
  - rewrite plus_IZR. split; [lia |]. split.
    + apply Rabs_le. lra.
    + intros k ->. exfalso. apply (Hint k). lra.
  - destruct (Z.even m).
    + split; [lia |]. split; [apply Rabs_le; lra |].
      intros k ->. exfalso. apply (Hint k). lra.
    + rewrite plus_IZR. split; [lia |]. split; [apply Rabs_le; lra |].
      intros k ->. exfalso. apply (Hint k). lra.
  - split; [lia |]. split; [apply Rabs_le; lra |].
    intros k ->. exfalso. apply (Hint k). lra.
  - split; [lia |]. split; [apply Rabs_le; lra |].
    intros k E. apply eq_IZR. lra.
Qed.

End Shift.

Section RoundAux.

Local Open Scope R_scope.

Lemma rep_bounds (mrs : shr_record) (v : R) :
  rep mrs v -> IZR (shr_m mrs) <= v < IZR (shr_m mrs) + 1.
Proof.
  destruct mrs as [m r s]. unfold rep. cbn [shr_m shr_r shr_s].
  intros [_ H]. destruct r, s; lra.
Qed.

Lemma rep_loc_bounds (m : Z) (l : location) (v : R) :
  rep (shr_record_of_loc m l) v -> IZR m <= v < IZR m + 1.
Proof.
  intros H. apply rep_bounds in H. destruct l as [| []]; exact H.
Qed.

Lemma between_integers (a k : Z) : IZR a < IZR k < IZR a + 1 -> False.
Proof.
  intros [H1 H2]. apply lt_IZR in H1.
  rewrite <- (plus_IZR a 1) in H2. apply lt_IZR in H2. lia.
Qed.

(** A record that stands for an integer has it as its mantissa. *)
Lemma rep_int (mrs : shr_record) (k : Z) :
  rep mrs (IZR k) -> shr_m mrs = k.
Proof.
  destruct mrs as [m r s]. unfold rep. cbn [shr_m shr_r shr_s].
  intros [_ H]. destruct r, s.
  - exfalso. apply (between_integers m k). lra.
  - exfalso.
    assert (E : IZR (2 * k) = IZR (2 * m + 1)).
    { rewrite plus_IZR, !mult_IZR. lra. }
    apply eq_IZR in E. lia.
  - exfalso. apply (between_integers m k). lra.
  - symmetry. now apply eq_IZR.
Qed.

Lemma fexp_eq (e : Z) : fexp prec emax e = Z.max (e - 53) (-1074).
Proof. reflexivity. Qed.

Lemma Zdigits2_le_54 (z : Z) :
  (0 <= z <= 2 ^ 53)%Z ->
  (Zdigits2 z <= 54)%Z /\ (Zdigits2 z = 54 -> z = 2 ^ 53)%Z.
Proof.
  intros [H0 H1]. destruct z as [| p | p]; [cbn; lia | | lia].
  cbn [Zdigits2]. pose proof (digits2_pos_bounds p) as [L U].
  assert (D : (Z.pos (digits2_pos p) <= 54)%Z).
  { destruct (Z_le_gt_dec (Z.pos (digits2_pos p)) 54) as [|G]; [assumption |].
    exfalso.
    assert (2 ^ 54 <= 2 ^ (Z.pos (digits2_pos p) - 1))%Z
      by (apply Z.pow_le_mono_r; lia).
    assert (2 ^ 53 < 2 ^ 54)%Z by (apply Z.pow_lt_mono_r; lia). lia. }
  split; [exact D |]. intros E. rewrite E in L. change (54 - 1)%Z with 53%Z in L. lia.
Qed.

(** The rounding that ends every operation: with [v] the exact mantissa
    at exponent [ex], the result is the integer [z] nearest to [v / 2^n]
    at exponent [ex + n], where [n] is the shift to the format. *)
Lemma binary_round_aux_spec
    (sx : bool) (mx : positive) (ex : Z) (lx : location) (v : R) :
  rep (shr_record_of_loc (Z.pos mx) lx) v ->
  forall n : Z,
    n = Z.max 0 (fexp prec emax (Z.pos (digits2_pos mx) + ex) - ex) ->
    exists z : Z,
      (0 <= z)%Z /\
      Rabs (IZR z - v * bpow (- n)) <= / 2 /\
      (forall k : Z, v * bpow (- n) = IZR k -> z = k) /\
      match binary_round_aux prec emax sx (Z.pos mx) ex lx with
      | S754_zero s => s = sx /\ z = 0%Z
      | S754_finite s m e =>
          s = sx /\ IZR (Z.pos m) * bpow e = IZR z * bpow (ex + n)
      | S754_infinity s => s = sx /\ (emax - prec <= ex + n)%Z
      | S754_nan => False
      end.
Proof.
  intros Hrep n Hn.
  unfold binary_round_aux, shr_fexp. cbn [Zdigits2].
  set (n0 := (fexp prec emax (Z.pos (digits2_pos mx) + ex) - ex)%Z) in *.
  destruct (shr_rep _ ex n0 v Hrep) as [R1 E1].
  destruct (shr (shr_record_of_loc (Z.pos mx) lx) ex n0) as [mrs' e'].
  cbn [fst snd] in R1, E1. rewrite <- Hn in R1, E1. subst e'.
  set (z := round_nearest_even (shr_m mrs') (loc_of_shr_record mrs')).
  destruct (round_nearest_even_rep mrs' _ R1 z eq_refl) as (Z1 & Z2 & Z3).
  assert (Hm' : (0 <= shr_m mrs')%Z) by apply R1.
  assert (Hz0 : (0 <= z)%Z) by lia.
  (* the size of [z] *)
  pose proof (digits2_pos_bounds mx) as [DL DU].
  set (d := Z.pos (digits2_pos mx)) in *.
  assert (Hn53 : (d - 53 <= n)%Z).
  { subst n n0. rewrite fexp_eq. lia. }
  assert (Hnmin : (-1074 <= ex + n)%Z).
  { subst n n0. rewrite fexp_eq. lia. }
  assert (Hn0 : (0 <= n)%Z) by (subst n; lia).
  assert (Hz53 : (z <= 2 ^ 53)%Z).
  { assert (Hlt : IZR (shr_m mrs') < IZR (2 ^ 53)).
    { apply rep_bounds in R1. apply rep_loc_bounds in Hrep.
      apply Rle_lt_trans with (v * bpow (- n)); [apply R1 |].
      rewrite <- bpow_IZR by lia.
      assert (v < bpow d).
      { rewrite bpow_IZR by (unfold d; lia).
        apply Rlt_le_trans with (IZR (Z.pos mx) + 1); [apply Hrep |].
        rewrite <- (plus_IZR _ 1). apply IZR_le. lia. }
      assert (bpow d * bpow (- n) <= bpow 53).
      { rewrite <- bpow_add. apply bpow_le. lia. }
      pose proof (bpow_gt_0 (- n)). nra. }
    apply lt_IZR in Hlt. lia. }
  destruct (Zdigits2_le_54 z (conj Hz0 Hz53)) as [Dz Dz'].
  set (k := (fexp prec emax (Zdigits2 z + (ex + n)) - (ex + n))%Z).
  assert (Hk : (k <= 0)%Z \/ (k = 1%Z /\ z = (2 ^ 53)%Z)).
  { unfold k. rewrite fexp_eq.
    destruct (Z.eq_dec (Zdigits2 z) 54) as [E | NE].
    - right. split; [lia | auto].
    - left. lia. }
  destruct (shr_rep (shr_record_of_loc z loc_Exact) (ex + n) k (IZR z)
              (rep_of_loc_exact z Hz0)) as [R2 E2].
  destruct (shr (shr_record_of_loc z loc_Exact) (ex + n) k) as [mrs'' e''].
  cbn [fst snd] in R2, E2. subst e''.
  exists z. split; [exact Hz0 |]. split; [exact Z2 |]. split; [exact Z3 |].
  destruct Hk as [Hk | [Hk Hz]].
  - rewrite Z.max_l in R2 |- * by lia.
    cbn [Z.opp] in R2. rewrite bpow_0, Rmult_1_r in R2.
    apply rep_int in R2. rewrite R2, Z.add_0_r.
    destruct z as [| p | p]; [tauto | | lia].
    destruct (Z.leb_spec (ex + n) (emax - prec)); [tauto |].
    split; [reflexivity | lia].
  - rewrite Hk in R2 |- *. rewrite Z.max_r in R2 |- * by lia.
    assert (R2' : rep mrs'' (IZR (2 ^ 52))).
    { replace (IZR (2 ^ 52)) with (IZR z * bpow (- (1))); [exact R2 |].
      rewrite Hz. change (- (1))%Z with (-1)%Z. rewrite bpow_m1.
      change (2 ^ 53)%Z with (2 * 2 ^ 52)%Z. rewrite mult_IZR. field. }
    apply rep_int in R2'. rewrite R2'.
    change (2 ^ 52)%Z with (Z.pos (2 ^ 52)%positive).
    cbv iota. destruct (Z.leb_spec (ex + n + 1) (emax - prec)).
    + split; [reflexivity |]. rewrite Hz, bpow_add, bpow_1.
      change (2 ^ 53)%Z with (2 * 2 ^ 52)%Z. rewrite mult_IZR.
      change (Z.pos (2 ^ 52)%positive) with (2 ^ 52)%Z. ring.
    + split; [reflexivity | lia].
Qed.

End RoundAux.

Section Operations.

Local Open Scope R_scope.

Lemma iter_xO_value (m d : positive) :
  Z.pos (Pos.iter xO m d) = (Z.pos m * 2 ^ Z.pos d)%Z.
Proof.
  induction d as [| d IH] using Pos.peano_ind.
  - cbn [Pos.iter]. rewrite Pos2Z.inj_xO. change (2 ^ 1)%Z with 2%Z. lia.
  - rewrite Pos.iter_succ, Pos2Z.inj_xO, IH, Pos2Z.inj_succ, Z.pow_succ_r by lia.
    ring.
Qed.

Lemma iter_xO_digits (m d : positive) :
  digits2_pos (Pos.iter xO m d) = (digits2_pos m + d)%positive.
Proof.
  induction d as [| d IH] using Pos.peano_ind.
  - cbn [Pos.iter digits2_pos]. lia.
  - rewrite Pos.iter_succ. cbn [digits2_pos]. rewrite IH. lia.
Qed.

Lemma digits_le_53 (p : positive) :
  (Z.pos p < 2 ^ 53)%Z -> (Z.pos (digits2_pos p) <= 53)%Z.
Proof.
  intros H. pose proof (digits2_pos_bounds p) as [L _].
  destruct (Z_le_gt_dec (Z.pos (digits2_pos p)) 53) as [| G]; [assumption |].
  exfalso.
  assert (2 ^ 53 <= 2 ^ (Z.pos (digits2_pos p) - 1))%Z
    by (apply Z.pow_le_mono_r; lia).
  lia.
Qed.

(** [float(n)] is exact below [2^53]. *)
Lemma of_int_exact (c : Z) (x : float) :
  of_int c = Ok x ->
  (0 < Z.abs c < 2 ^ 53)%Z ->
  exists m e,
    x = S754_finite (c <? 0)%Z m e /\ IZR (Z.pos m) * bpow e = IZR (Z.abs c).
Proof.
  intros H Hc. unfold of_int in H.
  assert (G : forall (sx : bool) (p : positive),
             (Z.pos p < 2 ^ 53)%Z ->
             match binary_round prec emax sx p 0 with
             | S754_infinity _ => True
             | y => exists m e,
                 y = S754_finite sx m e /\ IZR (Z.pos m) * bpow e = IZR (Z.pos p)
             end).
  { intros sx p Hp. unfold binary_round.
    pose proof (digits_le_53 p Hp) as Hd.
    assert (Hd0 : (0 < Z.pos (digits2_pos p))%Z) by lia.
    rewrite Z.add_0_r, fexp_eq.
    set (d := Z.pos (digits2_pos p)) in *.
    rewrite Z.max_l by lia.
    unfold shl_align. rewrite Z.sub_0_r.
    assert (S : exists mz ez,
               (match (d - 53)%Z with
                | Z.neg k => (Pos.iter xO p k, (d - 53)%Z)
                | _ => (p, 0%Z)
                end) = (mz, ez) /\
               IZR (Z.pos mz) * bpow ez = IZR (Z.pos p) /\
               fexp prec emax (Z.pos (digits2_pos mz) + ez) = ez).
    { destruct (d - 53)%Z as [| k | k] eqn:E; [| lia |].
      - exists p, 0%Z. split; [reflexivity |]. rewrite bpow_0, Rmult_1_r.
        split; [reflexivity |]. rewrite fexp_eq. fold d. lia.
      - exists (Pos.iter xO p k), (Z.neg k). split; [reflexivity |]. split.
        + rewrite iter_xO_value, mult_IZR, <- bpow_IZR by lia.
          rewrite Rmult_assoc, <- bpow_add.
          replace (Z.pos k + Z.neg k)%Z with 0%Z by lia.
          rewrite bpow_0. ring.
        + rewrite fexp_eq, iter_xO_digits, Pos2Z.inj_add. fold d. lia. }
    destruct S as (mz & ez & -> & V & F).
    destruct (binary_round_aux_spec sx mz ez loc_Exact (IZR (Z.pos mz))
                (rep_of_loc_exact (Z.pos mz) (Pos2Z.is_nonneg mz)) 0%Z)
      as (z & _ & _ & Z3 & R).
    { rewrite F. lia. }
    cbn [Z.opp] in Z3. rewrite bpow_0, Rmult_1_r in Z3.
    specialize (Z3 _ eq_refl). subst z.
    destruct (binary_round_aux prec emax sx (Z.pos mz) ez loc_Exact) as [s | s | | s m e].
    - destruct R as [_ R]. discriminate.
    - exact I.
    - destruct R.
    - destruct R as [-> R]. exists m, e. split; [reflexivity |].
      rewrite R, Z.add_0_r. exact V. }
  destruct c as [| p | p]; [lia | |]; cbn [binary_normalize Z.abs Z.ltb Z.compare] in *.
  - specialize (G false p (proj2 Hc)).
    destruct (binary_round prec emax false p 0) as [s | s | | s m e];
      try discriminate; injection H as <-; exact G.
  - specialize (G true p (proj2 Hc)).
    destruct (binary_round prec emax true p 0) as [s | s | | s m e];
      try discriminate; injection H as <-; exact G.
Qed.

(** The location [SFdiv] computes for the quotient of [q * m2 + r] by
    [m2] is the place of that quotient between [q] and [q + 1]. *)
Lemma new_location_rep (m2 q r : Z) :
  (0 <= q)%Z -> (0 <= r < m2)%Z ->
  rep (shr_record_of_loc q (new_location m2 r)) (IZR (q * m2 + r) / IZR m2).
Proof.
  intros Hq Hr.
  assert (Hm2 : 0 < IZR m2) by (apply IZR_lt; lia).
  assert (Hv : IZR (q * m2 + r) / IZR m2 = IZR q + IZR r / IZR m2).
  { rewrite plus_IZR, mult_IZR. field. lra. }
  rewrite Hv.
  assert (Hr0 : 0 <= IZR r) by (apply IZR_le; lia).
  assert (Hlt : forall a b : Z, (a < b)%Z -> IZR a < IZR b) by (intros; now apply IZR_lt).
  assert (Hhalf : forall c : comparison,
             (2 * r ?= m2)%Z = c -> r <> 0%Z ->
             match c with
             | Lt => 0 < IZR r / IZR m2 < / 2
             | Eq => IZR r / IZR m2 = / 2
             | Gt => / 2 < IZR r / IZR m2 < 1
             end).
  { intros c Hc Hne.
    assert (0 < IZR r) by (apply IZR_lt; lia).
    assert (IZR r < IZR m2) by (apply IZR_lt; lia).
    assert (P : 0 < IZR r / IZR m2 < 1).
    { split; [apply Rdiv_lt_0_compat; lra |].
      apply Rmult_lt_reg_r with (IZR m2); [lra |]. unfold Rdiv.
      rewrite Rmult_assoc, Rinv_l; lra. }
    assert (T : IZR (2 * r) = 2 * IZR r) by (rewrite mult_IZR; reflexivity).
    destruct c.
    - apply Z.compare_eq in Hc.
      assert (IZR m2 = 2 * IZR r) by (rewrite <- T; f_equal; lia).
      apply Rmult_eq_reg_r with (IZR m2); [| lra]. unfold Rdiv.
      rewrite Rmult_assoc, Rinv_l; lra.
    - rewrite Z.compare_lt_iff in Hc. apply IZR_lt in Hc. rewrite T in Hc.
      split; [lra |].
      apply Rmult_lt_reg_r with (IZR m2); [lra |]. unfold Rdiv.
      rewrite Rmult_assoc, Rinv_l; lra.
    - rewrite Z.compare_gt_iff in Hc. apply IZR_lt in Hc. rewrite T in Hc.
      split; [| lra].
      apply Rmult_lt_reg_r with (IZR m2); [lra |]. unfold Rdiv.
      rewrite Rmult_assoc, Rinv_l; lra. }
  unfold new_location, new_location_even, new_location_odd.
  destruct (Z.eqb_spec r 0) as [-> | Hne].
  { destruct (Z.even m2); split; cbn; try lia; unfold Rdiv; lra. }
  assert (E0 : (r =? 0)%Z = false) by (apply Z.eqb_neq; exact Hne).
  destruct (Z.even m2) eqn:Ev; rewrite E0.
  - specialize (Hhalf _ eq_refl Hne).
    destruct (2 * r ?= m2)%Z; split; cbn; try lia; lra.
  - assert (Hodd : (2 * r <> m2)%Z).
    { intros E. rewrite <- E, Z.even_mul in Ev. discriminate. }
    destruct (2 * r + 1 ?= m2)%Z eqn:C.
    + apply Z.compare_eq in C.
      assert (C' : (2 * r ?= m2)%Z = Lt) by (apply Z.compare_lt_iff; lia).
      specialize (Hhalf _ C' Hne). split; cbn; try lia; lra.
    + rewrite Z.compare_lt_iff in C.
      assert (C' : (2 * r ?= m2)%Z = Lt) by (apply Z.compare_lt_iff; lia).
      specialize (Hhalf _ C' Hne). split; cbn; try lia; lra.
    + rewrite Z.compare_gt_iff in C.
      assert (C' : (2 * r ?= m2)%Z = Gt) by (apply Z.compare_gt_iff; lia).
      specialize (Hhalf _ C' Hne). split; cbn; try lia; lra.
Qed.

(** [round] is at most a half away from the float. *)
Lemma half_even_near (m : positive) (e : Z) :
  Rabs (IZR (half_even m e) - IZR (Z.pos m) * bpow e) <= / 2.
Proof.
  unfold half_even. destruct (Z.leb_spec 0 e) as [He | He].
  - rewrite mult_IZR, <- bpow_IZR by lia.
    replace (IZR (Z.pos m) * bpow e - IZR (Z.pos m) * bpow e) with 0 by ring.
    rewrite Rabs_R0. lra.
  - set (D := (2 ^ (- e))%Z).
    assert (HD : (0 < D)%Z) by (apply Z.pow_pos_nonneg; lia).
    pose proof (Z.div_mod (Z.pos m) D ltac:(lia)) as DM.
    pose proof (Z.mod_pos_bound (Z.pos m) D HD) as MB.
    set (q := (Z.pos m / D)%Z) in *. set (r := (Z.pos m mod D)%Z) in *.
    assert (HDr : 0 < IZR D) by (apply IZR_lt; lia).
    assert (Hb : bpow e = / IZR D).
    { unfold D. rewrite <- bpow_IZR by lia. rewrite bpow_opp.
      rewrite Rinv_inv. reflexivity. }
    assert (Hv : IZR (Z.pos m) * bpow e = IZR q + IZR r / IZR D).
    { rewrite Hb, DM, plus_IZR, mult_IZR. field. lra. }
    rewrite Hv.
    assert (Hr0 : 0 <= IZR r) by (apply IZR_le; lia).
    assert (Hr1 : IZR r < IZR D) by (apply IZR_lt; lia).
    assert (T : IZR (2 * r) = 2 * IZR r) by (rewrite mult_IZR; reflexivity).
    assert (F : IZR r = IZR r / IZR D * IZR D) by (field; lra).
    destruct (2 * r ?= D)%Z eqn:C.
    + apply Z.compare_eq in C.
      assert (IZR D = 2 * IZR r) by (rewrite <- T; f_equal; lia).
      assert (IZR r / IZR D = / 2).
      { apply Rmult_eq_reg_r with (IZR D); [| lra]. rewrite <- F. lra. }
      destruct (Z.even q); [| rewrite plus_IZR]; apply Rabs_le; lra.
    + rewrite Z.compare_lt_iff in C. apply IZR_lt in C. rewrite T in C.
      assert (IZR r / IZR D < / 2).
      { apply Rmult_lt_reg_r with (IZR D); [lra |]. rewrite <- F. lra. }
      assert (0 <= IZR r / IZR D).
      { apply Rmult_le_reg_r with (IZR D); [lra |]. rewrite <- F. lra. }
      apply Rabs_le; lra.
    + rewrite Z.compare_gt_iff in C. apply IZR_lt in C. rewrite T in C.
      assert (/ 2 < IZR r / IZR D).
      { apply Rmult_lt_reg_r with (IZR D); [lra |]. rewrite <- F. lra. }
      assert (IZR r / IZR D < 1).
      { apply Rmult_lt_reg_r with (IZR D); [lra |]. rewrite <- F. lra. }
      rewrite plus_IZR. apply Rabs_le; lra.
Qed.

End Operations.

Section RoundTrip.

Local Open Scope R_scope.

Lemma Rabs_le_both (x y : R) : Rabs x <= y -> - y <= x <= y.
Proof. unfold Rabs. destruct (Rcase_abs x); lra. Qed.

Lemma bpow_lt_inv (a b : Z) : bpow a < bpow b -> (a < b)%Z.
Proof.
  intros H. destruct (Z_lt_le_dec a b) as [| G]; [assumption |].
  apply bpow_le in G. lra.
Qed.

Lemma digits_bounds_R (p : positive) :
  bpow (Z.pos (digits2_pos p) - 1) <= IZR (Z.pos p) < bpow (Z.pos (digits2_pos p)).
Proof.
  pose proof (digits2_pos_bounds p) as [L U].
  rewrite !bpow_IZR by lia. split; [apply IZR_le | apply IZR_lt]; assumption.
Qed.

(** The product of an integer below [2^53] and a float, when it does not
    overflow, is off by at most the relative error of one rounding. *)
Lemma mul_error (sc : bool) (mc ms : positive) (ec es c : Z) :
  IZR (Z.pos mc) * bpow ec = IZR c ->
  (0 < c)%Z ->
  (-1074 <= es)%Z ->
  match SFmul prec emax (S754_finite sc mc ec) (S754_finite false ms es) with
  | S754_finite sx m1 e1 =>
      sx = sc /\
      Rabs (IZR (Z.pos m1) * bpow e1 - IZR c * (IZR (Z.pos ms) * bpow es))
      <= bpow (-53) * (IZR c * (IZR (Z.pos ms) * bpow es))
  | S754_infinity _ => True
  | _ => False
  end.
Proof.
  intros Hc Hpos Hes. cbn [SFmul]. rewrite xorb_false_r.
  set (e := (ec + es)%Z). set (p := (mc * ms)%positive).
  set (n := Z.max 0 (fexp prec emax (Z.pos (digits2_pos p) + e) - e)).
  destruct (binary_round_aux_spec sc p e loc_Exact (IZR (Z.pos p))
              (rep_of_loc_exact (Z.pos p) (Pos2Z.is_nonneg p)) n eq_refl)
    as (z & Hz0 & Z2 & Z3 & R).
  set (V := IZR c * (IZR (Z.pos ms) * bpow es)).
  set (w := IZR (Z.pos p) * bpow (- n)) in *.
  assert (Hp : IZR (Z.pos p) = IZR (Z.pos mc) * IZR (Z.pos ms)).
  { unfold p. rewrite Pos2Z.inj_mul, mult_IZR. reflexivity. }
  assert (HV : V = w * bpow (e + n)).
  { assert (Hb : bpow (- n) * bpow (e + n) = bpow ec * bpow es).
    { rewrite <- !bpow_add. f_equal. unfold e. lia. }
    unfold V, w. rewrite <- Hc, Hp.
    replace (IZR (Z.pos mc) * IZR (Z.pos ms) * bpow (- n) * bpow (e + n))
      with (IZR (Z.pos mc) * IZR (Z.pos ms) * (bpow (- n) * bpow (e + n))) by ring.
    rewrite Hb. ring. }
  assert (Hw0 : 0 < w).
  { unfold w. apply Rmult_lt_0_compat; [apply IZR_lt; lia | apply bpow_gt_0]. }
  assert (Herr : Rabs (IZR z - w) <= bpow (-53) * w).
  { pose proof (bpow_gt_0 (-53)).
    assert (Hexact : forall k : Z, w = IZR k -> Rabs (IZR z - w) <= bpow (-53) * w).
    { intros k E. rewrite (Z3 k E), <- E.
      replace (w - w) with 0 by ring. rewrite Rabs_R0. nra. }
    set (d := Z.pos (digits2_pos p)) in *.
    assert (Hn : n = Z.max 0 (Z.max (d + e - 53) (-1074) - e)) by reflexivity.
    clearbody n.
    destruct (Z_le_gt_dec (Z.max (d + e - 53) (-1074) - e) 0) as [N0 | N0].
    - (* no shift *)
      assert (n = 0%Z) as -> by lia.
      apply (Hexact (Z.pos p)). unfold w. cbn [Z.opp]. rewrite bpow_0. ring.
    - destruct (Z_le_gt_dec (-1074) (d + e - 53)) as [N1 | N1].
      + (* a full mantissa *)
        assert (n = (d - 53)%Z) as En by lia.
        assert (bpow 52 <= w).
        { unfold w. pose proof (digits_bounds_R p) as [L _]. fold d in L.
          replace (bpow 52) with (bpow (d - 1) * bpow (- n)).
          - apply Rmult_le_compat_r; [apply Rlt_le, bpow_gt_0 | exact L].
          - rewrite <- bpow_add. f_equal. lia. }
        assert (bpow (-53) * bpow 52 = / 2).
        { rewrite <- bpow_add. change (-53 + 52)%Z with (-1)%Z. apply bpow_m1. }
        nra.
      + (* below the normal range the product is exact *)
        assert (n = (-1074 - e)%Z) as En by lia.
        apply (Hexact (c * Z.pos ms * 2 ^ (es + 1074))%Z).
        unfold w. rewrite !mult_IZR, <- bpow_IZR by lia.
        rewrite Hp, <- Hc.
        replace (- n)%Z with (ec + (es + 1074))%Z by (unfold e in En; lia).
        rewrite bpow_add. ring. }
  destruct (binary_round_aux prec emax sc (Z.pos p) e loc_Exact) as [s | s | | s m1 e1].
  - destruct R as [_ ->]. apply Rabs_le_both in Herr.
    pose proof (bpow_gt_0 (-53)).
    assert (bpow (-53) < 1).
    { rewrite <- bpow_0. apply bpow_lt. lia. }
    nra.
  - exact I.
  - exact R.
  - destruct R as [-> R]. split; [reflexivity |].
    rewrite R. fold V. rewrite HV.
    replace (IZR z * bpow (e + n) - w * bpow (e + n))
      with ((IZR z - w) * bpow (e + n)) by ring.
    pose proof (bpow_gt_0 (e + n)).
    rewrite Rabs_mult, (Rabs_right (bpow (e + n))) by lra.
    nra.
Qed.

(** The quotient of two floats, when it lies in [[1/2, 2^53)], is a float
    at most a half away from the exact quotient. *)
Lemma div_error (sx : bool) (m1 ms : positive) (e1 es : Z) :
  / 2 <= IZR (Z.pos m1) * bpow e1 / (IZR (Z.pos ms) * bpow es) < bpow 53 ->
  exists my ey,
    SFdiv prec emax (S754_finite sx m1 e1) (S754_finite false ms es)
    = S754_finite sx my ey /\
    Rabs (IZR (Z.pos my) * bpow ey
          - IZR (Z.pos m1) * bpow e1 / (IZR (Z.pos ms) * bpow es)) <= / 2.
Proof.
  set (Q := IZR (Z.pos m1) * bpow e1 / (IZR (Z.pos ms) * bpow es)).
  intros [Qlo Qhi].
  cbn [SFdiv]. unfold SFdiv_core_binary. cbn [Zdigits2]. rewrite xorb_false_r.
  set (d1 := Z.pos (digits2_pos m1)). set (d2 := Z.pos (digits2_pos ms)).
  set (mag := (d1 + e1 - (d2 + es))%Z).
  set (e' := Z.min (fexp prec emax mag) (e1 - es)).
  set (sh := (e1 - es - e')%Z).
  assert (Hsh : (0 <= sh)%Z) by (unfold sh, e'; lia).
  set (m' := match sh with
             | 0%Z => Z.pos m1
             | Z.pos _ => Z.shiftl (Z.pos m1) sh
             | Z.neg _ => 0%Z
             end).
  assert (Hm' : m' = (Z.pos m1 * 2 ^ sh)%Z).
  { unfold m'. destruct sh as [| k | k] eqn:E; [cbn; lia | | lia].
    apply Z.shiftl_mul_pow2. lia. }
  pose proof (bpow_gt_0 e1) as B1. pose proof (bpow_gt_0 es) as B2.
  assert (P1 : 0 < IZR (Z.pos m1)) by (apply IZR_lt; lia).
  assert (P2 : 0 < IZR (Z.pos ms)) by (apply IZR_lt; lia).
  (* the size of the quotient *)
  pose proof (digits_bounds_R m1) as [L1 U1]. fold d1 in L1, U1.
  pose proof (digits_bounds_R ms) as [L2 U2]. fold d2 in L2, U2.
  assert (HQ : Q = IZR (Z.pos m1) / IZR (Z.pos ms) * bpow (e1 - es)).
  { unfold Q. replace (e1 - es)%Z with (e1 + - es)%Z by lia.
    rewrite bpow_add, bpow_opp. field. lra. }
  assert (Rlo : bpow (d1 - 1 - d2) < IZR (Z.pos m1) / IZR (Z.pos ms)).
  { replace (d1 - 1 - d2)%Z with (d1 - 1 + - d2)%Z by lia.
    rewrite bpow_add, bpow_opp.
    pose proof (bpow_gt_0 d2). pose proof (bpow_gt_0 (d1 - 1)).
    apply Rmult_lt_reg_r with (IZR (Z.pos ms) * bpow d2); [nra |].
    replace (IZR (Z.pos m1) / IZR (Z.pos ms) * (IZR (Z.pos ms) * bpow d2))
      with (IZR (Z.pos m1) * bpow d2) by (field; lra).
    replace (bpow (d1 - 1) * / bpow d2 * (IZR (Z.pos ms) * bpow d2))
      with (bpow (d1 - 1) * IZR (Z.pos ms)) by (field; lra).
    nra. }
  assert (Rhi : IZR (Z.pos m1) / IZR (Z.pos ms) < bpow (d1 - (d2 - 1))).
  { replace (d1 - (d2 - 1))%Z with (d1 + - (d2 - 1))%Z by lia.
    rewrite bpow_add, bpow_opp.
    pose proof (bpow_gt_0 (d2 - 1)). pose proof (bpow_gt_0 d1).
    apply Rmult_lt_reg_r with (IZR (Z.pos ms) * bpow (d2 - 1)); [nra |].
    replace (IZR (Z.pos m1) / IZR (Z.pos ms) * (IZR (Z.pos ms) * bpow (d2 - 1)))
      with (IZR (Z.pos m1) * bpow (d2 - 1)) by (field; lra).
    replace (bpow d1 * / bpow (d2 - 1) * (IZR (Z.pos ms) * bpow (d2 - 1)))
      with (bpow d1 * IZR (Z.pos ms)) by (field; lra).
    nra. }
  pose proof (bpow_gt_0 (e1 - es)) as B3.
  assert (Qlo' : bpow (mag - 1) < Q).
  { rewrite HQ. replace (mag - 1)%Z with (d1 - 1 - d2 + (e1 - es))%Z by (unfold mag; lia).
    rewrite bpow_add. nra. }
  assert (Qhi' : Q < bpow (mag + 1)).
  { rewrite HQ. replace (mag + 1)%Z with (d1 - (d2 - 1) + (e1 - es))%Z by (unfold mag; lia).
    rewrite bpow_add. nra. }
  assert (Hmag : (-1 <= mag <= 53)%Z).
  { split.
    - assert (bpow (-1) < bpow (mag + 1)) by (rewrite bpow_m1; lra).
      apply bpow_lt_inv in H. lia.
    - assert (bpow (mag - 1) < bpow 53) by lra.
      apply bpow_lt_inv in H. lia. }
  assert (He' : (e' <= mag - 53)%Z).
  { unfold e'. rewrite fexp_eq. lia. }
  (* the exact mantissa of the quotient at exponent [e'] *)
  set (v := IZR m' / IZR (Z.pos ms)).
  assert (Hv : v = Q * bpow (- e')).
  { unfold v. rewrite Hm', mult_IZR, <- bpow_IZR, HQ by lia.
    replace sh with (e1 - es + - e')%Z by (unfold sh; lia).
    rewrite bpow_add. field. lra. }
  assert (Hv52 : bpow 52 < v).
  { rewrite Hv. pose proof (bpow_gt_0 (- e')) as B.
    assert (bpow 52 <= bpow (mag - 1) * bpow (- e'))
      by (rewrite <- bpow_add; apply bpow_le; lia).
    nra. }
  (* the integer quotient and its remainder *)
  assert (Hm'0 : (0 <= m')%Z).
  { rewrite Hm'. apply Z.mul_nonneg_nonneg; [lia | apply Z.pow_nonneg; lia]. }
  pose proof (Z.div_mod m' (Z.pos ms) ltac:(lia)) as DM.
  pose proof (Z.mod_pos_bound m' (Z.pos ms) ltac:(lia)) as MB.
  pose proof (Z.div_pos m' (Z.pos ms) Hm'0 ltac:(lia)) as QP.
  unfold Z.div, Z.modulo in DM, MB, QP.
  destruct (Z.div_eucl m' (Z.pos ms)) as [q r].
  pose proof (new_location_rep (Z.pos ms) q r QP MB) as Rq.
  replace (IZR (q * Z.pos ms + r) / IZR (Z.pos ms)) with v in Rq
    by (unfold v; do 2 f_equal; lia).
  pose proof (rep_loc_bounds _ _ _ Rq) as [Vlo Vhi].
  assert (Hq52 : (2 ^ 52 <= q)%Z).
  { assert (H : IZR (2 ^ 52) < IZR (q + 1)).
    { rewrite plus_IZR, <- bpow_IZR by lia. lra. }
    apply lt_IZR in H. lia. }
  destruct q as [| qp | qp]; [lia | | lia].
  set (dq := Z.pos (digits2_pos qp)).
  pose proof (digits_bounds_R qp) as [Lq Uq]. fold dq in Lq, Uq.
  assert (Hdq : (53 <= dq)%Z).
  { assert (H : bpow 52 < bpow dq).
    { apply Rle_lt_trans with (IZR (Z.pos qp)); [| exact Uq].
      rewrite bpow_IZR by lia. apply IZR_le. exact Hq52. }
    apply bpow_lt_inv in H. lia. }
  assert (HQv : Q = v * bpow e').
  { rewrite Hv, Rmult_assoc, <- bpow_add.
    replace (- e' + e')%Z with 0%Z by lia. rewrite bpow_0. ring. }
  assert (Hdqe : (-1 < dq + e')%Z).
  { apply bpow_lt_inv. rewrite bpow_m1, bpow_add.
    pose proof (bpow_gt_0 e').
    assert (v < bpow dq).
    { apply Rlt_le_trans with (IZR (Z.pos qp) + 1); [exact Vhi |].
      rewrite bpow_IZR, <- (plus_IZR _ 1) by (unfold dq; lia).
      apply IZR_le. pose proof (digits2_pos_bounds qp). fold dq in H0. lia. }
    nra. }
  set (n := Z.max 0 (fexp prec emax (Z.pos (digits2_pos qp) + e') - e')).
  assert (Hn : n = (dq - 53)%Z).
  { unfold n. rewrite fexp_eq. fold dq. lia. }
  destruct (binary_round_aux_spec sx qp e' (new_location (Z.pos ms) r) v Rq n eq_refl)
    as (z & Hz0 & Z2 & _ & R).
  clearbody n. subst n.
  set (w := v * bpow (- (dq - 53))) in *.
  assert (Hw52 : bpow 52 <= w).
  { unfold w. replace (bpow 52) with (bpow (dq - 1) * bpow (- (dq - 53))).
    - apply Rmult_le_compat_r; [apply Rlt_le, bpow_gt_0 |]. lra.
    - rewrite <- bpow_add. f_equal. lia. }
  set (E := (e' + (dq - 53))%Z) in *.
  assert (HQw : Q = w * bpow E).
  { rewrite HQv. unfold w, E. rewrite Rmult_assoc, <- bpow_add.
    do 2 f_equal. lia. }
  assert (HE : (E <= 0)%Z).
  { assert (H : bpow (52 + E) < bpow 53).
    { rewrite bpow_add. pose proof (bpow_gt_0 E). nra. }
    apply bpow_lt_inv in H. lia. }
  assert (B52 : 1 <= bpow 52) by (apply bpow_ge_1; lia).
  apply Rabs_le_both in Z2.
  destruct (binary_round_aux prec emax sx (Z.pos qp) e' (new_location (Z.pos ms) r))
    as [s | s | | s my ey].
  - destruct R as [_ ->]. lra.
  - destruct R as [_ R]. unfold emax, prec in R. lia.
  - destruct R.
  - destruct R as [-> R]. exists my, ey. split; [reflexivity |].
    rewrite R. fold Q. rewrite HQw.
    replace (IZR z * bpow E - w * bpow E) with ((IZR z - w) * bpow E) by ring.
    pose proof (bpow_gt_0 E).
    assert (bpow E <= 1) by (rewrite <- bpow_0; apply bpow_le; lia).
    apply Rabs_le. nra.
Qed.

End RoundTrip.

Section RoundTripClaim.

Local Open Scope R_scope.

Lemma valid_exponent (ms : positive) (es : Z) :
  valid_binary prec emax (S754_finite false ms es) = true -> (-1074 <= es)%Z.
Proof.
  cbn [valid_binary]. unfold bounded, canonical_mantissa.
  intros H. apply andb_prop in H as [H _]. apply Z.eqb_eq in H.
  rewrite fexp_eq in H. lia.
Qed.

(** C9, as the code has it.  For a count below [2^53] in size and a
    valid, finite scale above zero whose product with the count does not
    overflow, counts to RPM and back ends at most one count away. *)
Theorem round_trip_within_one (c : Z) (s x : float) :
  is_finite s = true ->
  le0 s = false ->
  valid_binary prec emax s = true ->
  (Z.abs c < 2 ^ 53)%Z ->
  toRPM c s = Ok x ->
  is_finite x = true ->
  exists c' : Z, toCounts x s = Ok c' /\ (Z.abs (c' - c) <= 1)%Z.
Proof.
  intros Hfin Hpos Hval Hc Hx Hxfin.
  destruct s as [ss | ss | | ss ms es];
    [destruct ss; vm_compute in Hpos; discriminate
    | vm_compute in Hfin; discriminate
    | vm_compute in Hfin; discriminate
    | ].
  destruct ss; [vm_compute in Hpos; discriminate |].
  pose proof (valid_exponent ms es Hval) as Hes.
  unfold toRPM, int_mul in Hx.
  destruct (of_int c) as [xc | e] eqn:Hxc; cbn [bind] in Hx; [| discriminate].
  injection Hx as <-.
  destruct (Z.eq_dec c 0) as [-> | Hc0].
  { cbn in Hxc. injection Hxc as <-. exists 0%Z. split; [reflexivity | cbn; lia]. }
  destruct (of_int_exact c xc Hxc ltac:(lia)) as (mc & ec & -> & Vc).
  set (sc := (c <? 0)%Z) in *.
  pose proof (mul_error sc mc ms ec es (Z.abs c) Vc ltac:(lia) Hes) as M.
  destruct (SFmul prec emax (S754_finite sc mc ec) (S754_finite false ms es))
    as [sx | sx | | sx m1 e1]; try discriminate; try contradiction.
  destruct M as [-> M].
  set (S := IZR (Z.pos ms) * bpow es) in *.
  set (X := IZR (Z.pos m1) * bpow e1) in *.
  assert (HS : 0 < S).
  { unfold S. apply Rmult_lt_0_compat; [apply IZR_lt; lia | apply bpow_gt_0]. }
  assert (Hc1 : 1 <= IZR (Z.abs c)) by (apply IZR_le; lia).
  assert (Hc53 : IZR (Z.abs c) <= bpow 53 - 1).
  { rewrite bpow_IZR by lia. rewrite <- (minus_IZR _ 1). apply IZR_le. lia. }
  assert (B : bpow (-53) * bpow 53 = 1).
  { rewrite <- bpow_add. apply bpow_0. }
  pose proof (bpow_gt_0 (-53)) as B0. pose proof (bpow_gt_0 53) as B1.
  assert (B2 : bpow (-53) <= / 2).
  { rewrite <- bpow_m1. apply bpow_le. lia. }
  (* the quotient is within one of the count *)
  apply Rabs_le_both in M.
  assert (HQ : X / S - IZR (Z.abs c) = (X - IZR (Z.abs c) * S) / S) by (field; lra).
  assert (Qerr : - (bpow (-53) * IZR (Z.abs c)) <= X / S - IZR (Z.abs c)
                 <= bpow (-53) * IZR (Z.abs c)).
  { rewrite HQ. split.
    - apply Rmult_le_reg_r with S; [exact HS |].
      replace ((X - IZR (Z.abs c) * S) / S * S) with (X - IZR (Z.abs c) * S)
        by (field; lra).
      lra.
    - apply Rmult_le_reg_r with S; [exact HS |].
      replace ((X - IZR (Z.abs c) * S) / S * S) with (X - IZR (Z.abs c) * S)
        by (field; lra).
      lra. }
  assert (Qrange : / 2 <= X / S < bpow 53) by (split; nra).
  destruct (div_error sc m1 ms e1 es Qrange) as (my & ey & Hy & Yerr).
  fold X S in Yerr. apply Rabs_le_both in Yerr.
  unfold toCounts, truediv. cbn [bind]. rewrite Hy. cbn [round].
  exists (cond_Zopp sc (half_even my ey)). split; [reflexivity |].
  pose proof (half_even_near my ey) as Herr. apply Rabs_le_both in Herr.
  assert (Hlt : -2 < IZR (half_even my ey) - IZR (Z.abs c) < 2) by (split; nra).
  rewrite <- minus_IZR in Hlt. destruct Hlt as [H1 H2].
  apply lt_IZR in H1, H2.
  unfold sc, cond_Zopp. destruct (Z.ltb_spec c 0); lia.
Qed.

End RoundTripClaim.

(** At the count of 1500 RPM and the default scale. *)
Lemma round_trip_within_one_witness :
  exists c' : Z,
    toCounts (SFmul prec emax (decimal 7533 0) (decimal 19913 5)) (decimal 19913 5)
    = Ok c' /\
    Z.abs (c' - 7533) <= 1.
Proof.
  apply (round_trip_within_one 7533 (decimal 19913 5)
           (SFmul prec emax (decimal 7533 0) (decimal 19913 5)));
    reflexivity.
Defined.

(** C9, as stated, fails: at scale 1.0 the count [2^55 + 3] comes back as
    [2^55], three counts away; and at scale 1e308 the count 2 does not
    come back at all, the product being infinite. *)
Lemma round_trip_off_by_three :
  toRPM (2 ^ 55 + 3) (decimal 1 0) = Ok (S754_finite false (2 ^ 52) 3) /\
  toCounts (S754_finite false (2 ^ 52) 3) (decimal 1 0) = Ok (2 ^ 55) /\
  Z.abs (2 ^ 55 - (2 ^ 55 + 3)) = 3 /\
  toRPM 2 (S754_finite false (2 ^ 53 - 1) 971) = Ok (S754_infinity false) /\
  toCounts (S754_infinity false) (S754_finite false (2 ^ 53 - 1) 971)
  = Raise OverflowError.
Proof. vm_compute. repeat split; reflexivity. Qed.

(* ===================================================================== *)
(** ** Ints that convert *)

Lemma digits_le (p : positive) (n : Z) :
  (0 <= n)%Z -> (Z.pos p < 2 ^ n)%Z -> (Z.pos (digits2_pos p) <= n)%Z.
Proof.
  intros Hn H. pose proof (digits2_pos_bounds p) as [L _].
  destruct (Z_le_gt_dec (Z.pos (digits2_pos p)) n) as [| G]; [assumption |].
  exfalso.
  assert (2 ^ n <= 2 ^ (Z.pos (digits2_pos p) - 1))%Z
    by (apply Z.pow_le_mono_r; lia).
  lia.
Qed.

(** [float(n)] raises for no int below [2^1023] in size. *)
Lemma of_int_total (c : Z) :
  (Z.abs c < 2 ^ 1023)%Z ->
  exists x, of_int c = Ok x /\ is_finite x = true.
Proof.
  intros Hc. unfold of_int.
  assert (G : forall (sx : bool) (p : positive),
             (Z.pos p < 2 ^ 1023)%Z ->
             is_finite (binary_round prec emax sx p 0) = true).
  { intros sx p Hp. unfold binary_round.
    pose proof (digits_le p 1023 ltac:(lia) Hp) as Hd.
    assert (Hd0 : (0 < Z.pos (digits2_pos p))%Z) by lia.
    rewrite Z.add_0_r, fexp_eq.
    set (d := Z.pos (digits2_pos p)) in *.
    rewrite Z.max_l by lia.
    unfold shl_align. rewrite Z.sub_0_r.
    assert (S : exists mz ez,
               (match (d - 53)%Z with
                | Z.neg k => (Pos.iter xO p k, (d - 53)%Z)
                | _ => (p, 0%Z)
                end) = (mz, ez) /\
               (ez + Z.max 0 (fexp prec emax (Z.pos (digits2_pos mz) + ez) - ez)
                < 971)%Z).
    { destruct (d - 53)%Z as [| k | k] eqn:E.
      - exists p, 0%Z. split; [reflexivity |]. rewrite fexp_eq. fold d. lia.
      - exists p, 0%Z. split; [reflexivity |]. rewrite fexp_eq. fold d. lia.
      - exists (Pos.iter xO p k), (Z.neg k). split; [reflexivity |].
        rewrite fexp_eq, iter_xO_digits, Pos2Z.inj_add. fold d. lia. }
    destruct S as (mz & ez & -> & B).
    destruct (binary_round_aux_spec sx mz ez loc_Exact (IZR (Z.pos mz))
                (rep_of_loc_exact (Z.pos mz) (Pos2Z.is_nonneg mz))
                _ eq_refl)
      as (z & _ & _ & _ & R).
    destruct (binary_round_aux prec emax sx (Z.pos mz) ez loc_Exact)
      as [s | s | | s m e]; try reflexivity.
    - destruct R as [_ R]. change (emax - prec)%Z with 971%Z in R. lia.
    - destruct R. }
  destruct c as [| p | p]; cbn [binary_normalize].
  - now exists (S754_zero false).
  - specialize (G false p Hc).
    destruct (binary_round prec emax false p 0) as [s | s | | s m e];
      try discriminate; eexists; split; reflexivity.
  - specialize (G true p Hc).
    destruct (binary_round prec emax true p 0) as [s | s | | s m e];
      try discriminate; eexists; split; reflexivity.
Qed.

Lemma toRPM_total (c : Z) (scale : float) :
  (Z.abs c < 2 ^ 1023)%Z -> exists x, toRPM c scale = Ok x.
Proof.
  intros Hc. destruct (of_int_total c Hc) as (x & E & _).
  unfold toRPM, int_mul. rewrite E. cbn [bind]. eauto.
Qed.

(** A speed text is never the dash: it starts with its sign. *)
Lemma speed_text_not_dash (x : float) (c : Z) : speed_text x c <> DASH.
Proof.
  unfold speed_text, format_f0, sign_str.
  destruct x as [s | s | | s m e]; try destruct s; discriminate.
Qed.

Lemma of_int_value (c : Z) :
  (Z.abs c < 2 ^ 1023)%Z -> of_int c = Ok (binary_normalize prec emax c 0 false).
Proof.
  intros Hc. destruct (of_int_total c Hc) as (x & E & _).
  unfold of_int in *.
  destruct (binary_normalize prec emax c 0 false); try discriminate; reflexivity.
Qed.

Lemma toRPM_value (c : Z) (scale : float) :
  (Z.abs c < 2 ^ 1023)%Z ->
  toRPM c scale = Ok (SFmul prec emax (binary_normalize prec emax c 0 false) scale).
Proof.
  intros Hc. unfold toRPM, int_mul. now rewrite (of_int_value c Hc).
Qed.

(* ===================================================================== *)
(** ** The clock: [elapsed_lt] is the comparison Python makes *)

Section Clock.

Local Open Scope R_scope.

(** Rounding a mantissa that is [z * 2^n], with [z] of 53 bits and [n]
    the shift to the format, gives [z] itself. *)
Lemma binary_round_aux_exact (sx : bool) (mx z : positive) (ex n : Z) :
  (0 <= n)%Z ->
  n = (fexp prec emax (Z.pos (digits2_pos mx) + ex) - ex)%Z ->
  Z.pos mx = (Z.pos z * 2 ^ n)%Z ->
  Z.pos (digits2_pos z) = 53%Z ->
  (-1074 <= ex + n <= 971)%Z ->
  binary_round_aux prec emax sx (Z.pos mx) ex loc_Exact
  = S754_finite sx z (ex + n).
Proof.
  intros Hn En Em Dz Hb.
  unfold binary_round_aux, shr_fexp. cbn [Zdigits2].
  rewrite <- En.
  destruct (shr_rep (shr_record_of_loc (Z.pos mx) loc_Exact) ex n
              (IZR (Z.pos mx)) (rep_of_loc_exact _ (Pos2Z.is_nonneg mx)))
    as [R1 E1].
  destruct (shr (shr_record_of_loc (Z.pos mx) loc_Exact) ex n) as [mrs' e'].
  cbn [fst snd] in R1, E1. subst e'. rewrite Z.max_r in * by lia.
  assert (V : IZR (Z.pos mx) * bpow (- n) = IZR (Z.pos z)).
  { rewrite Em, mult_IZR, <- bpow_IZR by lia.
    rewrite Rmult_assoc, <- bpow_add.
    replace (n + - n)%Z with 0%Z by lia. rewrite bpow_0. ring. }
  rewrite V in R1.
  destruct (round_nearest_even_rep mrs' _ R1 _ eq_refl) as (_ & _ & Z3).
  rewrite (Z3 _ eq_refl). cbn [Zdigits2]. rewrite Dz, fexp_eq.
  replace (Z.max (53 + (ex + n) - 53) (-1074) - (ex + n))%Z with 0%Z by lia.
  cbn [shr shr_record_of_loc shr_m fst snd].
  destruct (Z.leb_spec (ex + n) (emax - prec)) as [_ | G]; [reflexivity |].
  change (emax - prec)%Z with 971%Z in G. lia.
Qed.

End Clock.

Lemma digits_unique (x a b : Z) :
  2 ^ (a - 1) <= x < 2 ^ a -> 2 ^ (b - 1) <= x < 2 ^ b ->
  0 < a -> 0 < b -> a = b.
Proof.
  intros Ha Hb A B.
  destruct (Z.lt_trichotomy a b) as [L | [E | L]]; [| exact E |]; exfalso.
  - assert (2 ^ a <= 2 ^ (b - 1)) by (apply Z.pow_le_mono_r; lia). lia.
  - assert (2 ^ b <= 2 ^ (a - 1)) by (apply Z.pow_le_mono_r; lia). lia.
Qed.

Lemma digits_shift (K p : positive) (s : Z) :
  0 <= s -> Z.pos p = Z.pos K * 2 ^ s ->
  Z.pos (digits2_pos p) = Z.pos (digits2_pos K) + s.
Proof.
  intros Hs E.
  pose proof (digits2_pos_bounds K) as [L U].
  apply (digits_unique (Z.pos p)); try lia; [apply digits2_pos_bounds |].
  replace (Z.pos (digits2_pos K) + s - 1) with (Z.pos (digits2_pos K) - 1 + s)
    by lia.
  rewrite E, !Z.pow_add_r by lia.
  assert (0 < 2 ^ s) by (apply Z.pow_pos_nonneg; lia). nia.
Qed.

Lemma digits_mono (a b : positive) :
  Z.pos a <= Z.pos b -> Z.pos (digits2_pos a) <= Z.pos (digits2_pos b).
Proof.
  intros H. pose proof (digits2_pos_bounds a) as [La _].
  pose proof (digits2_pos_bounds b) as [_ Ub].
  destruct (Z_le_gt_dec (Z.pos (digits2_pos a)) (Z.pos (digits2_pos b)))
    as [| G]; [assumption | exfalso].
  assert (2 ^ Z.pos (digits2_pos b) <= 2 ^ (Z.pos (digits2_pos a) - 1))
    by (apply Z.pow_le_mono_r; lia).
  lia.
Qed.

(** The float of [K * 2^(e + s)], given as the mantissa [K * 2^s] at the
    exponent [e], for a [K] below [2^53] in the range of the normal
    numbers: [K] shifted to 53 bits. *)
Lemma binary_round_exact (sx : bool) (p K : positive) (e s : Z) :
  0 <= s -> Z.pos p = Z.pos K * 2 ^ s -> Z.pos K < 2 ^ 53 ->
  -1074 <= e + s + Z.pos (digits2_pos K) - 53 <= 971 ->
  exists m : positive,
    binary_round prec emax sx p e
    = S754_finite sx m (e + s + Z.pos (digits2_pos K) - 53) /\
    Z.pos m = Z.pos K * 2 ^ (53 - Z.pos (digits2_pos K)).
Proof.
  intros Hs Ep HK Hb.
  pose proof (digits_le_53 K HK) as Hd.
  pose proof (digits_shift K p s Hs Ep) as Dp.
  set (d := Z.pos (digits2_pos K)) in *.
  assert (Hd0 : 0 < d) by (unfold d; lia).
  assert (P2 : 0 < 2 ^ (53 - d)) by (apply Z.pow_pos_nonneg; lia).
  set (z := Z.to_pos (Z.pos K * 2 ^ (53 - d))).
  assert (Ez : Z.pos z = Z.pos K * 2 ^ (53 - d)).
  { unfold z. rewrite Z2Pos.id; [reflexivity | nia]. }
  assert (Dz : Z.pos (digits2_pos z) = 53).
  { rewrite (digits_shift K z (53 - d)); [fold d; lia | lia | exact Ez]. }
  exists z. split; [| exact Ez].
  unfold binary_round. rewrite Dp, fexp_eq.
  rewrite Z.max_l by lia. unfold shl_align.
  destruct (d + s + e - 53 - e) as [| k | k] eqn:Ek.
  - rewrite (binary_round_aux_exact sx p z e 0).
    + f_equal. lia.
    + lia.
    + rewrite Dp, fexp_eq. lia.
    + rewrite Ep, Ez. replace (53 - d) with s by lia. cbn [Z.pow]. lia.
    + exact Dz.
    + lia.
  - rewrite (binary_round_aux_exact sx p z e (Z.pos k)).
    + f_equal. lia.
    + lia.
    + rewrite Dp, fexp_eq. lia.
    + rewrite Ep, Ez, <- Z.mul_assoc, <- Z.pow_add_r by lia.
      f_equal. f_equal. lia.
    + exact Dz.
    + lia.
  - assert (Em : Pos.iter xO p k = z).
    { apply Pos2Z.inj. rewrite iter_xO_value, Ep, Ez, <- Z.mul_assoc,
        <- Z.pow_add_r by lia.
      f_equal. f_equal. lia. }
    rewrite Em.
    rewrite (binary_round_aux_exact sx z z (d + s + e - 53) 0).
    + f_equal. lia.
    + lia.
    + rewrite Dz, fexp_eq. lia.
    + cbn [Z.pow]. lia.
    + exact Dz.
    + lia.
Qed.

(** What [time.time()] returns at [n] units: [n] shifted to 53 bits. *)
Lemma reading_0 : reading 0 = S754_zero false.
Proof. reflexivity. Qed.

Lemma reading_pos (K : positive) :
  Z.pos K < 2 ^ 53 ->
  exists m : positive,
    reading (Z.pos K) = S754_finite false m (Z.pos (digits2_pos K) - 75) /\
    Z.pos m = Z.pos K * 2 ^ (53 - Z.pos (digits2_pos K)).
Proof.
  intros HK. pose proof (digits_le_53 K HK) as Hd.
  unfold reading. cbn [binary_normalize].
  destruct (binary_round_exact false K K (-22) 0) as (m & E & V);
    [lia | cbn [Z.pow]; lia | exact HK | lia |].
  exists m. rewrite E. split; [f_equal; lia | exact V].
Qed.

(** The difference of two readings is the reading of the difference:
    nothing is rounded. *)
Lemma sub_readings (n t0 : Z) :
  0 <= t0 <= n -> n < 2 ^ 53 ->
  sub (reading n) (reading t0) = reading (n - t0).
Proof.
  intros [H0 H1] H2.
  destruct t0 as [| T | T]; [| | lia].
  { rewrite Z.sub_0_r, reading_0.
    destruct n as [| N | N]; [reflexivity | | lia].
    destruct (reading_pos N H2) as (m & -> & _). reflexivity. }
  destruct n as [| N | N]; try lia.
  destruct (reading_pos N H2) as (mn & En & Vn).
  destruct (reading_pos T ltac:(lia)) as (mt & Et & Vt).
  rewrite En, Et. unfold sub, SFsub.
  pose proof (digits_mono T N H1) as Dm.
  pose proof (digits_le_53 N H2) as DN.
  pose proof (digits_le_53 T ltac:(lia)) as DT.
  set (dn := Z.pos (digits2_pos N)) in *.
  set (dt := Z.pos (digits2_pos T)) in *.
  assert (Hdt : 0 < dt) by (unfold dt; lia).
  rewrite Z.min_r by lia.
  assert (A : Z.pos (fst (shl_align mn (dn - 75) (dt - 75)))
              = Z.pos N * 2 ^ (53 - dt)).
  { unfold shl_align.
    destruct (dt - 75 - (dn - 75)) as [| k | k] eqn:Ek; cbn [fst].
    - rewrite Vn. do 2 f_equal. lia.
    - lia.
    - rewrite iter_xO_value, Vn, <- Z.mul_assoc, <- Z.pow_add_r by lia.
      do 2 f_equal. lia. }
  assert (B : Z.pos (fst (shl_align mt (dt - 75) (dt - 75)))
              = Z.pos T * 2 ^ (53 - dt)).
  { unfold shl_align. rewrite Z.sub_diag. exact Vt. }
  cbn [cond_Zopp]. rewrite A, B, <- Z.mul_sub_distr_r.
  destruct (Z.pos N - Z.pos T) as [| K | K] eqn:EK; [reflexivity | | lia].
  assert (HK : Z.pos K < 2 ^ 53) by lia.
  destruct (reading_pos K HK) as (mk & -> & Vk).
  assert (P2 : 0 < 2 ^ (53 - dt)) by (apply Z.pow_pos_nonneg; lia).
  destruct (Z.pos K * 2 ^ (53 - dt)) as [| M | M] eqn:EM; try nia.
  cbn [binary_normalize].
  destruct (binary_round_exact false M K (dt - 75) (53 - dt)) as (m & E & V);
    [lia | symmetry; exact EM | exact HK | |].
  { pose proof (digits_le_53 K HK). lia. }
  rewrite E. f_equal.
  - apply Pos2Z.inj. now rewrite V, Vk.
  - lia.
Qed.

(** Comparing a reading with a valid float is comparing the numbers. *)
Lemma lt_reading (k : Z) (d : float) :
  0 <= k < 2 ^ 53 ->
  valid_binary prec emax d = true ->
  lt (reading k) d = elapsed_lt k d.
Proof.
  intros [H0 H1] V.
  destruct k as [| K | K]; [| | lia].
  { rewrite reading_0.
    destruct d as [s | s | | s md e]; try reflexivity.
    - destruct s; reflexivity.
    - unfold lt, SFltb, SFcompare, elapsed_lt.
      destruct s; cbn [cond_Zopp]; destruct (Z.leb_spec 0 (e + 22)); symmetry.
      + apply Z.ltb_ge.
        assert (0 <= 2 ^ (e + 22)) by (apply Z.pow_nonneg; lia). nia.
      + apply Z.ltb_ge. lia.
      + apply Z.ltb_lt.
        assert (0 < 2 ^ (e + 22)) by (apply Z.pow_pos_nonneg; lia). nia.
      + apply Z.ltb_lt. lia. }
  destruct (reading_pos K H1) as (m & -> & Vm).
  pose proof (digits_le_53 K H1) as Dk.
  pose proof (digits2_pos_bounds K) as [KL KU].
  set (dk := Z.pos (digits2_pos K)) in *.
  assert (Dk0 : 0 < dk) by (unfold dk; lia).
  destruct d as [s | s | | s md e]; try reflexivity.
  { destruct s; reflexivity. }
  unfold lt, SFltb, SFcompare, elapsed_lt.
  destruct s; cbn [cond_Zopp].
  { destruct (Z.leb_spec 0 (e + 22)); symmetry; apply Z.ltb_ge.
    - assert (0 <= 2 ^ (e + 22)) by (apply Z.pow_nonneg; lia). nia.
    - assert (0 <= 2 ^ (- (e + 22))) by (apply Z.pow_nonneg; lia). nia. }
  cbn [valid_binary] in V. unfold bounded, canonical_mantissa in V.
  apply andb_true_iff in V as [V1 V2].
  apply Z.eqb_eq in V1. apply Z.leb_le in V2. rewrite fexp_eq in V1.
  pose proof (digits2_pos_bounds md) as [ML MU].
  set (dm := Z.pos (digits2_pos md)) in *.
  assert (Dm0 : 0 < dm) by (unfold dm; lia).
  destruct (Z.compare_spec (dk - 75) e) as [E | L | G].
  - (* the same exponent: the mantissas decide *)
    change (Pos.compare_cont Eq m md) with (Z.compare (Z.pos m) (Z.pos md)).
    rewrite Vm. unfold Z.ltb.
    destruct (Z.leb_spec 0 (e + 22)).
    + replace (53 - dk) with 0 by lia. replace (e + 22) with 0 by lia.
      cbn [Z.pow]. rewrite !Z.mul_1_r. reflexivity.
    + replace (- (e + 22)) with (53 - dk) by lia. reflexivity.
  - (* the reading has the smaller exponent *)
    assert (D53 : dm = 53) by lia.
    assert (M52 : 2 ^ 52 <= Z.pos md).
    { rewrite D53 in ML. exact ML. }
    symmetry. destruct (Z.leb_spec 0 (e + 22)); apply Z.ltb_lt.
    + assert (2 ^ dk <= 2 ^ 52 * 2 ^ (e + 22)).
      { rewrite <- Z.pow_add_r by lia. apply Z.pow_le_mono_r; lia. }
      assert (0 < 2 ^ (e + 22)) by (apply Z.pow_pos_nonneg; lia). nia.
    + assert (2 ^ dk * 2 ^ (- (e + 22)) <= 2 ^ 52).
      { rewrite <- Z.pow_add_r by lia. apply Z.pow_le_mono_r; lia. }
      assert (0 < 2 ^ (- (e + 22))) by (apply Z.pow_pos_nonneg; lia). nia.
  - (* the reading has the larger exponent *)
    assert (D53 : dm <= 53) by lia.
    assert (M53 : Z.pos md < 2 ^ 53).
    { assert (2 ^ dm <= 2 ^ 53) by (apply Z.pow_le_mono_r; lia). lia. }
    symmetry. destruct (Z.leb_spec 0 (e + 22)); apply Z.ltb_ge.
    + assert (2 ^ 53 * 2 ^ (e + 22) <= 2 ^ (dk - 1)).
      { rewrite <- Z.pow_add_r by lia. apply Z.pow_le_mono_r; lia. }
      assert (0 < 2 ^ (e + 22)) by (apply Z.pow_pos_nonneg; lia). nia.
    + assert (2 ^ 53 <= 2 ^ (dk - 1) * 2 ^ (- (e + 22))).
      { rewrite <- Z.pow_add_r by lia. apply Z.pow_le_mono_r; lia. }
      assert (0 < 2 ^ (- (e + 22))) by (apply Z.pow_pos_nonneg; lia). nia.
Qed.

(** The test of the waiting loop, [time.time() - t0 < d], on the binary64
    numbers Python computes with: for two readings of a clock that does
    not run backwards, below [2^53] units (the year 2038 is at [2^53]),
    and a float [d] that is a binary64 number, the difference of the two
    readings is formed without rounding and its comparison with [d] is
    [elapsed_lt]. *)
Lemma elapsed_lt_is_binary64 (n t0 : Z) (d : float) :
  0 <= t0 <= n -> n < 2 ^ 53 ->
  valid_binary prec emax d = true ->
  lt (sub (reading n) (reading t0)) d = elapsed_lt (n - t0) d.
Proof.
  intros H0 H1 V. rewrite (sub_readings n t0 H0 H1).
  apply lt_reading; [lia | exact V].
Qed.

(* ===================================================================== *)
(** ** The claims about the GUI thread *)

(** The world in which the GUI of the examples was connected: nothing
    logged yet, the clock at 0, every write and sleep as asked. *)
Lemma init_world_quiet : quiet (faults (init_world [] [])).
Proof. apply Forall_nil. Qed.

(** C4, as the code has it.  [_start_seq] checks the entries before it
    changes anything: when one of them does not parse, or [scale <= 0],
    [run_t <= 0], [stop_t < 0] or [cycles <= 0], the GUI object is left as
    it was, no thread is started, nothing is written, and the one effect
    is the "Input error" box (not even that while a worker is alive).  The
    speed only has to parse. *)
Theorem start_rejects_refused_entries
    (parse_float : string -> option float) (parse_int : string -> option Z)
    (g : MotorGUI) (w : World) :
  refused parse_float parse_int g ->
  _start_seq parse_float parse_int (g, w)
  = (g, if thread_alive (g, w) then w
        else msgbox showerror "Input error" "Enter valid numeric values." w).
Proof.
  unfold refused, _start_seq, read_params, float_of, int_of.
  intros H. destruct (thread_alive (g, w)); [reflexivity |].
  destruct (parse_float (speed_entry g)) as [rpm |]; [| reflexivity].
  destruct (parse_float (scale_entry g)) as [scale |]; [| reflexivity].
  destruct (parse_float (run_entry g)) as [run_t |]; [| reflexivity].
  destruct (parse_float (stop_entry g)) as [stop_t |]; [| reflexivity].
  destruct (parse_int (cycle_entry g)) as [cycles |]; [| reflexivity].
  cbn [bind].
  destruct H as [-> | [-> | [-> | H]]]; rewrite ?orb_true_r; try reflexivity.
  apply Z.leb_le in H. rewrite H, ?orb_true_r. reflexivity.
Qed.

(** With a scale of 0. *)
Lemma start_rejects_refused_entries_witness :
  let g := typed "motor.elf" "COM3" "1500" "0" "10" "50" "3" (idle_gui false "1500") in
  let w := init_world [] [] in
  _start_seq lit_float lit_int (g, w)
  = (g, if thread_alive (g, w) then w
        else msgbox showerror "Input error" "Enter valid numeric values." w).
Proof.
  apply (start_rejects_refused_entries lit_float lit_int
           (typed "motor.elf" "COM3" "1500" "0" "10" "50" "3" (idle_gui false "1500"))
           (init_world [] [])).
  vm_compute. left. reflexivity.
Defined.

(** C4, as stated, fails: a speed of -1500 RPM, which is not above zero,
    is accepted: the parameters are stored and worker 0 is started. *)
Lemma negative_speed_is_accepted :
  let gw' := _start_seq lit_float lit_int (idle_gui false "-1500", init_world [] []) in
  lit_float "-1500" = Some (SFopp (decimal 1500 0)) /\
  lt0 (SFopp (decimal 1500 0)) = true /\
  params (fst gw')
  = Some (SFopp (decimal 1500 0), decimal 19913 5, decimal 10 0, decimal 50 0, 3) /\
  alive (snd gw') = [0%nat] /\
  log (snd gw') = [ThreadStart 0 0].
Proof. vm_compute. repeat split; reflexivity. Qed.

Lemma read_counts_raises (tgt : Target) (g : MotorGUI) :
  read_raises tgt g -> read_counts tgt g = (Some 0, Some 0).
Proof.
  unfold read_counts. intros [[e ->] | [e E]]; [reflexivity |].
  destruct (get_value tgt "meas_var" (meas_var g)); [| reflexivity].
  now rewrite E.
Qed.

Lemma show_speeds_ints (parse_float : string -> option float)
    (m c : Z) (g : MotorGUI) :
  Z.abs m < 2 ^ 1023 -> Z.abs c < 2 ^ 1023 ->
  match show_speeds parse_float (Some m) (Some c) g with
  | Ok g' => Ok g'
  | Raise ValueError => Ok (show_dashes g)
  | Raise e => Raise e
  end = Ok (sample parse_float m c g).
Proof.
  intros Hm Hc. unfold show_speeds, sample, float_of.
  destruct (parse_float (scale_entry g)) as [scale |]; [| reflexivity].
  cbn [bind operand]. rewrite (toRPM_value m scale Hm). cbn [bind].
  rewrite (toRPM_value c scale Hc). reflexivity.
Qed.

Lemma sample_twice (parse_float : string -> option float)
    (m c x y : Z) (g : MotorGUI) :
  sample parse_float m c (sample parse_float x y g) = sample parse_float m c g.
Proof.
  unfold sample.
  destruct (parse_float (scale_entry g)) eqn:E;
    cbn [scale_entry set_cmd_str set_meas_str show_dashes]; rewrite E; reflexivity.
Qed.

(** C7, as the code has it.  On a tick one of whose reads raises, the
    poller takes both counts as zero and shows them converted, or the dash
    when the scale does not parse; the exception goes no further, nothing
    but the two speed texts changes, nothing is written, and the next tick
    is scheduled.  On a later tick whose reads return ints, it shows the
    counts read, converted, with no restart in between. *)
Theorem poll_survives_read_that_raises
    (parse_float : string -> option float) (tgt tgt' : Target)
    (g : MotorGUI) (w w2 : World) (hm hc : handle) (m c : Z) :
  connected g = true ->
  read_raises tgt g ->
  meas_var g = Var hm -> cmd_var g = Var hc ->
  x2c_read tgt' hm = Ok (Some m) -> x2c_read tgt' hc = Ok (Some c) ->
  Z.abs m < 2 ^ 1023 -> Z.abs c < 2 ^ 1023 ->
  _poll_speeds parse_float tgt (g, w)
  = (Ok tt, (sample parse_float 0 0 g,
             emit (After (now w) POLL_MS cb_poll_speeds) w)) /\
  _poll_speeds parse_float tgt' (sample parse_float 0 0 g, w2)
  = (Ok tt, (sample parse_float m c g,
             emit (After (now w2) POLL_MS cb_poll_speeds) w2)).
Proof.
  intros Hcon Hfail Hm Hc Rm Rc Bm Bc.
  assert (K : forall x y, connected (sample parse_float x y g) = true /\
                          meas_var (sample parse_float x y g) = Var hm /\
                          cmd_var (sample parse_float x y g) = Var hc /\
                          scale_entry (sample parse_float x y g) = scale_entry g).
  { intros x y. unfold sample.
    destruct (parse_float (scale_entry g)); cbn; auto. }
  split.
  - unfold _poll_speeds. rewrite Hcon, (read_counts_raises tgt g Hfail).
    rewrite (show_speeds_ints parse_float 0 0 g) by (cbn; lia). reflexivity.
  - unfold _poll_speeds.
    destruct (K 0 0) as (K1 & K2 & K3 & K4). rewrite K1.
    unfold read_counts, get_value. rewrite K2, K3. cbn [method bind].
    rewrite Rm, Rc.
    rewrite (show_speeds_ints parse_float m c _ Bm Bc).
    now rewrite sample_twice.
Qed.

(** The link down for one tick, with reads that raise, and up again on
    the next. *)
Lemma poll_survives_read_that_raises_witness :
  let g := idle_gui false "1500" in
  let w := init_world [] [] in
  let w2 := advance (2 * SECOND) (emit (After 0 POLL_MS cb_poll_speeds) w) in
  _poll_speeds lit_float (target_down false) (g, w)
  = (Ok tt, (sample lit_float 0 0 g,
             emit (After (now w) POLL_MS cb_poll_speeds) w)) /\
  _poll_speeds lit_float (target_up false) (sample lit_float 0 0 g, w2)
  = (Ok tt, (sample lit_float 7530 7533 g,
             emit (After (now w2) POLL_MS cb_poll_speeds) w2)).
Proof.
  apply (poll_survives_read_that_raises lit_float (target_down false) (target_up false)
           (idle_gui false "1500") (init_world [] [])
           (advance (2 * SECOND)
              (emit (After 0 POLL_MS cb_poll_speeds) (init_world [] [])))
           (mkHandle VELOCITY_MEAS false) (mkHandle VELOCITY_CMD false) 7530 7533);
    try reflexivity.
  left. exists (LinkError "link down"). reflexivity.
Defined.

(** C7, as stated, fails, in two ways.  With the link down and reads
    that raise, at the default scale, the tick shows "+0 RPM (0)" for both
    speeds, not the dash that stands for "no value".  With reads that
    return [None] instead of raising, the failure is not held back: the
    product [cnt_meas * scale] raises [TypeError], the tick raises, shows
    nothing and schedules no next tick. *)
Lemma failed_read_shows_zero_not_dash :
  (let g' := fst (snd (_poll_speeds lit_float (target_down false)
                         (idle_gui false "1500", init_world [] []))) in
   read_raises (target_down false) (idle_gui false "1500") /\
   meas_str g' = "+0 RPM (0)" /\ cmd_str g' = "+0 RPM (0)" /\
   meas_str g' <> DASH /\ cmd_str g' <> DASH) /\
  _poll_speeds lit_float (target_silent false)
    (idle_gui false "1500", init_world [] [])
  = (Raise TypeError, (idle_gui false "1500", init_world [] [])).
Proof.
  split; [| vm_compute; reflexivity].
  cbv zeta. split; [left; exists (LinkError "link down"); reflexivity |].
  vm_compute. repeat split; discriminate.
Qed.

Lemma str_empty_spec (s : string) : str_empty s = true <-> s = "".
Proof. destruct s; cbn; split; intros H; congruence. Qed.

Lemma found_assigned (path : string) (v : option bool) : found path v <> Unset.
Proof. destruct v; discriminate. Qed.

Lemma attempts_app (a b : list event) : attempts (a ++ b) = attempts a ++ attempts b.
Proof.
  induction a as [| ev a IH]; [reflexivity |].
  destruct ev; cbn [app attempts]; now rewrite ?IH.
Qed.

Lemma writes_app (a b : list event) : writes (a ++ b) = writes a ++ writes b.
Proof.
  induction a as [| ev a IH]; [reflexivity |].
  destruct ev; cbn [app writes]; now rewrite ?IH.
Qed.

Ltac try_raised :=
  cbv beta iota zeta; intros H; injection H as <- <- <-;
  split; [cbn; tauto |];
  split; [unfold keeps_handles; cbn; auto using found_assigned |];
  split; [exists []; split; [apply grows_refl |];
          split; [now left | discriminate] |];
  let LK := fresh "LK" in
  intros LK; unfold link_ok in LK; decompose [and ex] LK; congruence.

(** The [try] block of [_connect]: it leaves alone what is not a
    variable attribute or the port, takes no variable attribute away, the
    one write it tries is the 0 to the hardware-UI variable, and it
    returns normally exactly when none of its calls raises. *)
Lemma connect_try_spec (tgt : Target) (g g' : MotorGUI) (w w' : World)
    (r : res unit) :
  connect_try tgt (port_var g) (elf_path g) (g, w) = (r, (g', w')) ->
  (connected g' = connected g /\ start_btn g' = start_btn g /\
   _thread g' = _thread g /\ params g' = params g) /\
  keeps_handles g g' /\
  (exists evs,
     grows w w' evs /\
     (attempts evs = [] \/
      exists hu, attempts evs = [(hu, 0)] /\ h_path hu = HWUI_VAR) /\
     (r = Ok tt -> attempts evs <> [])) /\
  match r with
  | Ok _ =>
      link_ok tgt g w /\ scope g' <> None /\
      (exists h, hwui_var g' = Var h /\ h_path h = HWUI_VAR) /\
      cmd_var g' <> Unset /\ meas_var g' <> Unset /\
      run_var g' <> Unset /\ stop_var g' <> Unset
  | Raise _ => ~ link_ok tgt g w
  end.
Proof.
  unfold connect_try, scope_connect, scope_get_variable.
  cbn [USE_SCOPE negb].
  destruct (x2c_open tgt (port_var g)) as [[] | e0] eqn:E0; [| try_raised].
  destruct (x2c_import tgt (elf_path g)) as [[] | e1] eqn:E1; [| try_raised].
  cbn [scope set_scope set_hwui_var set_cmd_var set_meas_var set_run_var
       set_stop_var hwui_var].
  destruct (x2c_lookup tgt HWUI_VAR) as [v1 | e2] eqn:E2; cbn [bind];
    [| try_raised].
  destruct (x2c_lookup tgt VELOCITY_CMD) as [v2 | e3] eqn:E3; cbn [bind];
    [| try_raised].
  destruct (x2c_lookup tgt VELOCITY_MEAS) as [v3 | e4] eqn:E4; cbn [bind];
    [| try_raised].
  destruct (x2c_lookup tgt RUN_REQ_VAR) as [v4 | e5] eqn:E5; cbn [bind];
    [| try_raised].
  destruct (x2c_lookup tgt STOP_REQ_VAR) as [v5 | e6] eqn:E6; cbn [bind];
    [| try_raised].
  destruct v1 as [b1 |]; cbn [found]; [| cbn [write method]; try_raised].
  cbv beta iota zeta.
  destruct (write "hwui_var" (Var (mkHandle HWUI_VAR b1)) 0 w) as [r0 w0] eqn:W.
  apply (write_spec 0) in W.
  destruct r0 as [[] | e]; intros H; injection H as <- <- <-.
  - destruct W as (h & Eh & R & F). injection Eh as <-.
    split; [cbn; tauto |].
    split; [unfold keeps_handles; cbn; auto using found_assigned |].
    split.
    { exists [Write (now w0) (mkHandle HWUI_VAR b1) 0].
      split; [apply R |].
      split; [right; eexists; split; reflexivity | intros _; discriminate]. }
    split; [unfold link_ok; repeat split; eauto |].
    cbn. repeat split; eauto using found_assigned; discriminate.
  - destruct W as [[E _] | (h & Eh & R & d & fs & F)]; [discriminate |].
    injection Eh as <-.
    split; [cbn; tauto |].
    split; [unfold keeps_handles; cbn; auto using found_assigned |].
    split.
    { exists [WriteFailed (now w0) (mkHandle HWUI_VAR b1) 0].
      split; [apply R |].
      split; [right; eexists; split; reflexivity | intros _; discriminate]. }
    intros (_ & _ & _ & _ & _ & _ & _ & F'). exact (F' d e fs F).
Qed.

(** C10, as the code has it.  [_connect] from a disconnected GUI:
    [connected] becomes [True] exactly when the two text fields pass and
    no call of the [try] block raises (the port, the ELF import, the five
    look-ups, the write that disables the hardware UI); then the Start
    button is enabled.  Otherwise [connected] stays [False], the Start
    button is left as it was, and the last thing the call did is a message
    box. *)
Theorem connect_all_or_nothing (tgt : Target) (g : MotorGUI) (w : World) :
  connected g = false ->
  let gw' := _connect tgt (g, w) in
  (connected (fst gw') = true <-> inputs_ok tgt g /\ link_ok tgt g w) /\
  (connected (fst gw') = true -> start_btn (fst gw') = normal) /\
  (connected (fst gw') = false ->
   start_btn (fst gw') = start_btn g /\
   exists pre k title text,
     log (snd gw') = pre ++ [MsgBox (now (snd gw')) k title text]).
Proof.
  intros Hcon. cbv zeta. unfold _connect, inputs_ok.
  destruct (String.eqb_spec (port_var g) "") as [P1 | P1].
  { cbn [orb fst snd msgbox emit log now]. rewrite Hcon.
    repeat split; try discriminate; try tauto; eauto. }
  destruct (String.eqb_spec (port_var g) "-") as [P2 | P2].
  { cbn [orb fst snd msgbox emit log now]. rewrite Hcon.
    repeat split; try discriminate; try tauto; eauto. }
  destruct (str_empty (elf_path g)) eqn:P3.
  { apply str_empty_spec in P3.
    cbn [orb fst snd msgbox emit log now]. rewrite Hcon.
    repeat split; try discriminate; try tauto; eauto. }
  assert (P3' : elf_path g <> "").
  { intros E. apply str_empty_spec in E. congruence. }
  cbn [orb].
  destruct (is_file tgt (elf_path g)) eqn:P4; cbn [negb].
  2: { cbn [fst snd msgbox emit log now]. rewrite Hcon.
       repeat split; try discriminate; eauto.
       intros [(_ & _ & _ & E) _]. discriminate. }
  destruct (connect_try tgt (port_var g) (elf_path g) (g, w))
    as [r [g1 w1]] eqn:T.
  apply connect_try_spec in T as ((C1 & B1 & _) & _ & (evs & G1 & _) & X).
  destruct r as [[] | e].
  - unfold set_status.
    cbn [fst snd with_status connected start_btn set_connected set_conn_btn
         set_start_btn].
    split; [split; [intros _ | reflexivity] | split; [reflexivity | discriminate]].
    split; [| exact (proj1 X)]. repeat split; assumption.
  - cbn [fst snd msgbox emit log now]. rewrite C1, B1, Hcon.
    repeat split; try discriminate; eauto. tauto.
Qed.

(** On a target that answers every request but the first write. *)
Lemma connect_all_or_nothing_witness :
  let tgt := target_up false in
  let g := typed "motor.elf" "COM3" "1500" "0.19913" "10" "50" "3" init_gui in
  let w := init_world [(4194%nat, Some (LinkError "write timed out"))] [] in
  let gw' := _connect tgt (g, w) in
  (connected (fst gw') = true <-> inputs_ok tgt g /\ link_ok tgt g w) /\
  (connected (fst gw') = true -> start_btn (fst gw') = normal) /\
  (connected (fst gw') = false ->
   start_btn (fst gw') = start_btn g /\
   exists pre k title text,
     log (snd gw') = pre ++ [MsgBox (now (snd gw')) k title text]).
Proof.
  apply (connect_all_or_nothing (target_up false)
           (typed "motor.elf" "COM3" "1500" "0.19913" "10" "50" "3" init_gui)
           (init_world [(4194%nat, Some (LinkError "write timed out"))] []));
    reflexivity.
Defined.

(* ===================================================================== *)
(** ** What every callback leaves alone *)

Lemma grows_alive (w w' : World) (evs : list event) :
  grows w w' evs -> alive w' = alive w.
Proof. now intros (_ & _ & A & _). Qed.

Lemma keeps_handles_refl (g : MotorGUI) : keeps_handles g g.
Proof. unfold keeps_handles. tauto. Qed.

Lemma connect_shape (tgt : Target) (g : MotorGUI) (w : World) :
  params (fst (_connect tgt (g, w))) = params g /\
  _thread (fst (_connect tgt (g, w))) = _thread g /\
  alive (snd (_connect tgt (g, w))) = alive w /\
  keeps_handles g (fst (_connect tgt (g, w))) /\
  exists evs,
    log (snd (_connect tgt (g, w))) = log w ++ evs /\
    (attempts evs = [] \/
     exists hu, attempts evs = [(hu, 0)] /\ h_path hu = HWUI_VAR) /\
    (connected (fst (_connect tgt (g, w))) = true ->
     connected g = true \/
     (attempts evs <> [] /\
      scope (fst (_connect tgt (g, w))) <> None /\
      (exists h, hwui_var (fst (_connect tgt (g, w))) = Var h /\
                 h_path h = HWUI_VAR) /\
      cmd_var (fst (_connect tgt (g, w))) <> Unset /\
      meas_var (fst (_connect tgt (g, w))) <> Unset /\
      run_var (fst (_connect tgt (g, w))) <> Unset /\
      stop_var (fst (_connect tgt (g, w))) <> Unset)).
Proof.
  unfold _connect.
  destruct (_ || _ || _)%bool.
  { cbn. repeat split; try apply keeps_handles_refl.
    exists [MsgBox (now w) showwarning "Missing info"
              "Choose COM port and ELF file."].
    repeat split; auto. }
  destruct (negb _).
  { cbn. repeat split; try apply keeps_handles_refl.
    exists [MsgBox (now w) showerror "File not found"
              "ELF file does not exist."].
    repeat split; auto. }
  destruct (connect_try tgt (port_var g) (elf_path g) (g, w))
    as [r [g1 w1]] eqn:T.
  apply connect_try_spec in T
    as ((C & B & Th & P) & K & (evs & G & A & N) & X).
  destruct r as [[] | e].
  - unfold set_status. cbn [fst snd emit log alive].
    split; [exact P |]. split; [exact Th |].
    split; [exact (grows_alive _ _ _ G) |].
    split; [exact K |].
    exists (evs ++ [Status (now w1) ("Connected (" ++ port_var g ++ ")")]).
    rewrite (grows_log _ _ _ G), <- app_assoc, attempts_app.
    cbn [attempts]. rewrite app_nil_r.
    split; [reflexivity |]. split; [exact A |].
    intros _. right. split; [now apply N |]. cbn. tauto.
  - cbn [fst snd msgbox emit log alive].
    split; [exact P |]. split; [exact Th |].
    split; [exact (grows_alive _ _ _ G) |].
    split; [exact K |].
    exists (evs ++ [MsgBox (now w1) showerror "Connection failed" (str_exn e)]).
    rewrite (grows_log _ _ _ G), <- app_assoc, attempts_app.
    cbn [attempts]. rewrite app_nil_r.
    split; [reflexivity |]. split; [exact A |].
    intros C'. left. congruence.
Qed.

(** [_disconnect] touches the port, [connected], the buttons and the
    status line only. *)
Lemma disconnect_shape (tgt : Target) (g : MotorGUI) (w : World) :
  params (fst (snd (_disconnect tgt (g, w)))) = params g /\
  _thread (fst (snd (_disconnect tgt (g, w)))) = _thread g /\
  alive (snd (snd (_disconnect tgt (g, w)))) = alive w /\
  keeps_handles g (fst (snd (_disconnect tgt (g, w)))) /\
  (connected (fst (snd (_disconnect tgt (g, w)))) = true ->
   fst (snd (_disconnect tgt (g, w))) = g) /\
  exists evs, log (snd (snd (_disconnect tgt (g, w)))) = log w ++ evs.
Proof.
  unfold _disconnect.
  destruct (ensure_stopped g w) as [r w1] eqn:E.
  apply (ensure_stopped_spec 0) in E.
  assert (G : exists evs, grows w w1 evs).
  { destruct r as [[] | e]; [eexists; apply E |].
    destruct E as (h & d & _ & _ & R & _). eexists. apply R. }
  destruct G as [evs G].
  destruct r as [[] | e].
  2: { cbn [fst snd]. repeat split; try apply keeps_handles_refl;
         [exact (grows_alive _ _ _ G) | exists evs; apply G]. }
  unfold scope_disconnect. cbn [USE_SCOPE].
  destruct (scope g) as [port |] eqn:Sc;
    [destruct (x2c_close tgt) as [[] | e'] |];
    unfold set_status, keeps_handles; cbn [fst snd emit log alive];
    (split; [reflexivity |]); (split; [reflexivity |]);
    (split; [exact (grows_alive _ _ _ G) |]);
    (split; [cbn; tauto |]);
    (split; [cbn; try discriminate; try reflexivity |]);
    try (eexists; rewrite (grows_log _ _ _ G), <- app_assoc; reflexivity);
    try (exists evs; apply G).
Qed.

Lemma stop_shape (g : MotorGUI) (w : World) :
  (thread_alive (g, w) = false -> snd (_stop_seq (g, w)) = (g, w)) /\
  (exists s, fst (snd (_stop_seq (g, w))) = with_status s g) /\
  alive (snd (snd (_stop_seq (g, w)))) = alive w /\
  exists evs, log (snd (snd (_stop_seq (g, w)))) = log w ++ evs.
Proof.
  unfold _stop_seq. destruct (thread_alive (g, w)).
  2: { cbn. split; [reflexivity |]. split.
       - exists (status g). now rewrite with_status_id.
       - split; [reflexivity |]. exists []. now rewrite app_nil_r. }
  split; [discriminate |].
  destruct (write "stop_var" (stop_var g) 1 (flag_set w)) as [r w1] eqn:E.
  apply write_grows in E as [evs G].
  assert (L0 : log (flag_set w) = log w /\ alive (flag_set w) = alive w).
  { unfold flag_set. now destruct (is_set w). }
  destruct L0 as [L0 A0].
  pose proof (grows_log _ _ _ G) as L. rewrite L0 in L.
  pose proof (grows_alive _ _ _ G) as A. rewrite A0 in A.
  destruct r as [[] | e]; unfold set_status; cbn [fst snd emit log alive].
  - split; [eauto |]. split; [exact A |]. rewrite L, <- app_assoc. eauto.
  - split; [| split; [exact A | eauto]].
    exists (status g). now rewrite with_status_id.
Qed.

Ltac poll_case Id N :=
  first [ cbn [fst snd]; split; [exact Id | exact N]
        | unfold show_dashes; cbn [fst snd emit log alive];
          split; [eexists; eexists; reflexivity
                 | split; [reflexivity | eexists; split; reflexivity]] ].

(** A tick of the poller changes the two speed texts only, and writes
    nothing. *)
Lemma poll_shape (parse_float : string -> option float) (tgt : Target)
    (g : MotorGUI) (w : World) :
  (exists a b, fst (snd (_poll_speeds parse_float tgt (g, w)))
               = set_cmd_str b (set_meas_str a g)) /\
  alive (snd (snd (_poll_speeds parse_float tgt (g, w)))) = alive w /\
  exists evs,
    log (snd (snd (_poll_speeds parse_float tgt (g, w)))) = log w ++ evs /\
    attempts evs = [].
Proof.
  assert (Id : exists a b, g = set_cmd_str b (set_meas_str a g)).
  { exists (meas_str g), (cmd_str g). now destruct g. }
  assert (N : alive w = alive w /\
              exists evs, log w = log w ++ evs /\ attempts evs = []).
  { split; [reflexivity |]. exists []. now rewrite app_nil_r. }
  unfold _poll_speeds.
  destruct (connected g); [| poll_case Id N].
  destruct (read_counts tgt g) as [m c]. unfold show_speeds, float_of.
  destruct (parse_float (scale_entry g)) as [scale |]; cbn [bind];
    [| poll_case Id N].
  destruct (operand m) as [cm | e]; cbn [bind];
    [| destruct e; poll_case Id N].
  destruct (toRPM cm scale) as [rm | e]; cbn [bind];
    [| destruct e; poll_case Id N].
  destruct (operand c) as [cc | e]; cbn [bind];
    [| destruct e; poll_case Id N].
  destruct (toRPM cc scale) as [rc | e]; cbn [bind];
    [| destruct e; poll_case Id N].
  poll_case Id N.
Qed.

Lemma read_params_ok (parse_float : string -> option float)
    (parse_int : string -> option Z) (g : MotorGUI)
    (rpm scale run_t stop_t : float) (cycles : Z) :
  read_params parse_float parse_int g = Ok (rpm, scale, run_t, stop_t, cycles) ->
  parse_float (speed_entry g) = Some rpm /\
  parse_float (scale_entry g) = Some scale /\
  parse_float (run_entry g) = Some run_t /\
  parse_float (stop_entry g) = Some stop_t /\
  parse_int (cycle_entry g) = Some cycles /\
  le0 scale = false /\ le0 run_t = false /\ lt0 stop_t = false /\ 0 < cycles.
Proof.
  unfold read_params, float_of, int_of.
  destruct (parse_float (speed_entry g)) as [a |]; [| discriminate].
  destruct (parse_float (scale_entry g)) as [b |]; [| discriminate].
  destruct (parse_float (run_entry g)) as [c |]; [| discriminate].
  destruct (parse_float (stop_entry g)) as [d |]; [| discriminate].
  destruct (parse_int (cycle_entry g)) as [n |]; [| discriminate].
  cbn [bind].
  destruct (le0 b) eqn:E1; [discriminate |].
  destruct (le0 c) eqn:E2; [discriminate |].
  destruct (lt0 d) eqn:E3; [discriminate |].
  destruct (n <=? 0) eqn:E4; [discriminate |].
  cbn [orb]. intros H. injection H as <- <- <- <- <-.
  apply Z.leb_gt in E4. repeat split; auto.
Qed.

Lemma start_shape (parse_float : string -> option float)
    (parse_int : string -> option Z) (g : MotorGUI) (w : World) :
  (fst (_start_seq parse_float parse_int (g, w)) = g /\
   alive (snd (_start_seq parse_float parse_int (g, w))) = alive w /\
   exists evs, log (snd (_start_seq parse_float parse_int (g, w))) = log w ++ evs /\
               attempts evs = []) \/
  (thread_alive (g, w) = false /\ connected g = true /\
   exists p,
     read_params parse_float parse_int g = Ok p /\
     _start_seq parse_float parse_int (g, w)
     = (set_stop_btn normal
          (set_start_btn disabled
             (set__thread (Some (spawned w)) (set_params (Some p) g))),
        snd (thread_start (flag_clear w)))).
Proof.
  unfold _start_seq.
  destruct (thread_alive (g, w)).
  { left. split; [reflexivity |]. split; [reflexivity |].
    exists []. now rewrite app_nil_r. }
  destruct (read_params parse_float parse_int g) as [p | e].
  2: { left. split; [reflexivity |]. cbn. eauto. }
  destruct (connected g); cbn [USE_SCOPE andb negb].
  - right. split; [reflexivity |]. split; [reflexivity |].
    exists p. split; reflexivity.
  - left. split; [reflexivity |]. cbn. eauto.
Qed.

(** A run of the worker changes the status line only. *)
Lemma worker_shape (fuel : nat) (g g' : MotorGUI) (w w' : World) (r : res unit) :
  _run_sequence fuel (g, w) = Some (r, (g', w')) ->
  (exists s, g' = with_status s g) /\ alive w' = alive w /\
  exists evs, log w' = log w ++ evs.
Proof.
  intros H. apply (run_spec (longest w)) in H as (evs & G & X);
    [| apply sleeps_within_longest].
  split.
  - destruct r.
    + destruct X as (pre & w1 & _ & _ & -> & _). eauto.
    + destruct X as [-> _]. eauto.
  - split; [exact (grows_alive _ _ _ G) | exists evs; apply G].
Qed.

Lemma hwui_first_app (l evs : list event) :
  hwui_first l -> attempts l <> [] -> hwui_first (l ++ evs).
Proof.
  unfold hwui_first. rewrite attempts_app.
  destruct (attempts l) as [| [h v] rest]; [congruence |]. auto.
Qed.

Lemma attempts_nonempty_app (l evs : list event) :
  attempts l <> [] -> attempts (l ++ evs) <> [].
Proof.
  rewrite attempts_app. destruct (attempts l); [congruence | discriminate].
Qed.

Lemma hwui_first_quiet (l evs : list event) :
  hwui_first l -> attempts evs = [] -> hwui_first (l ++ evs).
Proof.
  unfold hwui_first. rewrite attempts_app. intros H ->. now rewrite app_nil_r.
Qed.

(* ===================================================================== *)
(** ** What holds of every state the program reaches *)

Section Invariant.

Variable parse_float : string -> option float.
Variable parse_int : string -> option Z.

Lemma inv_step (gw gw' : MotorGUI * World) :
  inv gw -> inv_conn gw -> inv_params gw -> inv_first gw ->
  step parse_float parse_int gw gw' ->
  inv gw' /\ inv_conn gw' /\ inv_params gw' /\ inv_first gw'.
Proof.
  intros (I1 & I2 & I3) IC [IP1 IP2] [IF1 IF2] St.
  unfold inv, inv_conn, inv_params, inv_first in *.
  destruct St; cbn [fst snd] in *.
  - (* the user types *)
    repeat split; auto; try (now apply I3); try (now apply IC).
  - (* the connection button *)
    destruct gw as [g w]. unfold _toggle_conn. cbn [fst snd] in *.
    destruct (connected g) eqn:C.
    + destruct (disconnect_shape tgt g w) as (P & T & A & (K1 & K2 & K3) & K & evs & L).
      rewrite P, T, A, L.
      assert (At : attempts (log w) <> []) by (apply IF1; now left).
      destruct (I3 (or_introl eq_refl)) as (H1 & H2 & H3).
      split; [split; [exact I1 | split; [exact I2 | intros _; auto]] |].
      split; [intros C'; rewrite (K C'); now apply IC |].
      split; [split; assumption |].
      split; [intros _; now apply attempts_nonempty_app
             | now apply hwui_first_app].
    + cbn [snd].
      destruct (connect_shape tgt g w) as (P & T & A & (K1 & K2 & K3) & evs & L & At & K).
      rewrite P, T, A, L.
      split.
      { split; [exact I1 |]. split; [exact I2 |].
        intros [C' | T'].
        - destruct (K C') as [F | (_ & _ & _ & X)]; [congruence | tauto].
        - destruct (I3 (or_intror T')) as (H1 & H2 & H3). auto. }
      split.
      { intros C'. destruct (K C') as [F | (_ & X)]; [congruence | exact X]. }
      split; [split; assumption |].
      split.
      * intros [C' | T'].
        -- destruct (K C') as [F | (X & _)]; [congruence |].
           rewrite attempts_app. intros E.
           apply app_eq_nil in E as [_ E]. contradiction.
        -- apply attempts_nonempty_app. apply IF1. now right.
      * destruct (attempts (log w)) as [| x rest] eqn:E.
        -- unfold hwui_first. rewrite attempts_app, E. cbn [app].
           destruct At as [-> | (hu & -> & Hu)]; [exact I |].
           split; [reflexivity | exact Hu].
        -- apply hwui_first_app; [exact IF2 | congruence].
  - (* START *)
    destruct gw as [g w]. cbn [fst snd] in *.
    destruct (start_shape parse_float parse_int g w)
      as [(G & A & evs & L & At) | (TA & C & p & RP & E)].
    + rewrite G, A, L.
      split; [split; [exact I1 | split; [exact I2 | exact I3]] |].
      split; [exact IC |]. split; [split; assumption |].
      split; [| now apply hwui_first_quiet].
      intros X. rewrite attempts_app, At, app_nil_r. now apply IF1.
    + rewrite E. unfold thread_start, flag_clear. cbn.
      assert (At : attempts (log w) <> []) by (apply IF1; now left).
      assert (Hnil : alive w = []).
      { destruct (alive w) as [| t al] eqn:Ha; [reflexivity | exfalso].
        unfold thread_alive in TA. cbn [fst snd] in TA.
        rewrite (I1 t) in TA by now left.
        cbv beta iota in TA. rewrite Ha in TA. cbn [existsb] in TA.
        rewrite Nat.eqb_refl in TA. discriminate. }
      rewrite Hnil.
      destruct (I3 (or_introl C)) as (H1 & H2 & H3).
      split.
      { split; [intros tid [X | []]; now rewrite X |].
        split; [constructor; [intros [] | constructor] | intros _; auto]. }
      split; [exact IC |]. split; [split |].
      * intros p' Hp. injection Hp as <-.
        destruct p as [[[[rpm scale] run_t] stop_t] cycles].
        apply read_params_ok in RP. unfold params_ok. tauto.
      * discriminate.
      * split; [intros _; now apply attempts_nonempty_app
               | now apply hwui_first_app].
  - (* STOP *)
    destruct gw as [g w]. cbn [fst snd] in *.
    destruct (stop_shape g w) as (N & [s G] & A & evs & L).
    destruct (thread_alive (g, w)) eqn:TA.
    + assert (At : attempts (log w) <> []).
      { apply IF1. right. unfold thread_alive in TA. cbn [fst] in TA.
        destruct (_thread g); [discriminate | discriminate]. }
      rewrite G, A, L. cbn.
      split; [split; [exact I1 | split; [exact I2 | exact I3]] |].
      split; [exact IC |]. split; [split; assumption |].
      split; [intros _; now apply attempts_nonempty_app
             | now apply hwui_first_app].
    + rewrite (N eq_refl). cbn [fst snd].
      repeat split; auto; try (now apply I3); try (now apply IC).
  - (* a tick of the poller *)
    destruct gw as [g w]. cbn [fst snd] in *.
    destruct (poll_shape parse_float tgt g w) as ([a [b G]] & A & evs & L & At).
    rewrite G, A, L. cbn.
    split; [split; [exact I1 | split; [exact I2 | exact I3]] |].
    split; [exact IC |]. split; [split; assumption |].
    split; [| now apply hwui_first_quiet].
    intros X. rewrite attempts_app, At, app_nil_r. now apply IF1.
  - (* time passes *)
    repeat split; auto; try (now apply I3); try (now apply IC).
  - (* the worker returns *)
    destruct gw as [g w]. cbn [fst snd] in *.
    apply worker_shape in H0 as ([s ->] & A & evs & L).
    unfold thread_exit. cbn. rewrite A, L.
    assert (At : attempts (log w) <> []).
    { apply IF1. right. rewrite (I1 tid H). discriminate. }
    split.
    { split; [intros t Hin; apply filter_In in Hin as [Hin _]; exact (I1 t Hin) |].
      split; [now apply NoDup_filter | exact I3]. }
    split; [exact IC |]. split; [split; assumption |].
    split; [intros _; now apply attempts_nonempty_app
           | now apply hwui_first_app].
  - (* the buttons are reset *)
    repeat split; auto; try (now apply I3); try (now apply IC).
Qed.

Lemma inv_reachable (gw : MotorGUI * World) :
  reachable parse_float parse_int gw ->
  inv gw /\ inv_conn gw /\ inv_params gw /\ inv_first gw.
Proof.
  induction 1 as [fs os | gw gw' R IH St].
  - unfold inv, inv_conn, inv_params, inv_first, hwui_first. cbn.
    split; [split; [tauto | split; [apply NoDup_nil |
              intros [F | F]; [discriminate | congruence]]] |].
    split; [discriminate |].
    split; [split; [discriminate | congruence] |].
    split; [intros [F | F]; [discriminate | congruence] | exact I].
  - destruct IH as (I & IC & IP & IF).
    exact (inv_step gw gw' I IC IP IF St).
Qed.

End Invariant.

(** [_stop_seq] with a live worker raises the flag at once: from then on
    [is_set] answers [True], and the flag's time is the time of the call
    when it was down before. *)
Lemma stop_seq_raises_flag (gw : MotorGUI * World) :
  thread_alive gw = true ->
  is_set (snd (snd (_stop_seq gw))) = true /\
  (is_set (snd gw) = false ->
   cancel_at (snd (snd (_stop_seq gw))) = Some (now (snd gw))).
Proof.
  intros TA. unfold _stop_seq. rewrite TA. destruct gw as [g w]. cbn [snd].
  destruct (write "stop_var" (stop_var g) 1 (flag_set w)) as [r w1] eqn:E.
  apply write_grows in E as [evs G].
  pose proof (grows_cancel _ _ _ G) as C. pose proof (grows_now _ _ _ G) as T.
  assert (S1 : is_set w1 = true /\
               (is_set w = false -> cancel_at w1 = Some (now w))).
  { unfold is_set at 1. rewrite C. unfold flag_set in *.
    destruct (is_set w) eqn:S0.
    - split; [| discriminate]. unfold is_set in S0.
      destruct (cancel_at w) as [tc |]; [| discriminate].
      apply Z.leb_le in S0. apply Z.leb_le. lia.
    - cbn [cancel_at now] in *. split; [apply Z.leb_le; lia | reflexivity]. }
  destruct r as [[] | e]; unfold set_status; cbn [fst snd]; exact S1.
Qed.

Lemma at_most_one (l : list nat) (x : option nat) :
  (forall t, In t l -> x = Some t) -> NoDup l -> (List.length l <= 1)%nat.
Proof.
  intros H N. destruct l as [| a [| b l]]; cbn; try lia.
  exfalso. inversion N as [| ? ? Hn _]; subst. apply Hn.
  assert (Some a = Some b) as E.
  { rewrite <- (H a), <- (H b); cbn; auto. }
  injection E as ->. now left.
Qed.

(** C8. In every state the program reaches, [_start_seq] called while
    the worker is alive returns at once and changes nothing: the GUI
    object, the stored parameters, the stop flag, the threads and the log
    are the same, so no thread is started and nothing is written; and at
    most one worker is alive. *)
Theorem start_while_running_is_ignored
    (parse_float : string -> option float) (parse_int : string -> option Z)
    (gw : MotorGUI * World) :
  reachable parse_float parse_int gw ->
  (thread_alive gw = true -> _start_seq parse_float parse_int gw = gw) /\
  (List.length (alive (snd gw)) <= 1)%nat.
Proof.
  intros R. split.
  - intros TA. unfold _start_seq. now rewrite TA.
  - apply inv_reachable in R as ((I1 & I2 & _) & _).
    exact (at_most_one _ _ I1 I2).
Qed.

(** The states of the examples: the ELF file and the port typed, then
    connected, then START pressed. *)
Lemma reach_typed (fs : list (nat * option exn)) (os : list nat) :
  reachable lit_float lit_int
    (typed "motor.elf" "COM3" "1500" "0.19913" "10" "50" "3" init_gui,
     init_world fs os).
Proof.
  apply (reach_step lit_float lit_int (init_gui, init_world fs os));
    [apply reach_init | apply step_typed].
Qed.

Lemma reach_connected (tgt : Target) (fs : list (nat * option exn)) (os : list nat) :
  reachable lit_float lit_int
    (snd (_toggle_conn tgt
            (typed "motor.elf" "COM3" "1500" "0.19913" "10" "50" "3" init_gui,
             init_world fs os))).
Proof.
  eapply reach_step; [apply reach_typed | apply step_toggle_conn].
Qed.

Lemma reach_started (tgt : Target) (fs : list (nat * option exn)) (os : list nat) :
  reachable lit_float lit_int
    (_start_seq lit_float lit_int
       (snd (_toggle_conn tgt
               (typed "motor.elf" "COM3" "1500" "0.19913" "10" "50" "3" init_gui,
                init_world fs os)))).
Proof.
  eapply reach_step; [apply reach_connected | apply step_start].
Qed.

(** In the state reached by typing the ELF file and the port, connecting
    and pressing START. *)
Lemma start_while_running_is_ignored_witness :
  let gw :=
    _start_seq lit_float lit_int
      (snd (_toggle_conn (target_up false)
              (typed "motor.elf" "COM3" "1500" "0.19913" "10" "50" "3" init_gui,
               init_world [] []))) in
  (thread_alive gw = true -> _start_seq lit_float lit_int gw = gw) /\
  (List.length (alive (snd gw)) <= 1)%nat.
Proof.
  exact (start_while_running_is_ignored lit_float lit_int _
           (reach_started (target_up false) [] [])).
Defined.

Example running_state_has_live_worker :
  thread_alive
    (_start_seq lit_float lit_int
       (snd (_toggle_conn (target_up false)
               (typed "motor.elf" "COM3" "1500" "0.19913" "10" "50" "3" init_gui,
                init_world [] []))))
  = true.
Proof. vm_compute. reflexivity. Qed.

(** C10, as stated, fails, in two ways.  The ELF file has no stop request
    variable, so its look-up returns [None]: nothing raises, the GUI is
    connected and the Start button enabled, with [None] where the
    variable should be.  And the Start button need not be disabled when a
    connect fails: after Connect, START and Disconnect, the worker that
    is still running finishes and its button reset enables Start on the
    disconnected GUI; a Connect that then fails (the port does not open)
    reports the error, leaves [connected] false and Start enabled. *)
Lemma missing_variable_goes_unnoticed :
  (let tgt := target_without false STOP_REQ_VAR in
   let gw' := _connect tgt
                (typed "motor.elf" "COM3" "1500" "0.19913" "10" "50" "3" init_gui,
                 init_world [] []) in
   x2c_lookup tgt STOP_REQ_VAR = Ok None /\
   connected (fst gw') = true /\
   start_btn (fst gw') = normal /\
   stop_var (fst gw') = PyNone) /\
  (let busy := mkTarget (fun _ => true) (fun _ => Raise (LinkError "port busy"))
                        (fun _ => Ok tt) (fun _ => Ok (Some false))
                        (fun _ => Ok (Some 0)) (Ok tt) in
   let gw1 := _start_seq lit_float lit_int
                (snd (_toggle_conn (target_up false)
                        (typed "motor.elf" "COM3" "1500" "0.19913" "10" "50" "3"
                               init_gui,
                         init_world [] []))) in
   let gw2 := snd (_toggle_conn (target_up false) gw1) in
   let gw3 := (reset_buttons (gui_after 1001 gw2),
               thread_exit 0 (world_after 1001 gw2)) in
   let gw4 := _connect busy gw3 in
   reachable lit_float lit_int gw3 /\
   connected (fst gw3) = false /\
   start_btn (fst gw3) = normal /\
   connected (fst gw4) = false /\
   start_btn (fst gw4) = normal /\
   exists t k title text, In (MsgBox t k title text) (log (snd gw4))).
Proof.
  split; [vm_compute; repeat split; reflexivity |].
  cbv zeta. split.
  - eapply reach_step.
    + eapply reach_step.
      * eapply reach_step; [apply (reach_started (target_up false) [] []) |].
        apply (step_toggle_conn lit_float lit_int (target_up false)).
      * apply (step_worker lit_float lit_int 1001 0%nat _ (Ok tt)
                 (gui_after 1001
                    (snd (_toggle_conn (target_up false)
                            (_start_seq lit_float lit_int
                               (snd (_toggle_conn (target_up false)
                                       (typed "motor.elf" "COM3" "1500" "0.19913"
                                              "10" "50" "3" init_gui,
                                        init_world [] [])))))))
                 (world_after 1001
                    (snd (_toggle_conn (target_up false)
                            (_start_seq lit_float lit_int
                               (snd (_toggle_conn (target_up false)
                                       (typed "motor.elf" "COM3" "1500" "0.19913"
                                              "10" "50" "3" init_gui,
                                        init_world [] [])))))))).
        -- vm_compute. now left.
        -- vm_compute. reflexivity.
    + eapply (step_reset lit_float lit_int).
      vm_compute. repeat (first [left; reflexivity | right]).
  - split; [vm_compute; reflexivity |].
    split; [vm_compute; reflexivity |].
    split; [vm_compute; reflexivity |].
    split; [vm_compute; reflexivity |].
    eexists _, _, _, _. vm_compute.
    repeat (first [left; reflexivity | right]).
Qed.

(* ===================================================================== *)
(** ** More about the worker *)




(** X3. A run time of [inf] passes the check of [_start_seq] ([inf <= 0] is
    false), and the RUN phase of the first cycle then has no end of its
    own: whatever the number of turns allowed to the wait loop, a worker
    that nobody stops does not return. *)
Theorem infinite_run_time_needs_a_stop
    (fuel : nat) (g : MotorGUI) (w : World)
    (rpm scale stop_t : float) (cycles cnt : Z) (hc hr : handle) :
  params g = Some (rpm, scale, S754_infinity false, stop_t, cycles) ->
  0 < cycles ->
  toCounts rpm scale = Ok cnt ->
  cmd_var g = Var hc -> run_var g = Var hr ->
  cancel_at w = None -> faults w = [] ->
  le0 (S754_infinity false) = false /\
  _run_sequence fuel (g, w) = None.
Proof.
  intros Hp Hcy Hc H1 H2 Hn Hf. split; [reflexivity |].
  apply (run_forever fuel g w rpm scale stop_t cycles cnt hc hr); try assumption.
  unfold quiet. rewrite Hf. apply Forall_nil.
Qed.

(** With the default speed and scale, a run time of [inf] and three
    iterations. *)
Lemma infinite_run_time_needs_a_stop_witness :
  le0 (S754_infinity false) = false /\
  _run_sequence 1000
    (running_gui false (decimal 1500 0, decimal 19913 5, S754_infinity false,
                        decimal 50 0, 3),
     running_world None [] [])
  = None.
Proof.
  apply (infinite_run_time_needs_a_stop 1000
           (running_gui false (decimal 1500 0, decimal 19913 5, S754_infinity false,
                               decimal 50 0, 3))
           (running_world None [] [])
           (decimal 1500 0) (decimal 19913 5) (decimal 50 0) 3 7533
           (mkHandle VELOCITY_CMD false) (mkHandle RUN_REQ_VAR false));
    try reflexivity.
Defined.

Lemma for_cycles_flag_up (fuel : nat) (p : params_t) (cnt : Z) (ns : list Z)
    (gw : MotorGUI * World) :
  is_set (snd gw) = true ->
  for_cycles fuel p cnt ns gw = Some (None, gw).
Proof.
  intros S. destruct ns as [| n ns]; [reflexivity |].
  cbn [for_cycles]. unfold cycle.
  destruct p as [[[[rpm scale] run_t] stop_t] cycles]. now rewrite S.
Qed.

Lemma is_set_later (w w' : World) (evs : list event) :
  grows w w' evs -> is_set w = true -> is_set w' = true.
Proof.
  intros G S. unfold is_set in *. rewrite (grows_cancel _ _ _ G).
  destruct (cancel_at w) as [tc |]; [| discriminate].
  apply Z.leb_le in S. apply Z.leb_le. pose proof (grows_now _ _ _ G). lia.
Qed.

(** X4. A worker that finds the stop flag up when it starts (STOP was
    pressed before its first look at the flag), with a speed that converts
    and no write raising, does not start the motor: it writes nothing but
    the stop request, and that only if the variable object is true, and
    ends in the state "Stopped by user". *)
Theorem flag_up_at_start_writes_only_stop
    (fuel : nat) (g : MotorGUI) (w : World)
    (rpm scale run_t stop_t : float) (cycles cnt : Z) (hs : handle) :
  params g = Some (rpm, scale, run_t, stop_t, cycles) ->
  toCounts rpm scale = Ok cnt ->
  stop_var g = Var hs ->
  is_set w = true ->
  quiet (faults w) ->
  exists w',
    _run_sequence fuel (g, w)
    = Some (Ok tt, (with_status STOPPED_BY_USER g, w')) /\
    (h_truthy hs = false -> now w' = now w) /\
    log w' = log w
             ++ (if h_truthy hs then [Write (now w') hs 1] else [])
             ++ [Status (now w') STOPPED_BY_USER;
                 After (now w') 0 cb_reset_buttons].
Proof.
  intros Hp Hc Hs S Q.
  unfold _run_sequence. cbn [fst]. rewrite Hp. cbn [getattr]. rewrite Hc.
  rewrite for_cycles_flag_up by exact S.
  unfold ensure_stopped, truthy. rewrite Hs.
  destruct (h_truthy hs) eqn:T.
  - destruct (write_quiet 0 "stop_var" hs 1 w Q) as (w1 & -> & [G _]).
    rewrite (is_set_later _ _ _ G S). unfold set_status. cbn [fst snd].
    eexists. split; [reflexivity |]. cbn [now log emit].
    split; [discriminate |].
    now rewrite (grows_log _ _ _ G), <- !app_assoc.
  - rewrite S. unfold set_status. cbn [fst snd].
    eexists. split; [reflexivity |]. cbn [now log emit app].
    split; [reflexivity |]. now rewrite <- !app_assoc.
Qed.

(** STOP pressed in the instant of START, with variable objects that are
    true. *)
Lemma flag_up_at_start_writes_only_stop_witness :
  let g := running_gui true (default_params 3) in
  let w := running_world (Some 0) [] [] in
  let hs := mkHandle STOP_REQ_VAR true in
  exists w',
    _run_sequence 0 (g, w)
    = Some (Ok tt, (with_status STOPPED_BY_USER g, w')) /\
    (true = false -> now w' = now w) /\
    log w' = log w
             ++ [Write (now w') hs 1]
             ++ [Status (now w') STOPPED_BY_USER;
                 After (now w') 0 cb_reset_buttons].
Proof.
  apply (flag_up_at_start_writes_only_stop 0
           (running_gui true (default_params 3)) (running_world (Some 0) [] [])
           (decimal 1500 0) (decimal 19913 5) (decimal 10 0) (decimal 50 0)
           3 7533 (mkHandle STOP_REQ_VAR true));
    try reflexivity. apply Forall_nil.
Defined.

(* --------------------------------------------------------------------- *)
(** *** The text fields during a run *)

Section Edits.

Variables elf port speed scale run stop iters : string.

Let T : MotorGUI -> MotorGUI := typed elf port speed scale run stop iters.

Let lift {A : Type} (x : option (A * (MotorGUI * World)))
    : option (A * (MotorGUI * World)) :=
  option_map (fun y => (fst y, (T (fst (snd y)), snd (snd y)))) x.

Lemma cycle_typed (fuel : nat) (p : params_t) (cnt n : Z)
    (g : MotorGUI) (w : World) :
  cycle fuel p cnt n (T g, w) = lift (cycle fuel p cnt n (g, w)).
Proof.
  unfold cycle. destruct p as [[[[rpm sc] run_t] stop_t] cycles].
  cbn [snd]. destruct (is_set w); [reflexivity |].
  unfold set_status. cbn [fst snd].
  change (cmd_var (with_status (run_msg n cycles rpm) (T g))) with (cmd_var g).
  change (cmd_var (with_status (run_msg n cycles rpm) g)) with (cmd_var g).
  destruct (write "cmd_var" (cmd_var g) cnt _) as [[[] | e] w1]; [| reflexivity].
  change (run_var (with_status (run_msg n cycles rpm) (T g))) with (run_var g).
  change (run_var (with_status (run_msg n cycles rpm) g)) with (run_var g).
  destruct (write "run_var" (run_var g) 1 w1) as [[[] | e] w2]; [| reflexivity].
  destruct (wait fuel run_t (now w2) w2) as [w3 |]; [| reflexivity].
  destruct (is_set w3); [reflexivity |]. cbn [fst snd].
  change (stop_var (with_status (stop_msg n cycles)
                      (with_status (run_msg n cycles rpm) (T g))))
    with (stop_var g).
  change (stop_var (with_status (stop_msg n cycles)
                      (with_status (run_msg n cycles rpm) g)))
    with (stop_var g).
  destruct (write "stop_var" (stop_var g) 1 _) as [[[] | e] w4]; [| reflexivity].
  destruct (wait fuel stop_t (now w4) w4) as [w5 |]; reflexivity.
Qed.

Lemma for_cycles_typed (fuel : nat) (p : params_t) (cnt : Z) (ns : list Z) :
  forall (g : MotorGUI) (w : World),
    for_cycles fuel p cnt ns (T g, w) = lift (for_cycles fuel p cnt ns (g, w)).
Proof.
  induction ns as [| n ns IH]; intros g w; [reflexivity |].
  cbn [for_cycles]. rewrite cycle_typed.
  destruct (cycle fuel p cnt n (g, w)) as [[fl [g1 w1]] |]; [| reflexivity].
  cbn [lift option_map fst snd]. destruct fl; [apply IH | reflexivity ..].
Qed.

(** X5. The worker takes everything from the tuple stored at START: editing
    the text fields (speed, scale, times, iterations, port, ELF path)
    before or while it runs changes nothing of what it does; its run on
    the edited GUI is its run on the unedited one, with the same outcome,
    the same log and the same clock. *)
Theorem edits_do_not_reach_the_worker (fuel : nat) (gw : MotorGUI * World) :
  _run_sequence fuel (retyped elf port speed scale run stop iters gw)
  = option_map
      (fun x => (fst x, retyped elf port speed scale run stop iters (snd x)))
      (_run_sequence fuel gw).
Proof.
  destruct gw as [g w]. unfold retyped, _run_sequence. cbn [fst snd].
  change (params (typed elf port speed scale run stop iters g)) with (params g).
  destruct (getattr "params" (params g)) as [p | e]; [| reflexivity].
  destruct p as [[[[rpm sc] run_t] stop_t] cycles].
  destruct (toCounts rpm sc) as [cnt | e]; [| reflexivity].
  pose proof (for_cycles_typed fuel (rpm, sc, run_t, stop_t, cycles) cnt
                (range 1 (cycles + 1)) g w) as E.
  unfold T in E. rewrite E. clear E.
  destruct (for_cycles fuel (rpm, sc, run_t, stop_t, cycles) cnt
              (range 1 (cycles + 1)) (g, w)) as [[[e |] [g1 w1]] |];
    [reflexivity | | reflexivity].
  cbn [lift option_map fst snd]. unfold ensure_stopped.
  change (stop_var (T g1)) with (stop_var g1).
  destruct (truthy (stop_var g1)); [| reflexivity].
  destruct (write "stop_var" (stop_var g1) 1 w1) as [[[] | e] w2]; reflexivity.
Qed.

End Edits.

(* --------------------------------------------------------------------- *)
(** *** A speed that is not a number *)

(** A speed that is not finite does not convert: the division gives
    [nan] or an infinity and [round] raises, whatever the scale that
    passed the check. *)
Lemma toCounts_not_finite (rpm scale : float) :
  is_finite rpm = false ->
  le0 scale = false ->
  toCounts rpm scale = Raise ValueError \/ toCounts rpm scale = Raise OverflowError.
Proof.
  intros F P. unfold toCounts, truediv.
  destruct rpm as [sx | sx | | sx mx ex]; try discriminate;
    destruct scale as [sy | sy | | sy my ey]; try discriminate;
    cbn; auto.
Qed.

(** X6. START takes a speed of [nan] or [inf] (only the scale, the times and
    the iterations are checked).  The worker it starts then dies at once
    of the exception [round] raises, before it wrote anything or touched
    the status line: the state it leaves is the state it found, with the
    START button disabled and no reset of the buttons scheduled. *)
Theorem speed_not_finite_ends_the_worker
    (parse_float : string -> option float) (parse_int : string -> option Z)
    (fuel : nat) (g : MotorGUI) (w : World)
    (rpm scale run_t stop_t : float) (cycles : Z) :
  thread_alive (g, w) = false ->
  connected g = true ->
  read_params parse_float parse_int g = Ok (rpm, scale, run_t, stop_t, cycles) ->
  is_finite rpm = false ->
  let gw1 := _start_seq parse_float parse_int (g, w) in
  thread_alive gw1 = true /\
  start_btn (fst gw1) = disabled /\
  exists e,
    (e = ValueError \/ e = OverflowError) /\
    _run_sequence fuel gw1 = Some (Raise e, gw1).
Proof.
  intros TA C RP F. cbv zeta. unfold _start_seq. rewrite TA, RP, C.
  cbn [USE_SCOPE andb negb]. unfold thread_start, flag_clear.
  cbn [fst snd spawned alive now cancel_at faults overruns log].
  split; [| split; [reflexivity |]].
  - unfold thread_alive. cbn. now rewrite Nat.eqb_refl.
  - apply read_params_ok in RP as (_ & _ & _ & _ & _ & P & _).
    unfold _run_sequence. cbn [fst params set_params set__thread set_start_btn
                               set_stop_btn getattr].
    destruct (toCounts_not_finite rpm scale F P) as [E | E]; rewrite E;
      [exists ValueError | exists OverflowError]; split; auto.
Qed.

(** With "nan" typed as the speed. *)
Lemma speed_not_finite_ends_the_worker_witness :
  let gw1 := _start_seq lit_float_ext lit_int
               (idle_gui false "nan", init_world [] []) in
  thread_alive gw1 = true /\
  start_btn (fst gw1) = disabled /\
  exists e,
    (e = ValueError \/ e = OverflowError) /\
    _run_sequence 1001 gw1 = Some (Raise e, gw1).
Proof.
  apply (speed_not_finite_ends_the_worker lit_float_ext lit_int 1001
           (idle_gui false "nan") (init_world [] [])
           S754_nan (decimal 19913 5) (decimal 10 0) (decimal 50 0) 3);
    reflexivity.
Defined.

(* ===================================================================== *)
(** ** More about the GUI thread *)

Lemma cons_neq {A : Type} (x : A) (l : list A) : x :: l <> l.
Proof.
  intros E. apply (f_equal (@List.length A)) in E. cbn in E. lia.
Qed.

(** X7. START starts a worker exactly when no worker is alive, the entries
    pass the check and the GUI is connected.  Then there is one more
    thread, the one [_thread] names; the stop flag is down, whatever an
    earlier STOP left; the parameters read from the entries are stored;
    START is disabled and STOP enabled.  In every other case the GUI
    object, the threads and the flag are as before and nothing is written;
    when only the connection is missing, the one effect is the "Not
    connected" box. *)
Theorem start_runs_a_worker_exactly_when_accepted
    (parse_float : string -> option float) (parse_int : string -> option Z)
    (g : MotorGUI) (w : World) :
  let gw' := _start_seq parse_float parse_int (g, w) in
  let accepted :=
    thread_alive (g, w) = false /\ connected g = true /\
    exists p, read_params parse_float parse_int g = Ok p in
  (alive (snd gw') <> alive w <-> accepted) /\
  (accepted ->
   alive (snd gw') = spawned w :: alive w /\
   thread_alive gw' = true /\
   cancel_at (snd gw') = None /\
   (exists p, read_params parse_float parse_int g = Ok p /\
              params (fst gw') = Some p) /\
   start_btn (fst gw') = disabled /\ stop_btn (fst gw') = normal /\
   log (snd gw') = log w ++ [ThreadStart (now w) (spawned w)]) /\
  (~ accepted ->
   fst gw' = g /\ cancel_at (snd gw') = cancel_at w /\
   writes (log (snd gw')) = writes (log w) /\
   (thread_alive (g, w) = false ->
    (exists p, read_params parse_float parse_int g = Ok p) ->
    snd gw' = msgbox showwarning "Not connected" "Connect to a target first." w)).
Proof.
  cbv zeta. unfold _start_seq.
  destruct (thread_alive (g, w)) eqn:TA.
  { assert (NA : ~ (true = false /\ connected g = true /\
                    exists p, read_params parse_float parse_int g = Ok p))
      by (intros (F & _); discriminate).
    cbn [fst snd].
    split; [split; [intros X; now destruct X | intros A; now destruct (NA A)] |].
    split; [intros A; now destruct (NA A) |].
    intros _. repeat split. discriminate. }
  destruct (read_params parse_float parse_int g) as [p | e] eqn:RP.
  2: { assert (NA : ~ (false = false /\ connected g = true /\
                       exists p : params_t, @Raise params_t e = Ok p))
         by (intros (_ & _ & [p F]); discriminate).
       cbn [fst snd msgbox emit alive cancel_at log].
       split; [split; [intros X; now destruct X | intros A; now destruct (NA A)] |].
       split; [intros A; now destruct (NA A) |].
       intros _. repeat split.
       - rewrite writes_app. cbn. now rewrite app_nil_r.
       - intros _ [p F]. discriminate. }
  destruct (connected g) eqn:C; cbn [USE_SCOPE andb negb].
  - unfold thread_start, flag_clear.
    cbn [fst snd alive cancel_at log now spawned params start_btn stop_btn
         set_params set__thread set_start_btn set_stop_btn].
    assert (TA' : thread_alive
                    (set_stop_btn normal
                       (set_start_btn disabled
                          (set__thread (Some (spawned w)) (set_params (Some p) g))),
                     mkWorld (now w) None (faults w) (overruns w)
                             (spawned w :: alive w)
                             (S (spawned w))
                             (log w ++ [ThreadStart (now w) (spawned w)]))
                  = true).
    { unfold thread_alive. cbn. now rewrite Nat.eqb_refl. }
    split; [split |]; [| | split].
    + intros _. repeat split. now exists p.
    + intros _. apply cons_neq.
    + intros _. repeat split; [exact TA' |]. now exists p.
    + intros N. exfalso. apply N. repeat split. now exists p.
  - assert (NA : ~ (false = false /\ false = true /\
                    exists p0 : params_t, Ok p = Ok p0))
      by (intros (_ & F & _); discriminate).
    cbn [fst snd msgbox emit alive cancel_at log].
    split; [split; [intros X; now destruct X | intros A; now destruct (NA A)] |].
    split; [intros A; now destruct (NA A) |].
    intros _. repeat split.
    rewrite writes_app. cbn. now rewrite app_nil_r.
Qed.

(** What one [set_value] does, case by case. *)
Lemma set_value_cases (h : handle) (v : Z) (w w' : World) (r : res unit) :
  set_value h v w = (r, w') ->
  now w' = now w + lag w /\
  cancel_at w' = cancel_at w /\
  log w' = log w ++ [match r with
                     | Ok _ => Write (now w') h v
                     | Raise _ => WriteFailed (now w') h v
                     end] /\
  (forall e, r = Raise e <-> exists d fs, faults w = (d, Some e) :: fs).
Proof.
  unfold set_value, lag.
  destruct (faults w) as [| [d [e |]] fs]; intros H; injection H as <- <-;
    cbn [now log cancel_at emit].
  - split; [lia |]. split; [reflexivity |]. split; [reflexivity |].
    intros e. split; [discriminate | intros (d & fs & F); discriminate].
  - split; [reflexivity |]. split; [reflexivity |]. split; [reflexivity |].
    intros e'. split.
    + intros E. injection E as <-. eauto.
    + intros (d' & fs' & E). now injection E as _ -> _.
  - split; [reflexivity |]. split; [reflexivity |]. split; [reflexivity |].
    intros e. split; [discriminate | intros (d' & fs' & F); discriminate].
Qed.

(** X8. STOP with a live worker raises the stop flag before it writes: the
    flag is up when [_stop_seq] is left, also when the write of the stop
    request raised.  When the write goes through, the log gets the write
    of 1 to the stop request and the status "Stopping…"; when it raises,
    the exception leaves the method and the status line is not touched.
    Without a live worker STOP does nothing at all. *)
Theorem stop_raises_the_flag_before_it_writes
    (g : MotorGUI) (w : World) (hs : handle) :
  stop_var g = Var hs ->
  (thread_alive (g, w) = false -> _stop_seq (g, w) = (Ok tt, (g, w))) /\
  (thread_alive (g, w) = true ->
   exists r w',
     _stop_seq (g, w)
     = (r, (match r with Ok _ => with_status "Stopping…" g | Raise _ => g end, w')) /\
     is_set w' = true /\
     now w' = now w + lag w /\
     log w' = log w ++ match r with
                       | Ok _ => [Write (now w') hs 1; Status (now w') "Stopping…"]
                       | Raise _ => [WriteFailed (now w') hs 1]
                       end /\
     (forall e, r = Raise e <-> exists d fs, faults w = (d, Some e) :: fs)).
Proof.
  intros Hs. split; intros TA.
  { unfold _stop_seq. now rewrite TA. }
  pose proof (stop_seq_raises_flag (g, w) TA) as [S1 _].
  unfold _stop_seq in *. rewrite TA in *. rewrite Hs in *.
  unfold write in *. cbn [method] in *.
  assert (F : faults (flag_set w) = faults w /\ now (flag_set w) = now w /\
              log (flag_set w) = log w).
  { unfold flag_set. now destruct (is_set w). }
  destruct F as (F & N & L).
  destruct (set_value hs 1 (flag_set w)) as [r w1] eqn:E.
  apply set_value_cases in E as (T & _ & Lg & X).
  unfold lag in *. rewrite F in *. rewrite N in T. rewrite L in Lg.
  destruct r as [[] | e]; unfold set_status in *; cbn [fst snd] in *.
  - exists (Ok tt), (emit (Status (now w1) "Stopping…") w1).
    cbn [emit log now].
    split; [reflexivity |]. split; [exact S1 |]. split; [exact T |].
    split; [rewrite Lg; now rewrite <- app_assoc | exact X].
  - exists (Raise e), w1.
    split; [reflexivity |]. split; [exact S1 |]. split; [exact T |].
    split; [exact Lg | exact X].
Qed.

(** While the worker of the default sequence runs, with a write that
    fails after 1 ms. *)
Lemma stop_raises_the_flag_before_it_writes_witness :
  let g := running_gui false (default_params 3) in
  let w := running_world None [(4194%nat, Some (LinkError "link down"))] [] in
  let hs := mkHandle STOP_REQ_VAR false in
  (thread_alive (g, w) = false -> _stop_seq (g, w) = (Ok tt, (g, w))) /\
  (thread_alive (g, w) = true ->
   exists r w',
     _stop_seq (g, w)
     = (r, (match r with Ok _ => with_status "Stopping…" g | Raise _ => g end, w')) /\
     is_set w' = true /\
     now w' = now w + lag w /\
     log w' = log w ++ match r with
                       | Ok _ => [Write (now w') hs 1;
                                  Status (now w') "Stopping…"]
                       | Raise _ => [WriteFailed (now w') hs 1]
                       end /\
     (forall e, r = Raise e <-> exists d fs, faults w = (d, Some e) :: fs)).
Proof.
  apply (stop_raises_the_flag_before_it_writes
           (running_gui false (default_params 3))
           (running_world None [(4194%nat, Some (LinkError "link down"))] [])
           (mkHandle STOP_REQ_VAR false)).
  reflexivity.
Defined.

(* --------------------------------------------------------------------- *)
(** *** Disconnecting *)

(** What [ensure_stopped] does, case by case. *)
Lemma ensure_stopped_cases (g : MotorGUI) (w w' : World) (r : res unit) :
  ensure_stopped g w = (r, w') ->
  cancel_at w' = cancel_at w /\
  alive w' = alive w /\
  match r with
  | Ok _ =>
      log w' = log w ++ stop_event g (now w') /\
      (truthy (stop_var g) = false -> w' = w)
  | Raise e =>
      exists hs d fs,
        stop_var g = Var hs /\ h_truthy hs = true /\
        faults w = (d, Some e) :: fs /\
        log w' = log w ++ [WriteFailed (now w') hs 1]
  end /\
  now w' = now w + (if truthy (stop_var g) then lag w else 0).
Proof.
  unfold ensure_stopped, stop_event, truthy, write, method.
  destruct (stop_var g) as [| | hs].
  - intros H; injection H as <- <-. rewrite app_nil_r, Z.add_0_r. tauto.
  - intros H; injection H as <- <-. rewrite app_nil_r, Z.add_0_r. tauto.
  - destruct (h_truthy hs) eqn:T.
    + intros H. pose proof (set_value_spec 0 _ _ _ _ _ H) as Sp.
      apply set_value_cases in H as (N & C & Lg & X).
      split; [exact C |].
      split.
      { destruct r; [destruct Sp as [[G _] _] | destruct Sp as [[G _] _]];
          exact (grows_alive _ _ _ G). }
      split; [| exact N].
      destruct r as [[] | e].
      * split; [exact Lg | discriminate].
      * destruct (proj1 (X e) eq_refl) as (d & fs & F).
        exists hs, d, fs. auto.
    + intros H; injection H as <- <-. rewrite app_nil_r, Z.add_0_r. tauto.
Qed.

(** X9. Disconnect asks the motor to stop, if the stop variable object is
    true, before it closes the port, and gives up at the first call that
    raises.  When the calls go through, the GUI is disconnected: port
    closed, both buttons disabled, "Connect" on the connection button,
    status "Disconnected".  When the stop request or the closing of the
    port raises, the exception leaves the method and the GUI object is
    what it was: still connected, the port still open.  In no case is a
    second write tried. *)
Theorem disconnect_stops_then_closes
    (tgt : Target) (g g' : MotorGUI) (w w' : World) (r : res unit) :
  _disconnect tgt (g, w) = (r, (g', w')) ->
  now w' = now w + (if truthy (stop_var g) then lag w else 0) /\
  match r with
  | Ok _ =>
      connected g' = false /\ scope g' = None /\
      start_btn g' = disabled /\ stop_btn g' = disabled /\
      conn_btn g' = "Connect" /\ status g' = "Disconnected" /\
      log w' = log w ++ stop_event g (now w') ++ [Status (now w') "Disconnected"]
  | Raise e =>
      g' = g /\
      ((exists hs d fs,
          stop_var g = Var hs /\ h_truthy hs = true /\
          faults w = (d, Some e) :: fs /\
          log w' = log w ++ [WriteFailed (now w') hs 1]) \/
       (scope g <> None /\ x2c_close tgt = Raise e /\
        log w' = log w ++ stop_event g (now w')))
  end.
Proof.
  unfold _disconnect.
  destruct (ensure_stopped g w) as [r1 w1] eqn:E.
  apply ensure_stopped_cases in E as (_ & _ & X & N).
  destruct r1 as [[] | e].
  2: { intros H; injection H as <- <- <-. split; [exact N |].
       split; [reflexivity | now left]. }
  destruct X as [Lg _].
  unfold scope_disconnect. cbn [USE_SCOPE].
  destruct (scope g) as [port |] eqn:Sc;
    [destruct (x2c_close tgt) as [[] | e] eqn:Cl |];
    unfold set_status; cbn [fst snd]; intros H; injection H as <- <- <-;
    cbn [now log emit]; (split; [exact N |]).
  - cbn. repeat split. now rewrite Lg, <- app_assoc.
  - split; [reflexivity |]. right. split; [congruence |]. now split.
  - cbn. repeat split; [exact Sc |]. now rewrite Lg, <- app_assoc.
Qed.

(** Connected to a target that answers, with variable objects that are
    true and the stop request failing. *)
Lemma disconnect_stops_then_closes_witness :
  let g := idle_gui true "1500" in
  let w := init_world [(0%nat, Some (LinkError "link down"))] [] in
  let w' := mkWorld 0 None [] [] [] 0
              [WriteFailed 0 (mkHandle STOP_REQ_VAR true) 1] in
  now w' = now w + (if truthy (stop_var g) then lag w else 0) /\
  g = g /\
  ((exists hs d fs,
      stop_var g = Var hs /\ h_truthy hs = true /\
      faults w = (d, Some (LinkError "link down")) :: fs /\
      log w' = log w ++ [WriteFailed (now w') hs 1]) \/
   (scope g <> None /\ x2c_close (target_up true) = Raise (LinkError "link down") /\
    log w' = log w ++ stop_event g (now w'))).
Proof.
  apply (disconnect_stops_then_closes (target_up true)
           (idle_gui true "1500") (idle_gui true "1500")
           (init_world [(0%nat, Some (LinkError "link down"))] [])
           (mkWorld 0 None [] [] [] 0
              [WriteFailed 0 (mkHandle STOP_REQ_VAR true) 1])
           (Raise (LinkError "link down"))).
  reflexivity.
Defined.

(** X10. Disconnect does not stop a running sequence.  With a worker alive it
    neither raises the stop flag nor ends the thread, and it leaves the
    variables in place: after it, whether it went through or raised, the
    worker is still alive, the flag is as it was and the worker still has
    the three variables it writes to. *)
Theorem disconnect_leaves_the_worker_running
    (tgt : Target) (g : MotorGUI) (w : World) :
  thread_alive (g, w) = true ->
  let gw' := snd (_disconnect tgt (g, w)) in
  thread_alive gw' = true /\
  cancel_at (snd gw') = cancel_at w /\
  cmd_var (fst gw') = cmd_var g /\
  run_var (fst gw') = run_var g /\
  stop_var (fst gw') = stop_var g /\
  params (fst gw') = params g.
Proof.
  intros TA. cbv zeta.
  destruct (disconnect_shape tgt g w) as (_ & KT & KA & _).
  assert (X : cancel_at (snd (snd (_disconnect tgt (g, w)))) = cancel_at w /\
              cmd_var (fst (snd (_disconnect tgt (g, w)))) = cmd_var g /\
              run_var (fst (snd (_disconnect tgt (g, w)))) = run_var g /\
              stop_var (fst (snd (_disconnect tgt (g, w)))) = stop_var g /\
              params (fst (snd (_disconnect tgt (g, w)))) = params g).
  { unfold _disconnect.
    destruct (ensure_stopped g w) as [r1 w1] eqn:E.
    apply ensure_stopped_cases in E as (C & _).
    destruct r1 as [[] | e]; [| cbn; tauto].
    unfold scope_disconnect. cbn [USE_SCOPE].
    destruct (scope g); [destruct (x2c_close tgt) as [[] | e'] |];
      unfold set_status; cbn; tauto. }
  split; [| exact X].
  unfold thread_alive in *. cbn [fst snd] in *. now rewrite KT, KA.
Qed.

(** Disconnect pressed while the worker of the default sequence runs. *)
Lemma disconnect_leaves_the_worker_running_witness :
  let g := running_gui false (default_params 3) in
  let w := running_world None [] [] in
  let gw' := snd (_disconnect (target_up false) (g, w)) in
  thread_alive gw' = true /\
  cancel_at (snd gw') = cancel_at w /\
  cmd_var (fst gw') = cmd_var g /\
  run_var (fst gw') = run_var g /\
  stop_var (fst gw') = stop_var g /\
  params (fst gw') = params g.
Proof.
  apply (disconnect_leaves_the_worker_running (target_up false)
           (running_gui false (default_params 3)) (running_world None [] [])).
  reflexivity.
Defined.

(* --------------------------------------------------------------------- *)
(** *** Connecting *)

Lemma inputs_ok_pass (tgt : Target) (g : MotorGUI) :
  inputs_ok tgt g ->
  (String.eqb (port_var g) "" || String.eqb (port_var g) "-"
   || str_empty (elf_path g))%bool = false /\
  negb (is_file tgt (elf_path g)) = false.
Proof.
  intros (P1 & P2 & P3 & P4). rewrite P4. split; [| reflexivity].
  apply String.eqb_neq in P1, P2. rewrite P1, P2. cbn [orb].
  destruct (str_empty (elf_path g)) eqn:E; [| reflexivity].
  apply str_empty_spec in E. contradiction.
Qed.

(** Once the port is open it stays with the wrapper, however the rest of
    the [try] block of [_connect] goes. *)
Lemma connect_try_scope (tgt : Target) (port elf : string)
    (g : MotorGUI) (w : World) :
  x2c_open tgt port = Ok tt ->
  scope (fst (snd (connect_try tgt port elf (g, w)))) = Some port.
Proof.
  intros O. unfold connect_try, scope_connect, scope_get_variable.
  cbn [USE_SCOPE negb]. rewrite O.
  destruct (x2c_import tgt elf) as [[] | e1]; [| reflexivity].
  cbn [scope set_scope set_hwui_var set_cmd_var set_meas_var set_run_var
       set_stop_var hwui_var].
  destruct (x2c_lookup tgt HWUI_VAR) as [h1 | e2]; cbn [bind]; [| reflexivity].
  destruct (x2c_lookup tgt VELOCITY_CMD) as [h2 | e3]; cbn [bind]; [| reflexivity].
  destruct (x2c_lookup tgt VELOCITY_MEAS) as [h3 | e4]; cbn [bind]; [| reflexivity].
  destruct (x2c_lookup tgt RUN_REQ_VAR) as [h4 | e5]; cbn [bind]; [| reflexivity].
  destruct (x2c_lookup tgt STOP_REQ_VAR) as [h5 | e6]; cbn [bind]; [| reflexivity].
  cbv beta iota zeta.
  destruct (write "hwui_var" (found HWUI_VAR h1) 0 w) as [[[] | e] w1]; reflexivity.
Qed.

(** X11. A connect that fails after the port was opened (the ELF import, a
    look-up or the first write raised) does not close the port again:
    the GUI stays disconnected, with the "Connection failed" box as the
    last thing done, but the wrapper keeps the open port; and the next
    click on the connection button connects once more, it does not
    disconnect. *)
Theorem failed_connect_keeps_the_port_open
    (tgt : Target) (g : MotorGUI) (w : World) :
  connected g = false ->
  inputs_ok tgt g ->
  x2c_open tgt (port_var g) = Ok tt ->
  ~ link_ok tgt g w ->
  let gw' := _connect tgt (g, w) in
  connected (fst gw') = false /\
  scope (fst gw') = Some (port_var g) /\
  (exists pre e,
     log (snd gw')
     = pre ++ [MsgBox (now (snd gw')) showerror "Connection failed" (str_exn e)]) /\
  forall tgt', _toggle_conn tgt' gw' = (Ok tt, _connect tgt' gw').
Proof.
  intros C I O NL. cbv zeta.
  assert (X : connected (fst (_connect tgt (g, w))) = false /\
              scope (fst (_connect tgt (g, w))) = Some (port_var g) /\
              exists pre e,
                log (snd (_connect tgt (g, w)))
                = pre ++ [MsgBox (now (snd (_connect tgt (g, w)))) showerror
                                 "Connection failed" (str_exn e)]).
  { unfold _connect. destruct (inputs_ok_pass tgt g I) as [-> ->].
    pose proof (connect_try_scope tgt (port_var g) (elf_path g) g w O) as Sc.
    destruct (connect_try tgt (port_var g) (elf_path g) (g, w))
      as [r [g1 w1]] eqn:T.
    cbn [fst snd] in Sc.
    apply connect_try_spec in T as ((C1 & _) & _ & _ & Y).
    destruct r as [[] | e]; [destruct Y; contradiction |].
    cbn [fst snd msgbox emit log now]. rewrite C1.
    repeat split; auto. now exists (log w1), e. }
  destruct X as (X1 & X2 & X3). repeat split; auto.
  intros tgt'. unfold _toggle_conn. now rewrite X1.
Qed.

(** On a target that answers every request but the first write. *)
Lemma failed_connect_keeps_the_port_open_witness :
  let tgt := target_up false in
  let g := typed "motor.elf" "COM3" "1500" "0.19913" "10" "50" "3" init_gui in
  let w := init_world [(0%nat, Some (LinkError "write timed out"))] [] in
  let gw' := _connect tgt (g, w) in
  connected (fst gw') = false /\
  scope (fst gw') = Some (port_var g) /\
  (exists pre e,
     log (snd gw')
     = pre ++ [MsgBox (now (snd gw')) showerror "Connection failed" (str_exn e)]) /\
  forall tgt', _toggle_conn tgt' gw' = (Ok tt, _connect tgt' gw').
Proof.
  apply (failed_connect_keeps_the_port_open (target_up false)
           (typed "motor.elf" "COM3" "1500" "0.19913" "10" "50" "3" init_gui)
           (init_world [(0%nat, Some (LinkError "write timed out"))] [])).
  - reflexivity.
  - repeat split; discriminate.
  - reflexivity.
  - intros (_ & _ & _ & _ & _ & _ & _ & F).
    exact (F 0%nat (LinkError "write timed out") [] eq_refl).
Defined.

(** The [try] block of [_connect] when no call raises and no write takes
    time. *)
Lemma connect_try_ok (tgt : Target) (g : MotorGUI) (w : World) :
  link_ok tgt g w ->
  faults w = [] ->
  exists bu vc vm vr vs,
    x2c_lookup tgt HWUI_VAR = Ok (Some bu) /\
    x2c_lookup tgt VELOCITY_CMD = Ok vc /\
    x2c_lookup tgt VELOCITY_MEAS = Ok vm /\
    x2c_lookup tgt RUN_REQ_VAR = Ok vr /\
    x2c_lookup tgt STOP_REQ_VAR = Ok vs /\
    connect_try tgt (port_var g) (elf_path g) (g, w)
    = (Ok tt,
       (set_stop_var (found STOP_REQ_VAR vs)
          (set_run_var (found RUN_REQ_VAR vr)
             (set_meas_var (found VELOCITY_MEAS vm)
                (set_cmd_var (found VELOCITY_CMD vc)
                   (set_hwui_var (Var (mkHandle HWUI_VAR bu))
                      (set_scope (Some (port_var g)) g))))),
        emit (Write (now w) (mkHandle HWUI_VAR bu) 0) w)).
Proof.
  intros (O & I & [bu Hu] & [vc Hc] & [vm Hm] & [vr Hr] & [vs Hs] & F) F0.
  exists bu, vc, vm, vr, vs. repeat (split; [assumption |]).
  unfold connect_try, scope_connect, scope_get_variable.
  cbn [USE_SCOPE negb]. rewrite O, I.
  cbn [scope set_scope set_hwui_var set_cmd_var set_meas_var set_run_var
       set_stop_var hwui_var].
  rewrite Hu, Hc, Hm, Hr, Hs. cbn [bind found].
  unfold write, method, set_value. now rewrite F0.
Qed.

(** X12. Connect, then Disconnect, on a target that answers at once.  The
    controls are back where they were (disconnected, port closed, START
    and STOP disabled, "Connect" on the button).  The target was written
    to on the way in, 0 to the hardware-UI switch, and on the way out, 1
    to the stop request, if the stop variable object is true.  The switch
    is not set back, and the variables stay with the GUI object after the
    port is closed. *)
Theorem connect_then_disconnect
    (tgt : Target) (g : MotorGUI) (w : World) :
  connected g = false ->
  inputs_ok tgt g ->
  link_ok tgt g w ->
  faults w = [] ->
  x2c_close tgt = Ok tt ->
  exists bu vs g2 w2,
    x2c_lookup tgt HWUI_VAR = Ok (Some bu) /\
    x2c_lookup tgt STOP_REQ_VAR = Ok vs /\
    _toggle_conn tgt (snd (_toggle_conn tgt (g, w))) = (Ok tt, (g2, w2)) /\
    connected g2 = false /\ scope g2 = None /\
    start_btn g2 = disabled /\ stop_btn g2 = disabled /\
    conn_btn g2 = "Connect" /\ status g2 = "Disconnected" /\
    hwui_var g2 = Var (mkHandle HWUI_VAR bu) /\
    stop_var g2 = found STOP_REQ_VAR vs /\
    log w2 = log w
             ++ [Write (now w) (mkHandle HWUI_VAR bu) 0;
                 Status (now w) ("Connected (" ++ port_var g ++ ")")]
             ++ match vs with
                | Some true => [Write (now w) (mkHandle STOP_REQ_VAR true) 1]
                | _ => []
                end
             ++ [Status (now w) "Disconnected"].
Proof.
  intros C I L F X.
  destruct (connect_try_ok tgt g w L F)
    as (bu & vc & vm & vr & vs & Hu & _ & _ & _ & Hs & T).
  exists bu, vs.
  unfold _toggle_conn at 2. cbn [fst]. rewrite C. cbn [snd].
  unfold _connect. destruct (inputs_ok_pass tgt g I) as [-> ->].
  rewrite T. unfold set_status. cbn [fst snd now emit].
  unfold _toggle_conn. cbn [fst connected with_status set_start_btn
                            set_conn_btn set_connected].
  unfold _disconnect, ensure_stopped.
  cbn [stop_var with_status set_start_btn set_conn_btn set_connected
       set_stop_var].
  unfold scope_disconnect. cbn [USE_SCOPE].
  destruct vs as [[|] |]; cbn [found truthy h_truthy];
    unfold write, method, set_value;
    cbn [faults emit now log cancel_at alive spawned overruns];
    rewrite ?F;
    cbn [scope with_status set_start_btn set_conn_btn set_connected
         set_stop_var set_run_var set_meas_var set_cmd_var set_hwui_var
         set_scope];
    rewrite X; unfold set_status; cbn [fst snd emit now log];
    (eexists; eexists; split; [exact Hu |]; split; [exact Hs |];
     split; [reflexivity |]; cbn; repeat split;
     now rewrite <- !app_assoc).
Qed.

(** From the fresh GUI with the ELF file and the port typed in, on a
    target whose variable objects are false. *)
Lemma connect_then_disconnect_witness :
  let tgt := target_up false in
  let g := typed "motor.elf" "COM3" "1500" "0.19913" "10" "50" "3" init_gui in
  let w := init_world [] [] in
  exists bu vs g2 w2,
    x2c_lookup tgt HWUI_VAR = Ok (Some bu) /\
    x2c_lookup tgt STOP_REQ_VAR = Ok vs /\
    _toggle_conn tgt (snd (_toggle_conn tgt (g, w)))
    = (Ok tt, (g2, w2)) /\
    connected g2 = false /\ scope g2 = None /\
    start_btn g2 = disabled /\ stop_btn g2 = disabled /\
    conn_btn g2 = "Connect" /\ status g2 = "Disconnected" /\
    hwui_var g2 = Var (mkHandle HWUI_VAR bu) /\
    stop_var g2 = found STOP_REQ_VAR vs /\
    log w2 = log w
             ++ [Write (now w) (mkHandle HWUI_VAR bu) 0;
                 Status (now w) ("Connected (" ++ port_var g ++ ")")]
             ++ match vs with
                | Some true => [Write (now w) (mkHandle STOP_REQ_VAR true) 1]
                | _ => []
                end
             ++ [Status (now w) "Disconnected"].
Proof.
  apply (connect_then_disconnect (target_up false)
           (typed "motor.elf" "COM3" "1500" "0.19913" "10" "50" "3" init_gui)
           (init_world [] [])).
  - reflexivity.
  - repeat split; discriminate.
  - repeat split; try reflexivity; try (eexists; reflexivity).
    intros d e fs. discriminate.
  - reflexivity.
  - reflexivity.
Defined.

(* --------------------------------------------------------------------- *)
(** *** The port menu, closing the window *)

Lemma connect_missing_port (tgt : Target) (g : MotorGUI) (w : World) :
  port_var g = "-" ->
  _connect tgt (g, w)
  = (g, msgbox showwarning "Missing info" "Choose COM port and ELF file." w).
Proof.
  intros P. unfold _connect. rewrite P. reflexivity.
Qed.

(** X14. Refreshing the port list.  The menu is never empty: it holds the
    ports found, in order, or the one placeholder "-" when none was
    found; choosing an entry selects the port on its label.  The
    selection itself goes back to the placeholder, so that Connect right
    after a refresh is refused with the "Missing info" warning, whatever
    the ELF path, and so it is after choosing the only entry of a menu
    built without ports. *)
Theorem refresh_resets_the_port
    (tgt : Target) (comports : list string) (g : MotorGUI) (w : World) :
  let menu := fst (_refresh_ports comports g) in
  let g' := snd (_refresh_ports comports g) in
  menu <> [] /\
  (comports <> [] -> map fst menu = comports) /\
  (forall e, In e menu -> port_var (invoke e g') = fst e) /\
  _connect tgt (g', w)
  = (g', msgbox showwarning "Missing info" "Choose COM port and ELF file." w) /\
  (comports = [] ->
   forall e, In e menu ->
     _connect tgt (invoke e g', w)
     = (invoke e g',
        msgbox showwarning "Missing info" "Choose COM port and ELF file." w)).
Proof.
  cbv zeta. unfold _refresh_ports. cbn [fst snd]. split; [| split; [| split; [| split]]].
  - destruct comports; discriminate.
  - intros N. destruct comports as [| p ps]; [contradiction |].
    cbn [_ports]. rewrite map_map. cbn [fst]. apply map_id.
  - intros e Hin. apply in_map_iff in Hin as (p & <- & _). reflexivity.
  - now apply connect_missing_port.
  - intros -> e [<- | []]. now apply connect_missing_port.
Qed.

(** X15. Closing the window.  [root.destroy()] runs in every case.  Before
    it, the motor is asked to stop, if the stop variable object is true,
    and then the port is closed; the GUI object is not updated otherwise,
    the stop flag is not raised and no thread is ended.  When the stop
    request raises, the port is not closed; the exception leaves the
    method after the window is destroyed. *)
Theorem close_stops_then_disconnects
    (tgt : Target) (g g' : MotorGUI) (w w' : World) (r : res unit) (d : bool) :
  _on_close tgt (g, w) = (r, (g', w'), d) ->
  d = true /\
  now w' = now w + (if truthy (stop_var g) then lag w else 0) /\
  cancel_at w' = cancel_at w /\ alive w' = alive w /\
  connected g' = connected g /\ status g' = status g /\
  match r with
  | Ok _ =>
      scope g' = None /\
      log w' = log w ++ stop_event g (now w')
  | Raise e =>
      g' = g /\
      ((exists hs k fs,
          stop_var g = Var hs /\ h_truthy hs = true /\
          faults w = (k, Some e) :: fs /\
          log w' = log w ++ [WriteFailed (now w') hs 1]) \/
       (scope g <> None /\ x2c_close tgt = Raise e /\
        log w' = log w ++ stop_event g (now w')))
  end.
Proof.
  unfold _on_close.
  destruct (ensure_stopped g w) as [r1 w1] eqn:E.
  apply ensure_stopped_cases in E as (C & A & X & N).
  destruct r1 as [[] | e].
  2: { intros H; injection H as <- <- <- <-.
       split; [reflexivity |]. split; [exact N |].
       split; [exact C |]. split; [exact A |].
       split; [reflexivity |]. split; [reflexivity |].
       split; [reflexivity | now left]. }
  destruct X as [Lg _].
  unfold scope_disconnect. cbn [USE_SCOPE].
  destruct (scope g) as [port |] eqn:Sc;
    [destruct (x2c_close tgt) as [[] | e] eqn:Cl |];
    intros H; injection H as <- <- <- <-;
    (split; [reflexivity |]); (split; [exact N |]);
    (split; [exact C |]); (split; [exact A |]);
    (split; [reflexivity |]); (split; [reflexivity |]).
  - now split.
  - split; [reflexivity |]. right. split; [congruence |]. now split.
  - now split.
Qed.

(** The window closed while the default sequence runs, with variable
    objects that are false: nothing is written. *)
Lemma close_stops_then_disconnects_witness :
  let g := running_gui false (default_params 3) in
  let w := running_world None [] [] in
  let g' := set_scope None g in
  true = true /\
  now w = now w + (if truthy (stop_var g) then lag w else 0) /\
  cancel_at w = cancel_at w /\ alive w = alive w /\
  connected g' = connected g /\ status g' = status g /\
  scope g' = None /\
  log w = log w ++ stop_event g (now w).
Proof.
  apply (close_stops_then_disconnects (target_up false)
           (running_gui false (default_params 3))
           (set_scope None (running_gui false (default_params 3)))
           (running_world None [] [])
           (running_world None [] [])
           (Ok tt) true).
  reflexivity.
Defined.

(* ===================================================================== *)
(** ** More about the poller *)

Lemma read_counts_bound (tgt : Target) (g : MotorGUI) (B : Z) :
  (0 < B)%Z ->
  (forall h c, x2c_read tgt h = Ok c -> exists n, c = Some n /\ (Z.abs n < B)%Z) ->
  exists m c, read_counts tgt g = (Some m, Some c) /\
              (Z.abs m < B)%Z /\ (Z.abs c < B)%Z.
Proof.
  intros HB H. unfold read_counts, get_value.
  assert (Z : exists m c : Z, (Some 0, Some 0) = (Some m, Some c) /\
                              (Z.abs m < B)%Z /\ (Z.abs c < B)%Z).
  { exists 0, 0. repeat split; cbn; lia. }
  destruct (method "meas_var" "get_value" (meas_var g)) as [hm | e];
    cbn [bind]; [| exact Z].
  destruct (x2c_read tgt hm) as [m |] eqn:Em; [| exact Z].
  destruct (H _ _ Em) as (n & -> & Bn).
  destruct (method "cmd_var" "get_value" (cmd_var g)) as [hc | e];
    cbn [bind]; [| exact Z].
  destruct (x2c_read tgt hc) as [c |] eqn:Ec; [| exact Z].
  destruct (H _ _ Ec) as (n' & -> & Bn').
  exists n, n'. auto.
Qed.

(** X16. The poller keeps itself going and does nothing but show.  As long as
    the counts the target answers are ints below [2^1023] in size, a tick
    never raises: it sets the two speed texts, leaves the rest of the GUI
    object alone, writes nothing to the target and schedules the next
    tick [POLL_MS] later.  The texts are the dash exactly when the GUI is
    not connected or the scale entry does not parse. *)
Theorem poll_keeps_itself_going
    (parse_float : string -> option float) (tgt : Target)
    (g : MotorGUI) (w : World) :
  (forall h c, x2c_read tgt h = Ok c ->
               exists n, c = Some n /\ (Z.abs n < 2 ^ 1023)%Z) ->
  exists a b : string,
    _poll_speeds parse_float tgt (g, w)
    = (Ok tt, (set_cmd_str b (set_meas_str a g),
               emit (After (now w) POLL_MS cb_poll_speeds) w)) /\
    (a = DASH <-> connected g = false \/ parse_float (scale_entry g) = None) /\
    (b = DASH <-> connected g = false \/ parse_float (scale_entry g) = None).
Proof.
  intros H. unfold _poll_speeds.
  destruct (connected g) eqn:C.
  2: { exists DASH, DASH. split; [reflexivity |]. split; split; auto. }
  destruct (read_counts_bound tgt g (2 ^ 1023) ltac:(lia) H)
    as (m & c & -> & Bm & Bc).
  unfold show_speeds, float_of.
  destruct (parse_float (scale_entry g)) as [scale |] eqn:P; cbn [bind].
  2: { exists DASH, DASH. split; [reflexivity |]. split; split; auto. }
  cbn [operand bind].
  destruct (toRPM_total m scale Bm) as [rm ->].
  destruct (toRPM_total c scale Bc) as [rc ->]. cbn [bind].
  exists (speed_text rm m), (speed_text rc c). split; [reflexivity |].
  split; split.
  - intros E. now apply speed_text_not_dash in E.
  - intros [F | F]; discriminate.
  - intros E. now apply speed_text_not_dash in E.
  - intros [F | F]; discriminate.
Qed.

(** On the target that answers 7530 and 7533 counts. *)
Lemma poll_keeps_itself_going_witness :
  let tgt := target_up false in
  let g := idle_gui false "1500" in
  let w := init_world [] [] in
  exists a b : string,
    _poll_speeds lit_float tgt (g, w)
    = (Ok tt, (set_cmd_str b (set_meas_str a g),
               emit (After (now w) POLL_MS cb_poll_speeds) w)) /\
    (a = DASH <-> connected g = false \/ lit_float (scale_entry g) = None) /\
    (b = DASH <-> connected g = false \/ lit_float (scale_entry g) = None).
Proof.
  apply (poll_keeps_itself_going lit_float (target_up false)
           (idle_gui false "1500") (init_world [] [])).
  intros h c. cbn [x2c_read target_up].
  destruct (String.eqb (h_path h) VELOCITY_MEAS); intros E; injection E as <-;
    eexists; (split; [reflexivity | vm_compute; reflexivity]).
Defined.

(* ===================================================================== *)
(** ** More of what holds of every state the program reaches *)

(** X19. In every state the program reaches, a GUI that says it is
    connected has the open port and the variable that switches the
    hardware UI off, and its other four variable attributes were assigned
    what the look-ups returned, a variable or [None]: [connected] is set
    only after the whole [try] block of [_connect] went through, and
    nothing takes an attribute away afterwards. *)
Theorem connected_gui_has_port_and_handles
    (parse_float : string -> option float) (parse_int : string -> option Z)
    (g : MotorGUI) (w : World) :
  reachable parse_float parse_int (g, w) ->
  connected g = true ->
  exists port hu,
    scope g = Some port /\
    hwui_var g = Var hu /\ h_path hu = HWUI_VAR /\
    cmd_var g <> Unset /\ meas_var g <> Unset /\
    run_var g <> Unset /\ stop_var g <> Unset.
Proof.
  intros R C. apply inv_reachable in R as (_ & IC & _).
  destruct (IC C) as (H0 & (hu & H1 & Hp) & H2 & H3 & H4 & H5). cbn [fst] in *.
  destruct (scope g) as [port |]; [| congruence].
  exists port, hu. repeat split; assumption.
Qed.

(** In the state reached by typing the ELF file and the port and
    connecting, to a target whose ELF file has no stop request
    variable. *)
Lemma connected_gui_has_port_and_handles_witness :
  let gw :=
    snd (_toggle_conn (target_without false STOP_REQ_VAR)
           (typed "motor.elf" "COM3" "1500" "0.19913" "10" "50" "3" init_gui,
            init_world [] [])) in
  exists port hu,
    scope (fst gw) = Some port /\
    hwui_var (fst gw) = Var hu /\ h_path hu = HWUI_VAR /\
    cmd_var (fst gw) <> Unset /\ meas_var (fst gw) <> Unset /\
    run_var (fst gw) <> Unset /\ stop_var (fst gw) <> Unset.
Proof.
  intros gw.
  apply (connected_gui_has_port_and_handles lit_float lit_int (fst gw) (snd gw)).
  - rewrite <- surjective_pairing. apply reach_connected.
  - reflexivity.
Defined.

(** X20. In every state the program reaches, the parameters stored for the
    worker passed the check of [_start_seq]: the scale and the run time
    are not [<= 0], the stop time is not [< 0] and there is at least one
    iteration; and they are stored once a worker was started.  (The speed
    is any float.) *)
Theorem stored_parameters_passed_the_check
    (parse_float : string -> option float) (parse_int : string -> option Z)
    (g : MotorGUI) (w : World) :
  reachable parse_float parse_int (g, w) ->
  (_thread g <> None -> params g <> None) /\
  forall rpm scale run_t stop_t cycles,
    params g = Some (rpm, scale, run_t, stop_t, cycles) ->
    le0 scale = false /\ le0 run_t = false /\ lt0 stop_t = false /\ 0 < cycles.
Proof.
  intros R. apply inv_reachable in R as (_ & _ & [P1 P2] & _).
  split; [exact P2 |]. intros rpm scale run_t stop_t cycles Hp.
  exact (P1 _ Hp).
Qed.

(** In the state reached by connecting and pressing START. *)
Lemma stored_parameters_passed_the_check_witness :
  let gw :=
    _start_seq lit_float lit_int
      (snd (_toggle_conn (target_up false)
              (typed "motor.elf" "COM3" "1500" "0.19913" "10" "50" "3" init_gui,
               init_world [] []))) in
  (_thread (fst gw) <> None -> params (fst gw) <> None) /\
  forall rpm scale run_t stop_t cycles,
    params (fst gw) = Some (rpm, scale, run_t, stop_t, cycles) ->
    le0 scale = false /\ le0 run_t = false /\ lt0 stop_t = false /\ 0 < cycles.
Proof.
  intros gw.
  apply (stored_parameters_passed_the_check lit_float lit_int (fst gw) (snd gw)).
  rewrite <- surjective_pairing. apply reach_started.
Defined.

(** X21. In every state the program reaches, the first write ever tried on
    the target is the one of [_connect] that disables the hardware UI (a
    0 to the variable looked up under [HWUI_VAR]); and it was tried
    before the GUI became connected or a worker was started.  So neither
    the worker nor STOP nor Disconnect writes to a target whose hardware
    UI was not switched off first. *)
Theorem first_write_disables_the_hardware_ui
    (parse_float : string -> option float) (parse_int : string -> option Z)
    (g : MotorGUI) (w : World) :
  reachable parse_float parse_int (g, w) ->
  (forall h v rest,
     attempts (log w) = (h, v) :: rest ->
     v = 0 /\ h_path h = HWUI_VAR) /\
  (connected g = true \/ _thread g <> None -> attempts (log w) <> []).
Proof.
  intros R. apply inv_reachable in R as (_ & _ & _ & [F1 F2]).
  cbn [fst snd] in *. split; [| exact F1].
  intros h v rest E. unfold hwui_first in F2. now rewrite E in F2.
Qed.

(** In the state reached by connecting and pressing START. *)
Lemma first_write_disables_the_hardware_ui_witness :
  let gw :=
    _start_seq lit_float lit_int
      (snd (_toggle_conn (target_up false)
              (typed "motor.elf" "COM3" "1500" "0.19913" "10" "50" "3" init_gui,
               init_world [] []))) in
  (forall h v rest,
     attempts (log (snd gw)) = (h, v) :: rest ->
     v = 0 /\ h_path h = HWUI_VAR) /\
  (connected (fst gw) = true \/ _thread (fst gw) <> None ->
   attempts (log (snd gw)) <> []).
Proof.
  intros gw.
  apply (first_write_disables_the_hardware_ui lit_float lit_int (fst gw) (snd gw)).
  rewrite <- surjective_pairing. apply reach_started.
Defined.

(* --------------------------------------------------------------------- *)
(** *** What a worker can die of *)

Lemma toCounts_raises_checked (rpm scale : float) (e : exn) :
  le0 scale = false ->
  toCounts rpm scale = Raise e ->
  e = ValueError \/ e = OverflowError.
Proof.
  intros P H. destruct (toCounts_raises _ _ _ H) as [E | [E | E]]; auto.
  subst e. unfold toCounts, truediv, bind in H.
  destruct scale as [sy | sy | | sy my ey]; try discriminate;
    apply round_raises in H; destruct H; discriminate.
Qed.

(** X22. What a worker can die of.  In every state the program reaches, a
    worker that was started finds its parameters and its three variable
    attributes assigned, and the scale it divides by is not zero.  So a
    run that ends in an exception ended in one of three ways: the speed
    did not convert ([round] raised [ValueError] or [OverflowError]), and
    then nothing at all was done; or a write to the target raised, and
    then that write is the last entry of the log; or one of the three
    attributes holds [None] (the look-up did not find the variable), and
    the run died of the [AttributeError] at its first write through it,
    with nothing but phase events in the log. *)
Theorem worker_dies_of_conversion_or_write
    (parse_float : string -> option float) (parse_int : string -> option Z)
    (fuel : nat) (g g' : MotorGUI) (w w' : World) (e : exn) :
  reachable parse_float parse_int (g, w) ->
  _thread g <> None ->
  _run_sequence fuel (g, w) = Some (Raise e, (g', w')) ->
  ((e = ValueError \/ e = OverflowError) /\ (g', w') = (g, w)) \/
  (exists pre h v d,
     log w' = log w ++ pre ++ [WriteFailed (now w') h v] /\
     In (d, Some e) (faults w)) \/
  (e = none_has_no "set_value" /\
   (cmd_var g = PyNone \/ run_var g = PyNone \/ stop_var g = PyNone) /\
   exists pre, log w' = log w ++ pre /\ Forall (phase_ev (cancel_at w)) pre).
Proof.
  intros R T H.
  pose proof (inv_reachable _ _ _ R) as ((_ & _ & I3) & _ & [P1 P2] & _).
  cbn [fst snd] in *.
  destruct (I3 (or_intror T)) as (Hc & Hr & Hs).
  destruct (params g) as [p |] eqn:Ep; [| now destruct (P2 T)].
  pose proof (P1 p eq_refl) as Pk.
  destruct p as [[[[rpm scale] run_t] stop_t] cycles].
  destruct Pk as (Ps & _).
  destruct (toCounts rpm scale) as [cnt | e0] eqn:TC.
  2: { unfold _run_sequence in H. cbn [fst] in H. rewrite Ep in H.
       cbn [getattr] in H. rewrite TC in H.
       injection H as <- <- <-. left. split; [| reflexivity].
       exact (toCounts_raises_checked rpm scale e0 Ps TC). }
  right.
  apply (run_spec (longest w)) in H as (evs & G & _ & X);
    [| apply sleeps_within_longest].
  destruct X as [[_ CF] | (pre & P & [[-> NV] | (h & v & d & -> & I)])].
  - unfold conversion_fails in CF. rewrite Ep, TC in CF. discriminate.
  - right. destruct NV as (name & var & I & M). unfold written in I.
    assert (V : var = PyNone /\ e = none_has_no "set_value").
    { destruct I as [E | [E | [E | []]]]; injection E as <- <-;
        [destruct (cmd_var g) | destruct (run_var g) | destruct (stop_var g)];
        try congruence; try discriminate;
        injection M as <-; split; reflexivity. }
    destruct V as [-> ->]. split; [reflexivity |].
    split.
    { destruct I as [E | [E | [E | []]]]; injection E as _ E; auto. }
    exists pre. split; [apply G | exact P].
  - left. exists pre, h, v, d. split; [apply G | exact I].
Qed.

(** The worker of the default sequence, with the link going down at its
    first write. *)
Lemma worker_dies_of_conversion_or_write_witness :
  let gw :=
    _start_seq lit_float lit_int
      (snd (_toggle_conn (target_up false)
              (typed "motor.elf" "COM3" "1500" "0.19913" "10" "50" "3" init_gui,
               init_world [(0%nat, None); (0%nat, Some (LinkError "link down"))]
                          []))) in
  let e := LinkError "link down" in
  let w' := world_after 1001 gw in
  ((e = ValueError \/ e = OverflowError) /\
   (gui_after 1001 gw, w') = (fst gw, snd gw)) \/
  (exists pre h v d,
     log w' = log (snd gw) ++ pre ++ [WriteFailed (now w') h v] /\
     In (d, Some e) (faults (snd gw))) \/
  (e = none_has_no "set_value" /\
   (cmd_var (fst gw) = PyNone \/ run_var (fst gw) = PyNone \/
    stop_var (fst gw) = PyNone) /\
   exists pre, log w' = log (snd gw) ++ pre /\
               Forall (phase_ev (cancel_at (snd gw))) pre).
Proof.
  intros gw e w'.
  apply (worker_dies_of_conversion_or_write lit_float lit_int 1001
           (fst gw) (gui_after 1001 gw) (snd gw) w' e).
  - rewrite <- surjective_pairing. apply reach_started.
  - discriminate.
  - vm_compute. reflexivity.
Defined.

(** X23. Once the worker has returned or died, no thread is alive: in every
    state the program reaches, the live worker is the only one, so that
    after its end [_thread.is_alive()] is false and the next START is not
    ignored by the guard at the top of [_start_seq]. *)
Theorem finished_worker_frees_start
    (parse_float : string -> option float) (parse_int : string -> option Z)
    (fuel : nat) (tid : nat) (g g' : MotorGUI) (w w' : World) (r : res unit) :
  reachable parse_float parse_int (g, w) ->
  In tid (alive w) ->
  _run_sequence fuel (g, w) = Some (r, (g', w')) ->
  alive (thread_exit tid w') = [] /\
  thread_alive (g', thread_exit tid w') = false.
Proof.
  intros R Hin H.
  pose proof (inv_reachable _ _ _ R) as ((I1 & I2 & _) & _). cbn [fst snd] in *.
  apply worker_shape in H as (_ & A & _).
  assert (E : alive w = [tid]).
  { pose proof (at_most_one _ _ I1 I2) as Len.
    destruct (alive w) as [| a [| b l]]; cbn in Len; try lia; [destruct Hin |].
    destruct Hin as [-> | []]. reflexivity. }
  assert (X : alive (thread_exit tid w') = []).
  { unfold thread_exit. cbn [alive]. rewrite A, E. cbn [filter].
    now rewrite Nat.eqb_refl. }
  split; [exact X |]. unfold thread_alive. cbn [fst snd]. rewrite X.
  now destruct (_thread g').
Qed.

(** The worker of the default sequence, run to its end. *)
Lemma finished_worker_frees_start_witness :
  let gw :=
    _start_seq lit_float lit_int
      (snd (_toggle_conn (target_up false)
              (typed "motor.elf" "COM3" "1500" "0.19913" "10" "50" "3" init_gui,
               init_world [] []))) in
  alive (thread_exit 0 (world_after 1001 gw)) = [] /\
  thread_alive (gui_after 1001 gw, thread_exit 0 (world_after 1001 gw)) = false.
Proof.
  intros gw.
  apply (finished_worker_frees_start lit_float lit_int 1001 0%nat
           (fst gw) (gui_after 1001 gw) (snd gw) (world_after 1001 gw) (Ok tt)).
  - rewrite <- surjective_pairing. apply reach_started.
  - vm_compute. now left.
  - vm_compute. reflexivity.
Defined.

(** X24. The file dialog and the file check of Connect.  A cancelled dialog
    ([askopenfilename] returns the empty text) leaves the ELF path as it
    was; a chosen name replaces it, whether the file exists or not.  The
    check comes with Connect: with a port selected and a path that is not
    a file, Connect shows "File not found" and does nothing else, so the
    target is not touched. *)
Theorem connect_checks_the_browsed_file
    (tgt : Target) (fn : string) (g : MotorGUI) (w : World) :
  fn <> "" ->
  port_var g <> "" -> port_var g <> "-" ->
  is_file tgt fn = false ->
  _browse_elf "" (_browse_elf fn g) = _browse_elf fn g /\
  elf_path (_browse_elf fn g) = fn /\
  _connect tgt (_browse_elf fn g, w)
  = (_browse_elf fn g,
     msgbox showerror "File not found" "ELF file does not exist." w).
Proof.
  intros Hfn P1 P2 F.
  assert (E : str_empty fn = false).
  { destruct (str_empty fn) eqn:E; [| reflexivity].
    apply str_empty_spec in E. contradiction. }
  unfold _browse_elf. rewrite E. cbn [str_empty].
  split; [reflexivity |]. split; [reflexivity |].
  unfold _connect, set_elf_path. cbn [port_var elf_path typed].
  apply String.eqb_neq in P1, P2. rewrite P1, P2, E, F. reflexivity.
Qed.

(** A name typed into the dialog for a file that is not there. *)
Lemma connect_checks_the_browsed_file_witness :
  let tgt := mkTarget (fun _ => false) (fun _ => Ok tt) (fun _ => Ok tt)
                      (fun _ => Ok (Some false)) (fun _ => Ok (Some 0)) (Ok tt) in
  let g := set_port_var "COM3" init_gui in
  let w := init_world [] [] in
  _browse_elf "" (_browse_elf "gone.elf" g) = _browse_elf "gone.elf" g /\
  elf_path (_browse_elf "gone.elf" g) = "gone.elf" /\
  _connect tgt (_browse_elf "gone.elf" g, w)
  = (_browse_elf "gone.elf" g,
     msgbox showerror "File not found" "ELF file does not exist." w).
Proof.
  apply (connect_checks_the_browsed_file
           (mkTarget (fun _ => false) (fun _ => Ok tt) (fun _ => Ok tt)
                     (fun _ => Ok (Some false)) (fun _ => Ok (Some 0)) (Ok tt))
           "gone.elf" (set_port_var "COM3" init_gui) (init_world [] []));
    try discriminate; reflexivity.
Defined.

(* ===================================================================== *)
(** ** More about the conversion *)

Lemma binary_round_aux_opp (sx : bool) (mx ex : Z) (lx : location) :
  binary_round_aux prec emax (negb sx) mx ex lx
  = SFopp (binary_round_aux prec emax sx mx ex lx).
Proof.
  unfold binary_round_aux.
  destruct (shr_fexp prec emax mx ex lx) as [mrs1 e1].
  destruct (shr_fexp prec emax _ e1 loc_Exact) as [mrs2 e2].
  destruct (shr_m mrs2) as [| m | m]; try reflexivity.
  destruct (e2 <=? emax - prec)%Z; reflexivity.
Qed.

Lemma SFdiv_opp (x y : float) :
  SFdiv prec emax (SFopp x) y = SFopp (SFdiv prec emax x y).
Proof.
  destruct x as [sx | sx | | sx mx ex], y as [sy | sy | | sy my ey];
    cbn [SFdiv SFopp]; rewrite ?negb_xorb_l; try reflexivity.
  destruct (SFdiv_core_binary prec emax (Z.pos mx) ex (Z.pos my) ey)
    as [[mz ez] lz].
  rewrite <- negb_xorb_l. apply binary_round_aux_opp.
Qed.

Lemma round_opp (q : float) :
  round (SFopp q) = (c <- round q ;; Ok (- c)).
Proof.
  destruct q as [s | s | | s m e]; cbn [round SFopp bind]; try reflexivity.
  destruct s; cbn [negb cond_Zopp]; f_equal; lia.
Qed.

(** X17. Reversing the sign of the speed reverses the sign of the count, and
    nothing else: [int(round(-rpm / scale))] is the opposite of
    [int(round(rpm / scale))], and raises when that one does. *)
Theorem opposite_speed_gives_opposite_count (rpm scale : float) :
  toCounts (SFopp rpm) scale = (c <- toCounts rpm scale ;; Ok (- c)).
Proof.
  unfold toCounts, truediv.
  destruct scale as [sy | sy | | sy my ey] eqn:E; cbn [bind];
    try reflexivity; rewrite SFdiv_opp; apply round_opp.
Qed.

Section Nearest.
Local Open Scope R_scope.

Lemma cond_Zopp_real (s : bool) (z : Z) :
  IZR (cond_Zopp s z) = (if s then - IZR z else IZR z).
Proof. destruct s; cbn [cond_Zopp]; [apply opp_IZR | reflexivity]. Qed.

(** X18. The count is the exact quotient to within one.  For a finite speed
    and a finite scale above zero whose quotient is, in size, at least a
    half and below [2^53], the conversion returns, and the count it
    returns is at most one away from [rpm / scale] taken over the reals
    (two roundings, of the division and of [round], each at most a half). *)
Theorem count_is_within_one_of_the_quotient (rpm scale : float) :
  is_finite rpm = true ->
  is_finite scale = true ->
  le0 scale = false ->
  / 2 <= Rabs (to_real rpm / to_real scale) < bpow 53 ->
  exists c : Z,
    toCounts rpm scale = Ok c /\
    Rabs (IZR c - to_real rpm / to_real scale) <= 1.
Proof.
  intros Fr Fs Ps Q.
  destruct scale as [sy | sy | | sy ms es]; try discriminate.
  destruct sy; [discriminate |].
  assert (HS : 0 < IZR (Z.pos ms) * bpow es).
  { apply Rmult_lt_0_compat; [apply IZR_lt; lia | apply bpow_gt_0]. }
  destruct rpm as [sx | sx | | sx m1 e1]; try discriminate.
  { exfalso. cbn [to_real] in Q. unfold Rdiv in Q. rewrite Rmult_0_l, Rabs_R0 in Q.
    lra. }
  assert (HM : 0 < IZR (Z.pos m1) * bpow e1).
  { apply Rmult_lt_0_compat; [apply IZR_lt; lia | apply bpow_gt_0]. }
  set (M := IZR (Z.pos m1) * bpow e1) in *.
  set (S := IZR (Z.pos ms) * bpow es) in *.
  assert (HQ : 0 < M / S) by (apply Rdiv_lt_0_compat; assumption).
  assert (V : to_real (S754_finite sx m1 e1) / to_real (S754_finite false ms es)
              = if sx then - (M / S) else M / S).
  { cbn [to_real]. rewrite cond_Zopp_real. cbn [cond_Zopp]. fold S.
    destruct sx; unfold M; field; lra. }
  rewrite V in *.
  assert (Q' : / 2 <= M / S < bpow 53).
  { destruct sx; [rewrite Rabs_Ropp in Q |]; rewrite Rabs_pos_eq in Q; lra. }
  destruct (div_error sx m1 ms e1 es Q') as (my & ey & D & E).
  fold M S in E.
  unfold toCounts, truediv. cbn [bind]. rewrite D. cbn [round].
  eexists. split; [reflexivity |].
  pose proof (half_even_near my ey) as N.
  apply Rabs_le_both in N, E. rewrite cond_Zopp_real.
  destruct sx; apply Rabs_le; lra.
Qed.

End Nearest.

(** 1500 RPM at the default scale: 7533 counts for a quotient of 7532.77. *)
Lemma count_is_within_one_of_the_quotient_witness :
  exists c : Z,
    toCounts (decimal 1500 0) (decimal 19913 5) = Ok c /\
    (Rabs (IZR c - to_real (decimal 1500 0) / to_real (decimal 19913 5)) <= 1)%R.
Proof.
  apply (count_is_within_one_of_the_quotient (decimal 1500 0) (decimal 19913 5));
    try reflexivity.
  change (decimal 1500 0) with (S754_finite false 6597069766656000 (-42)).
  change (decimal 19913 5) with (S754_finite false 7174414350386295 (-55)).
  cbn [to_real cond_Zopp].
  assert (X : (0 < bpow (-55))%R) by apply bpow_gt_0.
  assert (B : bpow (-42) = (8192 * bpow (-55))%R).
  { change (-42)%Z with (13 + -55)%Z. rewrite bpow_add, (bpow_IZR 13) by lia.
    reflexivity. }
  rewrite B, (bpow_IZR 53) by lia.
  replace (6597069766656000 * (8192 * bpow (-55))
           / (7174414350386295 * bpow (-55)))%R
    with (6597069766656000 * 8192 / 7174414350386295)%R by (field; lra).
  change (IZR (2 ^ 53)) with 9007199254740992%R.
  rewrite Rabs_pos_eq by lra. lra.
Defined.

(* ===================================================================== *)
(** ** The speed shown for the command *)

Section Shown.
Local Open Scope R_scope.

(** X26. The speed shown for the commanded count.  For a finite speed and a
    valid, finite scale above zero whose quotient is, in size, at least a
    half and below [2^53 - 1]: the speed converts to a count, the count
    converts back to the speed the poller shows, and when that product is
    finite it is less than two counts' worth of RPM (twice the scale) away
    from the speed that was asked for. *)
Theorem shown_command_speed_is_near_the_request (rpm scale : float) :
  is_finite rpm = true ->
  is_finite scale = true ->
  le0 scale = false ->
  valid_binary prec emax scale = true ->
  / 2 <= Rabs (to_real rpm / to_real scale) < bpow 53 - 1 ->
  exists (c : Z) (x : float),
    toCounts rpm scale = Ok c /\
    toRPM c scale = Ok x /\
    (is_finite x = true ->
     Rabs (to_real x - to_real rpm) <= 2 * to_real scale).
Proof.
  intros Fr Fs Ps Hval Q.
  destruct scale as [sy | sy | | sy ms es]; try discriminate.
  destruct sy; [discriminate |].
  pose proof (valid_exponent ms es Hval) as Hes.
  assert (HS : 0 < IZR (Z.pos ms) * bpow es).
  { apply Rmult_lt_0_compat; [apply IZR_lt; lia | apply bpow_gt_0]. }
  destruct rpm as [sx | sx | | sx m1 e1]; try discriminate.
  { exfalso. cbn [to_real] in Q. unfold Rdiv in Q.
    rewrite Rmult_0_l, Rabs_R0 in Q. lra. }
  assert (HM : 0 < IZR (Z.pos m1) * bpow e1).
  { apply Rmult_lt_0_compat; [apply IZR_lt; lia | apply bpow_gt_0]. }
  set (M := IZR (Z.pos m1) * bpow e1) in *.
  set (S := IZR (Z.pos ms) * bpow es) in *.
  assert (HQ : 0 < M / S) by (apply Rdiv_lt_0_compat; assumption).
  assert (Vr : to_real (S754_finite sx m1 e1) = if sx then - M else M).
  { cbn [to_real]. rewrite cond_Zopp_real. unfold M. destruct sx; ring. }
  assert (Vs : to_real (S754_finite false ms es) = S) by reflexivity.
  rewrite Vr, Vs in *.
  assert (Q' : / 2 <= M / S < bpow 53 - 1).
  { replace ((if sx then - M else M) / S)
      with (if sx then - (M / S) else M / S) in Q
      by (destruct sx; field; lra).
    destruct sx; [rewrite Rabs_Ropp in Q |]; rewrite Rabs_pos_eq in Q; lra. }
  assert (Q2 : / 2 <= M / S < bpow 53) by lra.
  destruct (div_error sx m1 ms e1 es Q2) as (my & ey & D & E).
  fold M S in E. apply Rabs_le_both in E.
  pose proof (half_even_near my ey) as N. apply Rabs_le_both in N.
  set (H := half_even my ey) in *.
  assert (HH : -1 <= IZR H - M / S <= 1) by lra.
  assert (H0 : (0 <= H)%Z).
  { assert (T : (-1 < H)%Z) by (apply lt_IZR; lra). lia. }
  assert (H53 : (H < 2 ^ 53)%Z).
  { apply lt_IZR. rewrite <- bpow_IZR by lia. lra. }
  exists (cond_Zopp sx H).
  assert (TC : toCounts (S754_finite sx m1 e1) (S754_finite false ms es)
               = Ok (cond_Zopp sx H)).
  { unfold toCounts, truediv. cbn [bind]. rewrite D. reflexivity. }
  (* the quotient, times the scale, is the speed *)
  assert (MS : M = M / S * S) by (field; lra).
  destruct (Z.eq_dec H 0) as [Hz | Hnz].
  - rewrite Hz. replace (cond_Zopp sx 0) with 0%Z by (now destruct sx).
    exists (S754_zero false). split; [rewrite TC, Hz; now destruct sx |].
    split; [reflexivity |]. intros _. cbn [to_real].
    rewrite Hz in HH. cbn in HH.
    assert (M <= S).
    { rewrite MS. assert (M / S <= 1) by lra. nra. }
    destruct sx; apply Rabs_le; lra.
  - set (c := cond_Zopp sx H) in *.
    assert (Ac : Z.abs c = H) by (unfold c; destruct sx; cbn; lia).
    assert (Sc : (c <? 0)%Z = sx).
    { unfold c. destruct sx; cbn [cond_Zopp]; [apply Z.ltb_lt | apply Z.ltb_ge]; lia. }
    destruct (of_int_total c) as (xc & Exc & _).
    { rewrite Ac. assert (2 ^ 53 < 2 ^ 1023)%Z by (apply Z.pow_lt_mono_r; lia). lia. }
    destruct (of_int_exact c xc Exc ltac:(lia)) as (mc & ec & -> & Vc).
    rewrite Ac, Sc in *.
    exists (SFmul prec emax (S754_finite sx mc ec) (S754_finite false ms es)).
    split; [exact TC |].
    split; [unfold toRPM, int_mul; rewrite Exc; reflexivity |].
    pose proof (mul_error sx mc ms ec es H Vc ltac:(lia) Hes) as Me.
    destruct (SFmul prec emax (S754_finite sx mc ec) (S754_finite false ms es))
      as [s | s | | s m2 e2]; try discriminate; try contradiction.
    intros _. destruct Me as [-> Me]. fold S in Me.
    apply Rabs_le_both in Me.
    cbn [to_real]. rewrite cond_Zopp_real.
    set (X := IZR (Z.pos m2) * bpow e2) in *.
    assert (B : bpow (-53) * bpow 53 = 1).
    { rewrite <- bpow_add. apply bpow_0. }
    pose proof (bpow_gt_0 (-53)) as B0.
    assert (Hr : IZR H < bpow 53).
    { rewrite bpow_IZR by lia. now apply IZR_lt. }
    assert (Hp : 0 < IZR H) by (apply IZR_lt; lia).
    assert (E1 : bpow (-53) * (IZR H * S) <= S).
    { assert (bpow (-53) * IZR H <= 1) by nra. nra. }
    assert (E2 : - S <= IZR H * S - M <= S).
    { rewrite MS at 1 2. split; nra. }
    replace (if sx then - IZR (Z.pos m2) else IZR (Z.pos m2))
      with (if sx then - (IZR (Z.pos m2)) else IZR (Z.pos m2)) by reflexivity.
    destruct sx; apply Rabs_le; fold X; unfold X in *; lra.
Qed.

End Shown.

(** 1500 RPM at the default scale: 7533 counts, shown as 1500 RPM. *)
Lemma shown_command_speed_is_near_the_request_witness :
  exists (c : Z) (x : float),
    toCounts (decimal 1500 0) (decimal 19913 5) = Ok c /\
    toRPM c (decimal 19913 5) = Ok x /\
    (is_finite x = true ->
     (Rabs (to_real x - to_real (decimal 1500 0))
      <= 2 * to_real (decimal 19913 5))%R).
Proof.
  apply (shown_command_speed_is_near_the_request
           (decimal 1500 0) (decimal 19913 5));
    try reflexivity.
  change (decimal 1500 0) with (S754_finite false 6597069766656000 (-42)).
  change (decimal 19913 5) with (S754_finite false 7174414350386295 (-55)).
  cbn [to_real cond_Zopp].
  assert (X : (0 < bpow (-55))%R) by apply bpow_gt_0.
  assert (B : bpow (-42) = (8192 * bpow (-55))%R).
  { change (-42)%Z with (13 + -55)%Z. rewrite bpow_add, (bpow_IZR 13) by lia.
    reflexivity. }
  rewrite B, (bpow_IZR 53) by lia.
  replace (6597069766656000 * (8192 * bpow (-55))
           / (7174414350386295 * bpow (-55)))%R
    with (6597069766656000 * 8192 / 7174414350386295)%R by (field; lra).
  change (IZR (2 ^ 53)) with 9007199254740992%R.
  rewrite Rabs_pos_eq by lra. lra.
Defined.

(* ===================================================================== *)
(** ** The clock, the stop request after the loop, and a read of [None] *)

(** X27. The test of the two waiting loops, [time.time() - t0 < d], is
    made on binary64 numbers, and the model's test on whole clock units
    is that very test.  For two readings of [time.time()] on a clock
    that does not run backwards and stays below [2^53] units (2^31 s
    after the epoch, the year 2038), and a duration that is a binary64
    number: the difference of the two readings is formed without
    rounding, and its comparison with the duration is [elapsed_lt] of the
    units that passed.  The outcome depends on the time that passed
    alone, not on when the program was started. *)
Theorem waiting_test_is_the_binary64_one (w0 w : World) (d : float) :
  0 <= now w0 <= now w ->
  now w < 2 ^ 53 ->
  valid_binary prec emax d = true ->
  lt (sub (time_time w) (time_time w0)) d = elapsed_lt (now w - now w0) d.
Proof.
  intros H0 H1 V. unfold time_time.
  exact (elapsed_lt_is_binary64 (now w) (now w0) d H0 H1 V).
Qed.

(** In November 2026 (1793750400 s after the epoch), two sleeps into a
    wait of 0.1 s: the wait is over. *)
Lemma waiting_test_is_the_binary64_one_witness :
  let w0 := advance (1793750400 * SECOND) (init_world [] []) in
  let w := sleep (sleep w0) in
  lt (sub (time_time w) (time_time w0)) (decimal 1 1)
  = elapsed_lt (now w - now w0) (decimal 1 1) /\
  elapsed_lt (now w - now w0) (decimal 1 1) = false.
Proof.
  split; [| vm_compute; reflexivity].
  apply (waiting_test_is_the_binary64_one
           (advance (1793750400 * SECOND) (init_world [] []))
           (sleep (sleep (advance (1793750400 * SECOND) (init_world [] []))))
           (decimal 1 1));
    vm_compute; try reflexivity; split; discriminate.
Defined.



(** X29. A read that returns [None] ends the poller.  When the GUI is
    connected, the scale entry parses and the read of the measured speed
    returns [None] without raising (the read of the command returning
    too), the product [cnt_meas * scale] raises [TypeError], which the
    [except ValueError] of the second [try] block does not catch: the tick
    raises, nothing is shown and the next tick is not scheduled. *)
Theorem read_of_none_ends_the_poller
    (parse_float : string -> option float) (tgt : Target)
    (g : MotorGUI) (w : World) (hm hc : handle) (c : option Z) (scale : float) :
  connected g = true ->
  meas_var g = Var hm -> cmd_var g = Var hc ->
  x2c_read tgt hm = Ok None ->
  x2c_read tgt hc = Ok c ->
  parse_float (scale_entry g) = Some scale ->
  _poll_speeds parse_float tgt (g, w) = (Raise TypeError, (g, w)).
Proof.
  intros C Hm Hc Rm Rc P.
  unfold _poll_speeds, read_counts, get_value, show_speeds, float_of.
  rewrite C, Hm, Hc. cbn [method bind]. rewrite Rm, Rc, P. reflexivity.
Qed.

(** On the target whose reads return [None]. *)
Lemma read_of_none_ends_the_poller_witness :
  let tgt := target_silent false in
  let g := idle_gui false "1500" in
  let w := init_world [] [] in
  _poll_speeds lit_float tgt (g, w) = (Raise TypeError, (g, w)).
Proof.
  apply (read_of_none_ends_the_poller lit_float (target_silent false)
           (idle_gui false "1500") (init_world [] [])
           (mkHandle VELOCITY_MEAS false) (mkHandle VELOCITY_CMD false)
           None (decimal 19913 5));
    reflexivity.
Defined.
